(** * gbm_project: the PyTorch dataset class [DatasetGenerator]

    A shallow embedding of [src/pytorch/dataset_class.py] and the
    properties of its index expansion, array loading, augmentation routing
    and access entry point.

    Conventions of the embedding.
    - A numpy array is a [shape] together with its elements nested one
      list per axis (row-major order); the element type is a parameter.
    - A Python exception is a value of [exn]; a computation that may raise
      returns a [result].
    - Methods that touch a random generator are written in a state monad
      over [World]; an exception leaves the state as it was when raised.
    - skimage, elasticdeform, numpy.random and pandas/feature retrieval
      are libraries outside the repository: they are fields of the class
      [Libs].
    - Files are read-only: every [np.load] returns a fresh array, so the
      loaders are written on array values; the sharing between an array
      and its views is modelled where [apply_flip] is studied ([Store]).
    - Conversions between element types on assignment are not modelled.
    - The optional transform hooks are callables of the caller: they may
      raise and may draw from numpy's global random state; they are not
      handed the instance, whose generators they leave alone.
    - A torch tensor is the array it is made from; labels are numeric rows,
      which [torch.tensor] takes as they are. *)

From Stdlib Require Import ZArith Lia Bool Ascii.
From stdpp Require Import base tactics option list strings gmap.

Local Set Warnings "-register-all".

(** ** Exceptions and results *)

Inductive exn : Type :=
  | FileNotFoundError
  | IndexError
  | AxisError
  | ValueError
  | KeyError
  | NameError
  | AttributeError
  | RuntimeError
  | OverflowError
  | TypeError.

Inductive result (A : Type) : Type :=
  | Ok (a : A)
  | Raise (e : exn).
Arguments Ok {A} a.
Arguments Raise {A} e.

Global Instance result_ret : MRet result := fun A a => Ok a.
Global Instance result_bind : MBind result := fun A B k r =>
  match r with
  | Ok a => k a
  | Raise e => Raise e
  end.

Definition of_option {A} (e : exn) (o : option A) : result A :=
  match o with
  | Some a => Ok a
  | None => Raise e
  end.

Definition is_Ok {A} (r : result A) : Prop :=
  match r with Ok _ => True | Raise _ => False end.

(** ** Strings: the pieces of [str] the class uses *)

(** [s.split(sep)] for a one-character separator: never empty, one more
    segment than there are separators. *)
Fixpoint split_on (sep : Ascii.ascii) (s : string) : list string :=
  match s with
  | EmptyString => [EmptyString]
  | String c s' =>
      if Ascii.eqb c sep then EmptyString :: split_on sep s'
      else match split_on sep s' with
           | [] => [String c EmptyString]
           | seg :: segs => String c seg :: segs
           end
  end.

(** [sep.join(segs)] *)
Definition join (sep : string) (segs : list string) : string :=
  String.concat sep segs.

(** [needle in hay] on two strings: substring containment. *)
Fixpoint contains (hay needle : string) : bool :=
  String.prefix needle hay
  || match hay with
     | EmptyString => false
     | String _ hay' => contains hay' needle
     end.

(** [segs[-1]] on the result of a split. *)
Definition last_segment (segs : list string) : string :=
  List.last segs EmptyString.

(** [os.path.join(dir, name)] on a POSIX system. *)
Definition path_join (dir name : string) : string :=
  if String.prefix "/" name then name
  else if String.eqb dir "" then name
  else if String.eqb (String.substring (String.length dir - 1) 1 dir) "/"
       then dir +:+ name
       else dir +:+ "/" +:+ name.

(** ** numpy arrays *)

Section Arrays.
Context {T : Type}.

Inductive nd : Type :=
  | Elem (x : T)
  | Dim (xs : list nd).

Record ndarray : Type := NdArray {
  shape : list nat;
  body : nd
}.

Definition ndim (a : ndarray) : nat := length (shape a).

Definition prod_shape (s : list nat) : nat := foldr Nat.mul 1 s.

(** [a.size] *)
Definition size (a : ndarray) : nat := prod_shape (shape a).

(** The nesting agrees with the shape (every numpy array does). *)
Fixpoint has_shape (s : list nat) (b : nd) : bool :=
  match s, b with
  | [], Elem _ => true
  | n :: s', Dim xs => (length xs =? n) && forallb (has_shape s') xs
  | _, _ => false
  end.

Definition wf (a : ndarray) : bool := has_shape (shape a) (body a).

(** *** Indexing on the leading axis *)

Definition children (b : nd) : list nd :=
  match b with Elem _ => [] | Dim xs => xs end.

(** [a[i]] for a literal non-negative [i]. *)
Definition index0 (i : nat) (a : ndarray) : result ndarray :=
  match shape a with
  | [] => Raise IndexError
  | n :: s =>
      if i <? n then
        x ← of_option IndexError (children (body a) !! i);
        Ok (NdArray s x)
      else Raise IndexError
  end.

(** [a[0:k]]: a slice never raises, it clips. *)
Definition slice0 (k : nat) (a : ndarray) : result ndarray :=
  match shape a with
  | [] => Raise IndexError
  | n :: s => Ok (NdArray (Nat.min k n :: s) (Dim (take k (children (body a)))))
  end.

(** [a[[i0, i1, ...]]]: integer-array indexing, every index bounds-checked. *)
Definition take0 (idxs : list nat) (a : ndarray) : result ndarray :=
  match shape a with
  | [] => Raise IndexError
  | n :: s =>
      if forallb (fun i => i <? n) idxs then
        xs ← of_option IndexError (mapM (fun i => children (body a) !! i) idxs);
        Ok (NdArray (length idxs :: s) (Dim xs))
      else Raise IndexError
  end.

(** [np.expand_dims(a, axis=0)] *)
Definition expand_dims0 (a : ndarray) : ndarray :=
  NdArray (1 :: shape a) (Dim [body a]).

(** *** [np.flip] *)

(** Mirror every axis listed in [axes]; [d] is the axis of the outermost
    list of [b]. *)
Fixpoint flip_at (axes : list nat) (d : nat) (b : nd) : nd :=
  match b with
  | Elem x => Elem x
  | Dim xs =>
      let ys := flip_at axes (S d) <$> xs in
      Dim (if bool_decide (d ∈ axes) then reverse ys else ys)
  end.

(** [np.flip(a, axis=axes)]: an axis outside the array raises. *)
Definition np_flip (a : ndarray) (axes : list nat) : result ndarray :=
  if forallb (fun ax => ax <? ndim a) axes
  then Ok (NdArray (shape a) (flip_at axes 0 (body a)))
  else Raise AxisError.

(** [a[i0, i1, ...]] with one index per axis: the element there. *)
Fixpoint nd_at (idx : list nat) (b : nd) : option T :=
  match idx, b with
  | [], Elem x => Some x
  | i :: idx', Dim xs => xs !! i ≫= nd_at idx'
  | _, _ => None
  end.

(** The position an element at [idx] of an array of shape [s] comes from
    when the axes listed in [axes] are mirrored; [d] is the axis the
    first index belongs to. *)
Fixpoint mirror (axes : list nat) (d : nat) (s idx : list nat) : list nat :=
  match s, idx with
  | n :: s', i :: idx' =>
      (if bool_decide (d ∈ axes) then n - 1 - i else i) :: mirror axes (S d) s' idx'
  | _, _ => []
  end.

(** *** [np.reshape] *)

Fixpoint flatten (b : nd) : list T :=
  match b with
  | Elem x => [x]
  | Dim xs => concat (flatten <$> xs)
  end.

Fixpoint chunks (sz n : nat) (l : list T) : list (list T) :=
  match n with
  | O => []
  | S n' => take sz l :: chunks sz n' (drop sz l)
  end.

Fixpoint unflatten (s : list nat) (l : list T) : option nd :=
  match s with
  | [] => match l with [x] => Some (Elem x) | _ => None end
  | n :: s' => Dim <$> mapM (unflatten s') (chunks (prod_shape s') n l)
  end.

(** The requested shape with its unknown entry inferred from the element
    count [sz]; [None] where numpy raises [ValueError].  numpy takes every
    negative entry, not only [-1], as the unknown dimension, and allows one
    of them. *)
Definition resolve_shape (sz : nat) (req : list Z) : option (list nat) :=
  let wild := filter (fun z => (z < 0)%Z) req in
  let known := filter (fun z => (0 <= z)%Z) req in
  let k := prod_shape (Z.to_nat <$> known) in
  match wild with
  | [] => if k =? sz then Some (Z.to_nat <$> req) else None
  | [_] =>
      if (k =? 0) || negb (sz mod k =? 0) then None
      else Some ((fun z => if (z <? 0)%Z then sz / k else Z.to_nat z) <$> req)
  | _ => None
  end.

(** [np.reshape(a, req)] *)
Definition np_reshape (a : ndarray) (req : list Z) : result ndarray :=
  s ← of_option ValueError (resolve_shape (size a) req);
  b ← of_option ValueError (unflatten s (flatten (body a)));
  Ok (NdArray s b).

(** *** Assignment into a slot, with numpy's broadcasting *)

(** Drop [k] leading axes of the assigned value; each must have length 1. *)
Fixpoint strip_unit (k : nat) (s : list nat) (b : nd) : option (list nat * nd) :=
  match k with
  | O => Some (s, b)
  | S k' =>
      match s, b with
      | 1 :: s', Dim [x] => strip_unit k' s' x
      | _, _ => None
      end
  end.

(** Stretch a value of shape [src] to shape [tgt]: missing leading axes
    and axes of length 1 are repeated, any other mismatch fails. *)
Fixpoint bcast (tgt src : list nat) (b : nd) {struct tgt} : option nd :=
  match tgt with
  | [] => match src, b with [], Elem x => Some (Elem x) | _, _ => None end
  | n :: tgt' =>
      if length src <? length tgt
      then (fun y => Dim (replicate n y)) <$> bcast tgt' src b
      else match src, b with
           | m :: src', Dim xs =>
               if m =? n then Dim <$> mapM (bcast tgt' src') xs
               else if m =? 1 then
                 match xs with
                 | [x] => (fun y => Dim (replicate n y)) <$> bcast tgt' src' x
                 | _ => None
                 end
               else None
           | _, _ => None
           end
  end.

Definition broadcast_to (tgt : list nat) (v : ndarray) : result nd :=
  of_option ValueError
    (sb ← strip_unit (length (shape v) - length tgt) (shape v) (body v);
     bcast tgt sb.1 sb.2).

(** [a[i] = v] *)
Definition set_item0 (i : nat) (v : ndarray) (a : ndarray) : result ndarray :=
  match shape a with
  | [] => Raise IndexError
  | n :: s =>
      if i <? n then
        b ← broadcast_to s v;
        Ok (NdArray (shape a) (Dim (<[i := b]> (children (body a)))))
      else Raise IndexError
  end.

(** [a[i,:,:,:]]: four indices need four axes. *)
Definition get_slab (i : nat) (a : ndarray) : result ndarray :=
  if ndim a <? 4 then Raise IndexError else index0 i a.

(** [a[i,:,:,:] = v] *)
Definition set_slab (i : nat) (v : ndarray) (a : ndarray) : result ndarray :=
  if ndim a <? 4 then Raise IndexError else set_item0 i v a.

(** [np.empty(req)]: the contents are whatever the allocator returns,
    here every element is [fill]. *)
Fixpoint full (s : list nat) (fill : T) : nd :=
  match s with
  | [] => Elem fill
  | n :: s' => Dim (replicate n (full s' fill))
  end.

Definition np_empty (req : list Z) (fill : T) : result ndarray :=
  if forallb (fun z => (0 <=? z)%Z) req
  then Ok (NdArray (Z.to_nat <$> req) (full (Z.to_nat <$> req) fill))
  else Raise ValueError.

End Arrays.
Arguments nd T : clear implicits.
Arguments ndarray T : clear implicits.

(** ** Array objects and the buffers they share

    [np.flip] returns a view: a new array object reading the same buffer
    through mirrored axes.  [.copy()] allocates a buffer of its own.  An
    in-place assignment through an object writes the buffer it reads. *)

Section Store.
Context {T : Type}.

Record arrobj : Type := ArrObj {
  buffer : positive;
  view_shape : list nat;
  (** the [np.flip] calls between the buffer and this object, latest first *)
  flips : list (list nat)
}.

(** What is seen through the flips. *)
Definition view_of (fl : list (list nat)) (b : nd T) : nd T :=
  foldr (fun axes acc => flip_at axes 0 acc) b fl.

(** What the buffer must hold for [v] to be seen through the flips. *)
Definition unview (fl : list (list nat)) (v : nd T) : nd T :=
  foldl (fun acc axes => flip_at axes 0 acc) v fl.

Global Instance nd_inhabited : Inhabited (nd T) := populate (Dim []).

(** The array an object denotes; the buffer of a reachable object is
    always allocated. *)
Definition read (h : gmap positive (nd T)) (o : arrobj) : ndarray T :=
  NdArray (view_shape o) (view_of (flips o) (h !!! buffer o)).

(** [np.flip(o, axis=axes)]: same buffer, one more mirror. *)
Definition np_flip_view (o : arrobj) (axes : list nat) : result arrobj :=
  if forallb (fun ax => ax <? length (view_shape o)) axes
  then Ok (ArrObj (buffer o) (view_shape o) (axes :: flips o))
  else Raise AxisError.

(** [o.copy()]: a new buffer holding what [o] shows. *)
Definition copy (h : gmap positive (nd T)) (o : arrobj) : arrobj * gmap positive (nd T) :=
  let l := fresh (dom h) in
  (ArrObj l (view_shape o) [], <[l := body (read h o)]> h).

(** [o[...] = v] for a value [v] of the shape of [o]. *)
Definition assign (h : gmap positive (nd T)) (o : arrobj) (v : nd T) : gmap positive (nd T) :=
  <[buffer o := unview (flips o) v]> h.

End Store.
Arguments arrobj : clear implicits.

(** ** Libraries outside the repository

    numpy's random generators, skimage's [rotate] and [random_noise],
    elasticdeform's [deform_random_grid] and the feature-table collaborator
    are taken as given.  A generator is its state; drawing from it returns
    the value and the advanced state. *)

Class Libs (T : Type) : Type := {
  (** [numpy.random.Generator] *)
  rng : Type;
  default_rng : Z -> rng;
  (** [g.integers(low, high=high)] *)
  rng_integers : Z -> Z -> rng -> Z * rng;
  (** [skimage.transform.rotate(arr, angle, preserve_range=True)] *)
  sk_rotate : ndarray T -> Z -> result (ndarray T);
  (** [skimage.util.random_noise(arr, mode='gaussian', seed=g)]: draws
      from the generator it is handed. *)
  sk_random_noise : ndarray T -> rng -> result (ndarray T) * rng;
  (** numpy's process-wide legacy random state, which elasticdeform draws
      its displacements from. *)
  np_random : Type;
  (** [elasticdeform.deform_random_grid(arr, sigma=5, order=0, axis=axes)] *)
  deform_random_grid : ndarray T -> list nat -> np_random -> result (ndarray T) * np_random;
  (** what freshly allocated, unwritten memory holds *)
  uninitialised : T;
  (** [pandas.DataFrame] of radiomic features *)
  frame : Type;
  (** [gbm_project.data_prep.retrieve_data(csv_dir, modality)[0]] *)
  retrieve_data : string -> string -> result frame;
  (** [table.loc[data_indices, 2:]] *)
  frame_loc : frame -> list string -> result frame
}.

(** ** The dataset class *)

Section Dataset.
Context {T L : Type} `{Lb : Libs T}.

(** What the augmentation randomness produced, in order; kept only to
    state properties, the program never reads it. *)
Inductive Event : Type :=
  | Angle (angle : Z)
  | Noise (out : result (ndarray T)).

(** The mutable state a method call can change: the two generators the
    instance owns, numpy's global random state, and the ghost trace. *)
Record World : Type := mkWorld {
  rng_noise : rng;
  rng_rotate : rng;
  np_global : np_random;
  trace : list Event
}.

Definition M (A : Type) : Type := World -> result A * World.

Global Instance M_ret : MRet M := fun A a w => (Ok a, w).
Global Instance M_bind : MBind M := fun A B k m w =>
  match m w with
  | (Ok a, w') => k a w'
  | (Raise e, w') => (Raise e, w')
  end.

Definition lift {A} (r : result A) : M A := fun w => (r, w).

(** A hook the caller passes ([transform], [target_transform]): any
    callable.  It may raise, and it may draw from numpy's global random
    state; it is not handed the instance. *)
Definition Hook (A : Type) : Type := A -> np_random -> result A * np_random.

(** The attributes [__init__] stores on [self] (the generators are in
    [World]). *)
Record DatasetGenerator : Type := mkDataset {
  labels : list (string * L);
  data_indices : list string;
  n_channels : Z;
  dim : list Z;
  data_dir : string;
  csv_dir : string;
  modality : list string;
  to_augment : bool;
  augment_types : list string;
  to_encode : bool;
  radiomics : option frame;
  to_sectionate : bool;
  transform : option (Hook (ndarray T));
  target_transform : option (Hook (list L))
}.

(** [if hook: x = hook(x)] *)
Definition call_hook {A} (hook : option (Hook A)) (x : A) : M A :=
  fun w =>
    match hook with
    | None => (Ok x, w)
    | Some f =>
        let (r, g) := f x (np_global w) in
        (r, mkWorld (rng_noise w) (rng_rotate w) g (trace w))
    end.

(** The files under the data directory: path to array. *)
Definition np_load (fs : gmap string (ndarray T)) (path : string) : result (ndarray T) :=
  of_option FileNotFoundError (fs !! path).

(** *** Augmentor *)

Definition flip_axes (self : DatasetGenerator) : list nat :=
  if (n_channels self =? 1)%Z then [0; 1; 2] else [1; 2; 3].

(** [apply_flip]: [np.flip(arr, axis=...).copy()], as a value. *)
Definition apply_flip (self : DatasetGenerator) (arr : ndarray T) : result (ndarray T) :=
  np_flip arr (flip_axes self).

(** [apply_flip] on array objects: the view, then its copy. *)
Definition apply_flip_obj (self : DatasetGenerator) (h : gmap positive (nd T)) (o : arrobj)
    : result (arrobj * gmap positive (nd T)) :=
  flipped ← np_flip_view o (flip_axes self);
  Ok (copy h flipped).

(** [arr[i,:,:,:] = rotate(arr[i,:,:,:], angle, preserve_range=True)]
    for each [i] of [idxs] in turn. *)
Fixpoint rotate_slabs (angle : Z) (idxs : list nat) (arr : ndarray T) : result (ndarray T) :=
  match idxs with
  | [] => Ok arr
  | i :: rest =>
      slab ← get_slab i arr;
      rotated ← sk_rotate slab angle;
      arr' ← set_slab i rotated arr;
      rotate_slabs angle rest arr'
  end.

Definition apply_rotation (self : DatasetGenerator) (arr : ndarray T) : M (ndarray T) :=
  fun w =>
    let (angle, g) := rng_integers (-180) 180 (rng_rotate w) in
    let w' := mkWorld (rng_noise w) g (np_global w) (trace w ++ [Angle angle]) in
    let r :=
      if (n_channels self =? 1)%Z then sk_rotate arr angle
      else if (n_channels self =? 4)%Z then rotate_slabs angle [0; 1; 2; 3] arr
      else if (n_channels self =? 5)%Z then rotate_slabs angle [0; 1; 2; 3; 4] arr
      else rotate_slabs angle [0; 1; 2] arr in
    (r, w').

Definition apply_noise (self : DatasetGenerator) (arr : ndarray T) : M (ndarray T) :=
  fun w =>
    let (r, g) := sk_random_noise arr (rng_noise w) in
    (r, mkWorld g (rng_rotate w) (np_global w) (trace w ++ [Noise r])).

Definition apply_deformation (self : DatasetGenerator) (arr : ndarray T) : M (ndarray T) :=
  fun w =>
    let axes := if (n_channels self =? 1)%Z then [0; 1; 2] else [1; 2; 3] in
    let (r, g) := deform_random_grid arr axes (np_global w) in
    (r, mkWorld (rng_noise w) (rng_rotate w) g (trace w)).

(** [aug in self.augment_types]: membership in the tuple of kinds. *)
Definition routed (self : DatasetGenerator) (aug : string) : bool :=
  bool_decide (aug ∈ augment_types self).

(** The block both loaders end with:
    [if aug in self.augment_types: if 'flip' in aug: ...]. *)
Definition augment (self : DatasetGenerator) (aug : string) (arr : ndarray T) : M (ndarray T) :=
  if routed self aug then
    arr ← (if contains aug "flip" then lift (apply_flip self arr) else mret arr);
    arr ← (if contains aug "rotate" then apply_rotation self arr else mret arr);
    arr ← (if contains aug "noise" then apply_noise self arr else mret arr);
    (if contains aug "deform" then apply_deformation self arr else mret arr)
  else mret arr.

(** *** Array loader *)

(** The file name both loaders build for identifier [pat_idx] and
    modality [mod]. *)
Definition file_name (self : DatasetGenerator) (pat_idx mod_ : string) : string :=
  let segs := split_on "_"%char pat_idx in
  if to_augment self && (length segs =? 3)
  then join "_" (take 2 segs) +:+ "_" +:+ mod_ +:+ ".npy"
  else pat_idx +:+ "_" +:+ mod_ +:+ ".npy".

Definition select_channels (self : DatasetGenerator) (in_arr : ndarray T) : result (ndarray T) :=
  if (1 <? n_channels self)%Z then
    if (n_channels self =? 5)%Z then Ok in_arr
    else if (n_channels self =? 4)%Z then take0 [0; 1; 2; 4] in_arr
    else slice0 3 in_arr
  else index0 3 in_arr.

(** [get_pat_array] up to and including the augmentation block. *)
Definition load_single (fs : gmap string (ndarray T)) (self : DatasetGenerator)
    (pat_idx : string) : M (ndarray T) :=
  mod0 ← lift (of_option IndexError (modality self !! 0));
  in_arr ← lift (np_load fs (path_join (data_dir self) (file_name self pat_idx mod0)));
  in_arr ← lift (select_channels self in_arr);
  augment self (last_segment (split_on "_"%char pat_idx)) in_arr.

Definition get_pat_array (fs : gmap string (ndarray T)) (self : DatasetGenerator)
    (pat_idx : string) : M (ndarray T) :=
  in_arr ← load_single fs self pat_idx;
  if to_sectionate self then
    if (n_channels self =? 1)%Z then lift (np_reshape in_arr (dim self))
    else lift (np_reshape in_arr (dim self ++ [n_channels self]))
  else mret in_arr.

(** The loop of [get_pat_mod_array]: [imod] counts the modalities done. *)
Fixpoint stack_modalities (fs : gmap string (ndarray T)) (self : DatasetGenerator)
    (pat_idx : string) (imod : nat) (mods : list string) (mod_arr : ndarray T)
    : result (ndarray T) :=
  match mods with
  | [] => Ok mod_arr
  | mod_ :: rest =>
      in_arr ← np_load fs (path_join (data_dir self) (file_name self pat_idx mod_));
      whole ← index0 3 in_arr;
      mod_arr' ← set_item0 imod whole mod_arr;
      stack_modalities fs self pat_idx (S imod) rest mod_arr'
  end.

Definition get_pat_mod_array (fs : gmap string (ndarray T)) (self : DatasetGenerator)
    (pat_idx : string) : M (ndarray T) :=
  mod_arr ← lift (np_empty (Z.of_nat (length (modality self)) :: dim self) uninitialised);
  mod_arr ← lift (stack_modalities fs self pat_idx 0 (modality self) mod_arr);
  augment self (last_segment (split_on "_"%char pat_idx)) mod_arr.

(** *** Access entry point *)

(** [values[idx]] on a one-dimensional array: a negative index counts
    from the end.  numpy converts the index to its 64-bit index type, and
    an integer that does not fit raises [OverflowError] instead of
    [IndexError]; an array holds fewer than 2^63 elements, so testing the
    range of the array first changes nothing. *)
Definition index_values {A} (l : list A) (idx : Z) : result A :=
  let n := Z.of_nat (length l) in
  if (0 <=? idx)%Z && (idx <? n)%Z then of_option IndexError (l !! Z.to_nat idx)
  else if (- n <=? idx)%Z && (idx <? 0)%Z then of_option IndexError (l !! Z.to_nat (n + idx))
  else if (idx <? - 2 ^ 63)%Z || (2 ^ 63 <=? idx)%Z then Raise OverflowError
  else Raise IndexError.

(** [torch.from_numpy(in_arr)]: torch takes an ndarray and rejects a
    numpy scalar with [TypeError].  Indexing a one-axis array gives a
    scalar ([in_arr[3]] of a one-axis file), while [np.reshape] always
    gives an array: a value without axes stands for a scalar unless it has
    been reshaped. *)
Definition from_numpy (reshaped : bool) (a : ndarray T) : result (ndarray T) :=
  if (ndim a =? 0) && negb reshaped then Raise TypeError else Ok a.

(** [table.loc[key]]: the values of every row whose index is [key]. *)
Definition loc (table : list (string * L)) (key : string) : list L :=
  snd <$> filter (fun row => row.1 = key) table.

Definition __len__ (self : DatasetGenerator) : nat := length (labels self).

Definition __getitem__ (fs : gmap string (ndarray T)) (self : DatasetGenerator) (idx : Z)
    : M (ndarray T * list L) :=
  pat_idx ← lift (index_values (fst <$> labels self) idx);
  let label := loc (labels self) pat_idx in
  in_arr ← (if length (modality self) <? 2 then get_pat_array fs self pat_idx
            else get_pat_mod_array fs self pat_idx);
  in_arr ← lift (if to_sectionate self then np_reshape in_arr (dim self) else Ok in_arr);
  in_arr ← call_hook (transform self) in_arr;
  label ← call_hook (target_transform self) label;
  let in_arr := if (n_channels self =? 1)%Z then expand_dims0 in_arr else in_arr in
  tensor ← lift (from_numpy (to_sectionate self) in_arr);
  mret (tensor, label).

(** A sequence of item accesses on one instance; an access that raises
    is recorded and the next one is made. *)
Fixpoint replay (fs : gmap string (ndarray T)) (self : DatasetGenerator) (idxs : list Z)
    (w : World) : list (result (ndarray T * list L)) * World :=
  match idxs with
  | [] => ([], w)
  | idx :: rest =>
      let (r, w') := __getitem__ fs self idx w in
      let (rs, w'') := replay fs self rest w' in
      (r :: rs, w'')
  end.

(** *** Construction *)

(** The arguments of [__init__]. *)
Record Args : Type := mkArgs {
  arg_data_indices : list string;
  arg_labels : list (string * L);
  arg_data_dir : string;
  arg_csv_dir : string;
  arg_modality : list string;
  arg_dim : list Z;
  arg_n_channels : Z;
  arg_to_augment : bool;
  arg_to_encode : bool;
  arg_to_sectionate : bool;
  arg_augment_types : list string;
  arg_seed : Z;
  arg_transform : option (Hook (ndarray T));
  arg_target_transform : option (Hook (list L))
}.

(** The defaults of the signature. *)
Definition default_args (data_indices : list string) (labels : list (string * L)) : Args :=
  {| arg_data_indices := data_indices;
     arg_labels := labels;
     arg_data_dir := "../../data/upenn_GBM/images/NIfTI-files/";
     arg_csv_dir := "../../data/upenn_GBM/csvs/radiomic_features_CaPTk/";
     arg_modality := ["FLAIR"];
     arg_dim := [70; 86; 86]%Z;
     arg_n_channels := 3;
     arg_to_augment := false;
     arg_to_encode := false;
     arg_to_sectionate := false;
     arg_augment_types := ["noise"; "flip"; "rotate"; "deform"];
     arg_seed := 42;
     arg_transform := None;
     arg_target_transform := None |}.

(** The end-to-end scenario: one labelled identifier, augmentation
    enabled with kinds [('flip',)], channel count 1, the rest default. *)
Definition flip_scenario (id : string) (label : L) : Args :=
  {| arg_data_indices := [id];
     arg_labels := [(id, label)];
     arg_data_dir := "../../data/upenn_GBM/images/NIfTI-files/";
     arg_csv_dir := "../../data/upenn_GBM/csvs/radiomic_features_CaPTk/";
     arg_modality := ["FLAIR"];
     arg_dim := [70; 86; 86]%Z;
     arg_n_channels := 1;
     arg_to_augment := true;
     arg_to_encode := false;
     arg_to_sectionate := false;
     arg_augment_types := ["flip"];
     arg_seed := 42;
     arg_transform := None;
     arg_target_transform := None |}.

(** The module imports os, numpy, pandas, torch, random_noise, rotate,
    elasticdeform and retrieve_data; the name [StandardScaler] is bound
    nowhere, so evaluating it raises and there is no value to go on with. *)
Definition StandardScaler : result Empty_set := Raise NameError.

(** The [if self.to_encode:] block. *)
Definition load_radiomics (csv_dir : string) (modality : list string)
    (data_indices : list string) : result (option frame) :=
  mod0 ← of_option IndexError (modality !! 0);
  let modality_tmp := if String.eqb mod0 "mod" then "FLAIR" else mod0 in
  temp_radiomics ← retrieve_data csv_dir modality_tmp;
  radiomics ← frame_loc temp_radiomics data_indices;
  scaler ← StandardScaler;
  match scaler : Empty_set with end.

(** [d[k] = v] on a dict, which keeps insertion order: a key already
    present keeps its place. *)
Fixpoint dict_set {V} (k : string) (v : V) (d : list (string * V)) : list (string * V) :=
  match d with
  | [] => [(k, v)]
  | (k', v') :: d' =>
      if String.eqb k k' then (k, v) :: d' else (k', v') :: dict_set k v d'
  end.

(** [list(d.values())] *)
Definition dict_values {V} (d : list (string * V)) : list V := snd <$> d.

(** [t = labels.copy(deep=True); t.index = t.index + '_' + aug] *)
Definition suffixed (aug : string) (table : list (string * L)) : list (string * L) :=
  (fun row => (row.1 +:+ "_" +:+ aug, row.2)) <$> table.

(** The [for aug in self.augment_types:] loop: the dict [augment_idx]
    and the growing [data_indices]. *)
Fixpoint expand_loop (labels : list (string * L)) (augs : list string)
    (augment_idx : list (string * list (string * L))) (data_indices : list string)
    : list (string * list (string * L)) * list string :=
  match augs with
  | [] => (augment_idx, data_indices)
  | aug :: rest =>
      let copy := suffixed aug labels in
      expand_loop labels rest (dict_set aug copy augment_idx) (data_indices ++ (fst <$> copy))
  end.

(** [np.random.default_rng(seed)] for an integer seed: a negative one is
    rejected with [ValueError]. *)
Definition np_default_rng (seed : Z) : result rng :=
  if (seed <? 0)%Z then Raise ValueError else Ok (default_rng seed).

(** [__init__]; [g] is numpy's global random state at that moment. *)
Definition __init__ (a : Args) (g : np_random) : result (DatasetGenerator * World) :=
  let n_channels :=
    if 1 <? length (arg_modality a) then Z.of_nat (length (arg_modality a))
    else arg_n_channels a in
  gen_noise ← np_default_rng (arg_seed a);
  gen_rotate ← np_default_rng (arg_seed a);
  let w := mkWorld gen_noise gen_rotate g [] in
  radiomics ← (if arg_to_encode a
               then load_radiomics (arg_csv_dir a) (arg_modality a) (arg_data_indices a)
               else Ok None);
  let '(labels, data_indices) :=
    if arg_to_augment a then
      let '(augment_idx, data_indices) :=
        expand_loop (arg_labels a) (arg_augment_types a) [] (arg_data_indices a) in
      (arg_labels a ++ concat (dict_values augment_idx), data_indices)
    else (arg_labels a, arg_data_indices a) in
  Ok ({| labels := labels;
         data_indices := data_indices;
         n_channels := n_channels;
         dim := arg_dim a;
         data_dir := arg_data_dir a;
         csv_dir := arg_csv_dir a;
         modality := arg_modality a;
         to_augment := arg_to_augment a;
         augment_types := arg_augment_types a;
         to_encode := arg_to_encode a;
         radiomics := radiomics;
         to_sectionate := arg_to_sectionate a;
         transform := arg_transform a;
         target_transform := arg_target_transform a |}, w).

(** *** Feature encoder *)

(** [arr.append]: a numpy array has no such attribute. *)
Definition ndarray_append (arr : ndarray T) : result Empty_set := Raise AttributeError.

(** The rows and columns [encode] assigns into:
    [(43-7):(41+8)] and [(41-4):(41+5)]. *)
Definition encode_rows : nat * nat := (43 - 7, 41 + 8).
Definition encode_cols : nat * nat := (41 - 4, 41 + 5).
(** The shape each feature block is reshaped to. *)
Definition encode_block : nat * nat := (15, 9).

(** [encode]: its first statement raises, nothing after it runs. *)
Definition encode (self : DatasetGenerator) (arr : ndarray T) (idx : string)
    : result (ndarray T) :=
  nothing ← ndarray_append arr;
  match nothing : Empty_set with end.

(** *** The routing rule, stated apart from the loaders *)

(** The four transformations, in the order the loaders try them. *)
Definition transformations (self : DatasetGenerator)
    : list (string * (ndarray T -> M (ndarray T))) :=
  [ ("flip", fun arr => lift (apply_flip self arr));
    ("rotate", apply_rotation self);
    ("noise", apply_noise self);
    ("deform", apply_deformation self) ].

(** Those whose name occurs in the suffix segment. *)
Definition applicable (self : DatasetGenerator) (aug : string)
    : list (string * (ndarray T -> M (ndarray T))) :=
  List.filter (fun step => contains aug step.1) (transformations self).

(** Perform the steps one after the other. *)
Fixpoint run_steps (steps : list (string * (ndarray T -> M (ndarray T))))
    (arr : ndarray T) : M (ndarray T) :=
  match steps with
  | [] => mret arr
  | step :: rest => arr' ← step.2 arr; run_steps rest arr'
  end.

(** Routing as the specification words it, a substring match: the
    suffix segment occurs within a configured kind name. *)
Definition routed_by_substring (self : DatasetGenerator) (aug : string) : bool :=
  existsb (fun kind => contains kind aug) (augment_types self).

(** The other reading of a substring match: a configured kind name
    occurs within the suffix segment. *)
Definition routed_by_superstring (self : DatasetGenerator) (aug : string) : bool :=
  existsb (fun kind => contains aug kind) (augment_types self).

(** The instance with its encoding attributes replaced. *)
Definition with_encoding (flag : bool) (table : option frame) (self : DatasetGenerator)
    : DatasetGenerator :=
  {| labels := labels self;
     data_indices := data_indices self;
     n_channels := n_channels self;
     dim := dim self;
     data_dir := data_dir self;
     csv_dir := csv_dir self;
     modality := modality self;
     to_augment := to_augment self;
     augment_types := augment_types self;
     to_encode := flag;
     radiomics := table;
     to_sectionate := to_sectionate self;
     transform := transform self;
     target_transform := target_transform self |}.

(** *** Observing the augmentation randomness *)

(** The rotation angles drawn, oldest first. *)
Definition angles (tr : list Event) : list Z :=
  omap (fun ev => match ev with Angle z => Some z | Noise _ => None end) tr.

(** The outcomes of the noise calls, oldest first. *)
Definition noise_outcomes (tr : list Event) : list (result (ndarray T)) :=
  omap (fun ev => match ev with Noise out => Some out | Angle _ => None end) tr.

(** Two worlds that differ at most in numpy's global random state. *)
Definition agree (w1 w2 : World) : Prop :=
  rng_noise w1 = rng_noise w2 /\ rng_rotate w1 = rng_rotate w2 /\ trace w1 = trace w2.

(** From agreeing worlds: the same result, and agreeing worlds again. *)
Definition det {A} (m : M A) : Prop :=
  forall w1 w2, agree w1 w2 -> (m w1).1 = (m w2).1 /\ agree (m w1).2 (m w2).2.

(** From agreeing worlds: agreeing worlds again, whatever the results. *)
Definition quiet {A} (m : M A) : Prop :=
  forall w1 w2, agree w1 w2 -> agree (m w1).2 (m w2).2.

(** The world is left as it was. *)
Definition still {A} (m : M A) : Prop := forall w, (m w).2 = w.

(** At most numpy's global random state is changed. *)
Definition calm {A} (m : M A) : Prop := forall w, agree (m w).2 w.

(** *** What is assumed of the libraries where a property needs it *)

(** skimage's noise and elasticdeform's deformation return an array of
    the shape they are given. *)
Definition noise_keeps_shape : Prop :=
  forall x gen r gen', sk_random_noise x gen = (Ok r, gen') -> shape r = shape x.

Definition deform_keeps_shape : Prop :=
  forall x axes gl r gl', deform_random_grid x axes gl = (Ok r, gl') -> shape r = shape x.

End Dataset.

(** ** Further notions used in the properties *)

(** The character [c] does not occur in [s]. *)
Fixpoint free_of (c : Ascii.ascii) (s : string) : bool :=
  match s with
  | EmptyString => true
  | String a s' => negb (Ascii.eqb a c) && free_of c s'
  end.

(** The keys of a dict after the given keys were set one after the
    other: each key once, at the place of its first setting. *)
Fixpoint first_occurrences (seen keys : list string) : list string :=
  match keys with
  | [] => seen
  | k :: rest =>
      first_occurrences (if bool_decide (k ∈ seen) then seen else seen ++ [k]) rest
  end.

Section Notions.
Context {T L : Type} `{Lb : Libs T}.

(** The identifier the constructor builds for a base identifier and a
    kind: [index + '_' + aug]. *)
Definition virtual_id (id kind : string) : string := id +:+ "_" +:+ kind.

(** A computation that gives one and the same result from every world and
    leaves the world as it was. *)
Definition constant {A} (m : M A) : Prop := exists r, forall w : World, m w = (r, w).

(** The suffix segment asks for no transformation that draws random
    numbers. *)
Definition draws_nothing (aug : string) : bool :=
  negb (contains aug "rotate") && negb (contains aug "noise")
  && negb (contains aug "deform").

(** The leading slices [apply_rotation] rotates when there is a channel
    axis. *)
Definition rotated_slabs (self : @DatasetGenerator T L Lb) : list nat :=
  if (n_channels self =? 4)%Z then [0; 1; 2; 3]
  else if (n_channels self =? 5)%Z then [0; 1; 2; 3; 4]
  else [0; 1; 2].

(** A computation that leaves one component of the world as it was. *)
Definition preserves {A X} (part : World -> X) (m : M A) : Prop :=
  forall w, part (m w).2 = part w.

End Notions.

(** ** A small concrete setting, used in the examples

    Integer elements, generators that are counters, and library functions
    that shift every element so that their effect is visible. *)

Fixpoint nd_map (f : Z -> Z) (b : nd Z) : nd Z :=
  match b with
  | Elem x => Elem (f x)
  | Dim xs => Dim (nd_map f <$> xs)
  end.

Definition shift (k : Z) (a : ndarray Z) : ndarray Z :=
  NdArray (shape a) (nd_map (Z.add k) (body a)).

#[export] Instance ex_libs : Libs Z := {|
  rng := Z;
  default_rng := fun seed => seed;
  rng_integers := fun lo hi gen => ((lo + gen mod (hi - lo))%Z, (5 * gen + 3)%Z);
  sk_rotate := fun a angle => Ok (shift angle a);
  sk_random_noise := fun a gen => (Ok (shift gen a), (gen + 1)%Z);
  np_random := Z;
  deform_random_grid := fun a axes gl => (Ok (shift gl a), (gl + 1)%Z);
  uninitialised := 0%Z;
  frame := unit;
  retrieve_data := fun _ _ => Ok ();
  frame_loc := fun table _ => Ok table
|}.

(** [np.arange(size).reshape(s)] *)
Definition arange (s : list nat) : ndarray Z :=
  NdArray s (default (Dim []) (unflatten s (Z.of_nat <$> seq 0 (prod_shape s)))).

(** A volume file: five leading slices of 2 x 2 x 2 voxels. *)
Definition ex_volume : ndarray Z := arange [5; 2; 2; 2].

Definition ex_fs : gmap string (ndarray Z) :=
  {[ "data/P001_FLAIR.npy" := ex_volume;
     "data/P_001_FLAIR.npy" := ex_volume;
     "data/X_rot_FLAIR.npy" := ex_volume;
     "data/E_0_FLAIR.npy" := arange [4; 0; 2; 2];
     "../../data/upenn_GBM/images/NIfTI-files/P001_FLAIR.npy" := ex_volume;
     "../../data/upenn_GBM/images/NIfTI-files/P_001_FLAIR.npy" := ex_volume;
     "data/X_xflip_FLAIR.npy" := ex_volume;
     "data/P_001_T1.npy" := shift 100 ex_volume;
     "data/P_001_T2.npy" := shift 200 ex_volume ]}.

(** Arguments for one labelled identifier. *)
Definition ex_config (id : string) (mods : list string) (dims : list Z) (channels : Z)
    (augmenting : bool) (kinds : list string) (sectionating : bool) : @Args Z nat ex_libs :=
  {| arg_data_indices := [id];
     arg_labels := [(id, 7)];
     arg_data_dir := "data";
     arg_csv_dir := "csv";
     arg_modality := mods;
     arg_dim := dims;
     arg_n_channels := channels;
     arg_to_augment := augmenting;
     arg_to_encode := false;
     arg_to_sectionate := sectionating;
     arg_augment_types := kinds;
     arg_seed := 42;
     arg_transform := None;
     arg_target_transform := None |}.

(** One modality, augmentation enabled, two-voxel spatial dimensions. *)
Definition ex_args (id : string) (kinds : list string) (channels : Z) : @Args Z nat ex_libs :=
  ex_config id ["FLAIR"] [2; 2; 2]%Z channels true kinds false.

(** The instance [__init__] builds from given arguments, generators
    aside; any instance when construction raises. *)
Definition constructed (a : @Args Z nat ex_libs) : @DatasetGenerator Z nat ex_libs :=
  match __init__ a 0%Z with
  | Ok (self, _) => self
  | Raise _ =>
      mkDataset [] [] 0 [] "" "" [] false [] false None false None None
  end.

Definition constructed_world (a : @Args Z nat ex_libs) (gl : Z) : @World Z ex_libs :=
  match __init__ a gl with
  | Ok (_, w) => w
  | Raise _ => mkWorld 0%Z 0%Z gl []
  end.

(** Arguments with encoding enabled and the placeholder modality. *)
Definition ex_encoding_args : @Args Z nat ex_libs :=
  {| arg_data_indices := ["P_001"];
     arg_labels := [("P_001", 7)];
     arg_data_dir := "data";
     arg_csv_dir := "csv";
     arg_modality := ["mod"];
     arg_dim := [2; 2; 2]%Z;
     arg_n_channels := 3;
     arg_to_augment := false;
     arg_to_encode := true;
     arg_to_sectionate := false;
     arg_augment_types := [];
     arg_seed := 42;
     arg_transform := None;
     arg_target_transform := None |}.

(** A buffer holding a 2 x 2 x 2 array, and an array object on it. *)
Definition ex_heap : gmap positive (nd Z) := {[ 1%positive := body (arange [2; 2; 2]) ]}.
Definition ex_obj : arrobj := ArrObj 1 [2; 2; 2] [].

(** Three modalities stacked; kinds that rotate, add noise and deform. *)
Definition ex_stack_args : @Args Z nat ex_libs :=
  ex_config "P_001" ["FLAIR"; "T1"; "T2"] [2; 2; 2]%Z 1 true
    ["fliprotate"; "noise"; "deform"] false.

(** Further concrete inputs: the files above and one whose identifier
    ends in a kind name, an instance without augmentation for it, an
    instance on two modalities, and one with a channel count of seven. *)
Definition ex_fs_more : gmap string (ndarray Z) :=
  <["data/X_flip_FLAIR.npy" := ex_volume]> ex_fs.

Definition ex_plain_args : @Args Z nat ex_libs :=
  ex_config "X_flip" ["FLAIR"] [2; 2; 2]%Z 1 false ["noise"; "flip"] false.

Definition ex_pair_args : @Args Z nat ex_libs :=
  ex_config "P_001" ["FLAIR"; "T1"] [2; 2; 2]%Z 3 true ["rotate"] false.

Definition ex_seven_args : @Args Z nat ex_libs :=
  ex_config "P_001" ["FLAIR"] [2; 2; 2]%Z 7 false [] false.

Definition ex_section_args : @Args Z nat ex_libs :=
  ex_config "P_001" ["FLAIR"] [-2; 4]%Z 1 false [] true.

(** A file of one axis, and an instance with channel count 0 for it. *)
Definition ex_fs_line : gmap string (ndarray Z) :=
  <["data/S_1_FLAIR.npy" := arange [5]]> ex_fs.

Definition ex_line_args : @Args Z nat ex_libs :=
  ex_config "S_1" ["FLAIR"] [2; 2; 2]%Z 0 false [] false.

(** * Properties *)

(** ** Results and arrays *)

Lemma result_bind_Ok {A B} (r : result A) (k : A -> result B) b :
  r ≫= k = Ok b -> exists a, r = Ok a /\ k a = Ok b.
Proof. destruct r as [a|e]; simpl; [eauto | discriminate]. Qed.

Section ArrayFacts.
Context {T : Type}.
Implicit Types (b : nd T) (a : ndarray T) (s : list nat).

(** Induction through the nested list. *)
Lemma nd_nested_ind (P : nd T -> Prop) :
  (forall x, P (Elem x)) ->
  (forall xs, Forall P xs -> P (Dim xs)) ->
  forall b, P b.
Proof.
  intros HE HD.
  fix IH 1. intros [x|xs]; [apply HE|].
  apply HD. induction xs as [|c xs IHxs]; constructor; [apply IH | exact IHxs].
Qed.

Lemma flip_at_involutive axes d b : flip_at axes d (flip_at axes d b) = b.
Proof.
  revert d. induction b as [x|xs IH] using nd_nested_ind; intros d; simpl; [done|].
  f_equal.
  assert (Hxs : flip_at axes (S d) <$> (flip_at axes (S d) <$> xs) = xs).
  { rewrite <- list_fmap_compose. rewrite <- (list_fmap_id xs) at 2.
    apply Forall_fmap_ext. eapply Forall_impl; [exact IH|]. intros c Hc. apply Hc. }
  destruct (bool_decide (d ∈ axes)); [|exact Hxs].
  by rewrite fmap_reverse, reverse_involutive.
Qed.

Lemma forallb_reverse {A} (f : A -> bool) (l : list A) :
  forallb f (reverse l) = forallb f l.
Proof.
  apply eq_bool_prop_intro. rewrite !forallb_True. apply Forall_reverse.
Qed.

Lemma forallb_fmap {A B} (f : B -> bool) (g : A -> B) (l : list A) :
  forallb f (g <$> l) = forallb (fun x => f (g x)) l.
Proof. induction l as [|x l IH]; csimpl; [done|]. by rewrite IH. Qed.

Lemma forallb_ext_Forall {A} (f g : A -> bool) (l : list A) :
  Forall (fun x => f x = g x) l -> forallb f l = forallb g l.
Proof. induction 1 as [|x l Hx _ IH]; simpl; [done|]. by rewrite Hx, IH. Qed.

Lemma flip_at_has_shape axes s : forall d b,
  has_shape s (flip_at axes d b) = has_shape s b.
Proof.
  induction s as [|n s IH]; intros d [x|xs]; simpl; try done.
  assert (Hall : forallb (has_shape s) (flip_at axes (S d) <$> xs) = forallb (has_shape s) xs).
  { rewrite forallb_fmap. apply forallb_ext_Forall, Forall_forall. intros c _. apply IH. }
  destruct (bool_decide (d ∈ axes)).
  - by rewrite length_reverse, length_fmap, forallb_reverse, Hall.
  - by rewrite length_fmap, Hall.
Qed.

Lemma has_shape_leading n s (xs : list (nd T)) :
  has_shape (n :: s) (Dim xs) = true <->
  length xs = n /\ Forall (fun c => has_shape s c = true) xs.
Proof.
  simpl. rewrite andb_true_iff, Nat.eqb_eq, forallb_forall, Forall_forall.
  split; intros [Hn Hall]; (split; [done|]); intros c Hc; apply Hall;
    by apply list_elem_of_In.
Qed.

(** What [a[i]] is: the [i]-th child of the leading axis, with the
    remaining shape. *)
Lemma index0_inv i a (x : ndarray T) :
  index0 i a = Ok x ->
  exists n s c, shape a = n :: s /\ i < n /\ children (body a) !! i = Some c /\
    x = NdArray s c.
Proof.
  unfold index0. destruct (shape a) as [|n s]; [discriminate|].
  destruct (i <? n) eqn:Hi; [|discriminate]. apply Nat.ltb_lt in Hi.
  destruct (children (body a) !! i) as [c|]; [|discriminate].
  simpl. intros [= <-]. by exists n, s, c.
Qed.

Lemma index0_lookup i a n s c :
  shape a = n :: s -> i < n -> children (body a) !! i = Some c ->
  index0 i a = Ok (NdArray s c).
Proof.
  intros Hs Hi Hc. unfold index0. rewrite Hs, (proj2 (Nat.ltb_lt _ _) Hi), Hc. done.
Qed.

Lemma index0_wf i (vol whole : ndarray T) :
  wf vol = true -> index0 i vol = Ok whole -> wf whole = true.
Proof.
  unfold wf, index0. destruct vol as [[|n s] [x|xs]]; simpl; try discriminate.
  intros Hv. destruct (i <? n); [|discriminate].
  destruct (xs !! i) as [c|] eqn:Hc; [|discriminate]. simpl. intros [= <-]. simpl.
  apply andb_true_iff in Hv as [_ Hall]. rewrite forallb_forall in Hall.
  apply Hall. apply list_elem_of_In. by apply list_elem_of_lookup_2 in Hc.
Qed.

(** Within the bounds of its shape, a well-formed array has an element at
    every position. *)
Lemma nd_at_in_bounds s : forall b idx,
  has_shape s b = true -> Forall2 lt idx s -> is_Some (nd_at idx b).
Proof.
  induction s as [|n s IH]; intros [x|xs] idx Hb Hidx; try done.
  - apply Forall2_nil_inv_r in Hidx as ->. by eexists.
  - apply Forall2_cons_inv_r in Hidx as (i & idx' & Hi & Hidx' & ->).
    apply has_shape_leading in Hb as [Hlen Hall].
    destruct (xs !! i) as [c|] eqn:Hc; [|apply lookup_ge_None in Hc; lia].
    simpl. rewrite Hc. simpl. apply IH; [|done].
    rewrite Forall_forall in Hall. apply Hall. by apply list_elem_of_lookup_2 in Hc.
Qed.

(** The element at a position of the flipped array is the element at the
    mirrored position of the array: along every axis that is flipped,
    index i reads index n - 1 - i. *)
Lemma nd_at_flip_at axes s : forall d b idx,
  has_shape s b = true -> Forall2 lt idx s ->
  nd_at idx (flip_at axes d b) = nd_at (mirror axes d s idx) b.
Proof.
  induction s as [|n s IH]; intros d [x|xs] idx Hb Hidx; try done.
  - by apply Forall2_nil_inv_r in Hidx as ->.
  - apply Forall2_cons_inv_r in Hidx as (i & idx' & Hi & Hidx' & ->).
    apply has_shape_leading in Hb as [Hlen Hall].
    assert (Hchild : forall j, j < n ->
      (flip_at axes (S d) <$> xs) !! j ≫= nd_at idx'
        = xs !! j ≫= nd_at (mirror axes (S d) s idx')).
    { intros j Hj. rewrite list_lookup_fmap.
      destruct (xs !! j) as [c|] eqn:Hc; [|apply lookup_ge_None in Hc; lia].
      simpl. apply IH; [|done].
      rewrite Forall_forall in Hall. apply Hall. by apply list_elem_of_lookup_2 in Hc. }
    simpl. destruct (bool_decide (d ∈ axes)).
    + rewrite reverse_lookup by (rewrite length_fmap; lia).
      rewrite length_fmap, Hlen.
      replace (n - S i) with (n - 1 - i) by lia. apply Hchild. lia.
    + by apply Hchild.
Qed.

Lemma mirror_spatial (d0 d1 d2 i j k : nat) :
  mirror [0; 1; 2] 0 [d0; d1; d2] [i; j; k] = [d0 - 1 - i; d1 - 1 - j; d2 - 1 - k].
Proof.
  reflexivity.
Qed.

Lemma reverse_concat {A} (ls : list (list A)) :
  reverse (concat ls) = concat (reverse (reverse <$> ls)).
Proof.
  induction ls as [|l ls IH]; csimpl; [done|].
  by rewrite reverse_app, reverse_cons, concat_app, IH; simpl; rewrite app_nil_r.
Qed.

(** Mirroring every axis of an array reverses its row-major sequence of
    elements. *)
Lemma flatten_flip_all axes s : forall d b,
  has_shape s b = true ->
  (forall k, k < length s -> d + k ∈ axes) ->
  flatten (flip_at axes d b) = reverse (flatten b).
Proof.
  induction s as [|n s IH]; intros d [x|xs] Hb Hax; try done.
  apply has_shape_leading in Hb as [Hlen Hall].
  assert (Hd : bool_decide (d ∈ axes) = true).
  { apply bool_decide_eq_true_2. rewrite <- (Nat.add_0_r d). apply Hax. simpl. lia. }
  simpl. rewrite Hd, reverse_concat, fmap_reverse. do 2 f_equal.
  rewrite <- !list_fmap_compose. apply Forall_fmap_ext.
  eapply Forall_impl; [exact Hall|]. intros c Hc. simpl.
  apply IH; [done|]. intros k Hk.
  replace (S d + k) with (d + S k) by lia. apply Hax. simpl. lia.
Qed.

End ArrayFacts.

(** ** Flip *)

Section FlipFacts.
Context {T L : Type} `{Lb : Libs T}.
Implicit Types (self : @DatasetGenerator T L Lb) (a : ndarray T) (o : arrobj).
Implicit Types (h : gmap positive (nd T)).

Lemma np_flip_involutive a a' axes :
  np_flip a axes = Ok a' -> np_flip a' axes = Ok a.
Proof.
  unfold np_flip, ndim. destruct (forallb _ axes) eqn:Hax; [|discriminate].
  intros [= <-]. simpl. rewrite Hax, flip_at_involutive. by destruct a.
Qed.

Lemma np_flip_wf a a' axes : np_flip a axes = Ok a' -> wf a' = wf a.
Proof.
  unfold np_flip. destruct (forallb _ axes); [|discriminate].
  intros [= <-]. apply flip_at_has_shape.
Qed.

Lemma flip_axes_bound self n :
  (if (n_channels self =? 1)%Z then 3 else 4) <= n ->
  forallb (fun ax => ax <? n) (flip_axes self) = true.
Proof.
  unfold flip_axes. destruct (n_channels self =? 1)%Z; intros Hn; simpl;
    repeat (rewrite (proj2 (Nat.ltb_lt _ _)) by lia); done.
Qed.

(** The axes mirrored are the last three of an array of the rank the
    loaders hand over (three without a channel axis, four with one). *)
Lemma flip_axes_last_three self n :
  n = (if (n_channels self =? 1)%Z then 3 else 4) ->
  flip_axes self = seq (n - 3) 3.
Proof. unfold flip_axes. intros ->. by destruct (n_channels self =? 1)%Z. Qed.

(** [np.flip] alone is a view: writing through it changes what the
    source shows. *)
Lemma flip_view_shares_buffer o o' axes :
  np_flip_view o axes = Ok o' -> buffer o' = buffer o.
Proof.
  unfold np_flip_view. destruct (forallb _ axes); [|discriminate]. by intros [= <-].
Qed.

Lemma view_of_unview fl (v : nd T) : view_of fl (unview fl v) = v.
Proof.
  revert v. induction fl as [|axes fl IH]; intros v; simpl; [done|].
  unfold view_of, unview in *. rewrite IH. apply flip_at_involutive.
Qed.

(** C3. Flip is an involution and its result is an independent copy.
    For an array object [o] of rank at least three (four when there is a
    channel axis), [apply_flip] succeeds; the array it returns is the
    mirror of the source along [flip_axes], which are the last three axes
    at the rank the loaders produce; flipping the result again gives back
    the source array; and the result lives in a newly allocated buffer,
    so that the source is left as it was and an in-place write through
    either object is not seen through the other. *)
Theorem apply_flip_involution_copy self h o :
  buffer o ∈ dom h ->
  (if (n_channels self =? 1)%Z then 3 else 4) <= length (view_shape o) ->
  exists o1 h1 o2 h2,
    apply_flip_obj self h o = Ok (o1, h1) /\
    apply_flip_obj self h1 o1 = Ok (o2, h2) /\
    apply_flip self (read h o) = Ok (read h1 o1) /\
    body (read h1 o1) = flip_at (flip_axes self) 0 (body (read h o)) /\
    (length (view_shape o) = (if (n_channels self =? 1)%Z then 3 else 4) ->
     flip_axes self = seq (ndim (read h o) - 3) 3) /\
    apply_flip self (read h1 o1) = Ok (read h o) /\
    read h2 o2 = read h o /\
    (buffer o1 ∉ dom h) /\
    buffer o1 <> buffer o /\
    read h1 o = read h o /\
    (forall v, read (assign h1 o v) o1 = read h1 o1) /\
    (forall v, read (assign h1 o1 v) o = read h1 o).
Proof.
  intros Hlive Hrank.
  pose proof (flip_axes_bound self _ Hrank) as Hax.
  set (l := fresh (dom h)).
  assert (Hfresh : l ∉ dom h) by apply is_fresh.
  assert (Hne : l <> buffer o) by (intros ->; contradiction).
  set (v1 := flip_at (flip_axes self) 0 (view_of (flips o) (h !!! buffer o))).
  set (o1 := ArrObj l (view_shape o) []).
  set (h1 := <[l := v1]> h).
  set (l2 := fresh (dom h1)).
  set (o2 := ArrObj l2 (view_shape o) []).
  set (h2 := <[l2 := flip_at (flip_axes self) 0 v1]> h1).
  assert (Hr1 : read h1 o1 = NdArray (view_shape o) v1).
  { unfold read, o1, h1. simpl. by rewrite lookup_total_insert_eq. }
  assert (Hr0 : read h1 o = read h o).
  { unfold read, h1. by rewrite lookup_total_insert_ne. }
  exists o1, h1, o2, h2. repeat split.
  - unfold apply_flip_obj, np_flip_view. rewrite Hax. reflexivity.
  - assert (Hl : h1 !!! l = v1) by (unfold h1; apply lookup_total_insert_eq).
    unfold apply_flip_obj, np_flip_view.
    change (view_shape o1) with (view_shape o). rewrite Hax.
    unfold copy, read, view_of.
    cbn [mbind result_bind buffer flips view_shape body foldr o1].
    rewrite Hl. reflexivity.
  - unfold apply_flip, np_flip, ndim. simpl. rewrite Hax. by rewrite Hr1.
  - by rewrite Hr1.
  - intros Hn. apply flip_axes_last_three. exact Hn.
  - rewrite Hr1. unfold apply_flip, np_flip, ndim. simpl. rewrite Hax.
    unfold v1. by rewrite flip_at_involutive.
  - unfold read, o2, h2. simpl. rewrite lookup_total_insert_eq.
    unfold v1. by rewrite flip_at_involutive.
  - exact Hfresh.
  - exact Hne.
  - exact Hr0.
  - intros v. unfold read, assign, o1. simpl. by rewrite lookup_total_insert_ne.
  - intros v. unfold read, assign, o1. simpl. by rewrite lookup_total_insert_ne.
Qed.

(** By contrast the view [np.flip] returns does share: a write through
    the source shows through the view. *)
Lemma flip_view_aliases h o o' axes (v : nd T) :
  np_flip_view o axes = Ok o' ->
  body (read (assign h o v) o') = flip_at axes 0 v.
Proof.
  unfold np_flip_view. destruct (forallb _ axes); [|discriminate]. intros [= <-].
  unfold read, assign. simpl. rewrite lookup_total_insert_eq.
  f_equal. apply view_of_unview.
Qed.

End FlipFacts.

(** ** Index expander *)

Section ExpanderFacts.
Context {T L : Type} `{Lb : Libs T}.
Implicit Types (table : list (string * L)) (K : list string).

Lemma dict_set_fresh {V} (k : string) (v : V) (d : list (string * V)) :
  k ∉ d.*1 -> dict_set k v d = d ++ [(k, v)].
Proof.
  induction d as [|[k' v'] d IH]; simpl; [done|].
  rewrite not_elem_of_cons. intros [Hne Hd].
  destruct (String.eqb k k') eqn:E.
  - apply String.eqb_eq in E. contradiction.
  - by rewrite IH.
Qed.

Lemma expand_loop_distinct table K : forall d ids,
  NoDup K ->
  (forall k, k ∈ K -> k ∉ d.*1) ->
  expand_loop table K d ids =
    (d ++ ((fun k => (k, suffixed k table)) <$> K),
     ids ++ concat ((fun k => (suffixed k table).*1) <$> K)).
Proof.
  induction K as [|k K IH]; intros d ids Hnd Hd; csimpl.
  - by rewrite !app_nil_r.
  - apply NoDup_cons in Hnd as [Hk Hnd].
    rewrite dict_set_fresh by (apply Hd; left).
    rewrite IH; [by rewrite <- !app_assoc| exact Hnd |].
    intros k' Hk'. rewrite fmap_app, elem_of_app. simpl.
    intros [Hin|Hin].
    + revert Hin. apply Hd. by right.
    + apply list_elem_of_singleton in Hin. subst. contradiction.
Qed.

(** The identifier list grows by one block per configured kind,
    whether or not the kinds are distinct. *)
Lemma expand_loop_indices table K : forall d ids,
  (expand_loop table K d ids).2 = ids ++ concat ((fun k => (suffixed k table).*1) <$> K).
Proof.
  induction K as [|k K IH]; intros d ids; csimpl.
  - by rewrite app_nil_r.
  - by rewrite IH, <- app_assoc.
Qed.

Lemma length_suffixed k table : length (suffixed k table) = length table.
Proof. unfold suffixed. apply length_fmap. Qed.

Lemma length_blocks table K :
  length (concat ((fun k => suffixed k table) <$> K)) = length K * length table.
Proof.
  induction K as [|k K IH]; csimpl; [done|].
  by rewrite length_app, length_suffixed, IH.
Qed.

Lemma lookup_blocks table K j k i row :
  K !! j = Some k ->
  table !! i = Some row ->
  concat ((fun k => suffixed k table) <$> K) !! (j * length table + i)
    = Some (row.1 +:+ "_" +:+ k, row.2).
Proof.
  revert j. induction K as [|k0 K IH]; intros j Hj Hi; [done|].
  pose proof (lookup_lt_Some _ _ _ Hi) as Hlt.
  destruct j as [|j]; csimpl in *.
  - injection Hj as ->. rewrite lookup_app_l by (by rewrite length_suffixed).
    unfold suffixed. by rewrite list_lookup_fmap, Hi.
  - rewrite lookup_app_r by (rewrite length_suffixed; lia).
    rewrite length_suffixed.
    replace (length table + j * length table + i - length table)
      with (j * length table + i) by lia.
    by apply IH.
Qed.

Lemma elem_of_blocks table K I l k :
  (I, l) ∈ table -> k ∈ K ->
  (I +:+ "_" +:+ k, l) ∈ concat ((fun k => suffixed k table) <$> K).
Proof.
  intros HI Hk.
  apply list_elem_of_lookup in HI as [i Hi].
  apply list_elem_of_lookup in Hk as [j Hj].
  apply list_elem_of_lookup. exists (j * length table + i).
  by rewrite (lookup_blocks _ _ _ _ _ _ Hj Hi).
Qed.

Lemma np_default_rng_ok (seed : Z) :
  (0 <= seed)%Z -> np_default_rng seed = Ok (default_rng seed).
Proof. intros H. unfold np_default_rng. by rewrite (proj2 (Z.ltb_ge _ _) H). Qed.

Lemma np_default_rng_neg (seed : Z) :
  (seed < 0)%Z -> np_default_rng seed = Raise ValueError.
Proof. intros H. unfold np_default_rng. by rewrite (proj2 (Z.ltb_lt _ _) H). Qed.

(** A negative seed makes the constructor raise at its first generator. *)
Lemma init_negative_seed (a : @Args T L Lb) (g : np_random) :
  (arg_seed a < 0)%Z -> __init__ a g = Raise ValueError.
Proof. intros H. unfold __init__. by rewrite np_default_rng_neg. Qed.

(** A construction that returned was given a seed that is not negative. *)
Lemma init_seed (a : @Args T L Lb) (g : np_random) self w :
  __init__ a g = Ok (self, w) -> (0 <= arg_seed a)%Z.
Proof.
  intros H. destruct (Z.lt_ge_cases (arg_seed a) 0) as [Hneg|Hok]; [|done].
  by rewrite init_negative_seed in H.
Qed.

(** The constructor past its two generators. *)
Lemma init_unfold (a : @Args T L Lb) (g : np_random) :
  (0 <= arg_seed a)%Z ->
  __init__ a g
  = (radiomics ← (if arg_to_encode a
                  then load_radiomics (arg_csv_dir a) (arg_modality a) (arg_data_indices a)
                  else Ok None);
     let '(labels, data_indices) :=
       if arg_to_augment a then
         let '(augment_idx, data_indices) :=
           expand_loop (arg_labels a) (arg_augment_types a) [] (arg_data_indices a) in
         (arg_labels a ++ concat (dict_values augment_idx), data_indices)
       else (arg_labels a, arg_data_indices a) in
     Ok ({| labels := labels;
            data_indices := data_indices;
            n_channels := if 1 <? length (arg_modality a)
                          then Z.of_nat (length (arg_modality a)) else arg_n_channels a;
            dim := arg_dim a;
            data_dir := arg_data_dir a;
            csv_dir := arg_csv_dir a;
            modality := arg_modality a;
            to_augment := arg_to_augment a;
            augment_types := arg_augment_types a;
            to_encode := arg_to_encode a;
            radiomics := radiomics;
            to_sectionate := arg_to_sectionate a;
            transform := arg_transform a;
            target_transform := arg_target_transform a |},
         mkWorld (default_rng (arg_seed a)) (default_rng (arg_seed a)) g [])).
Proof. intros H. unfold __init__. by rewrite np_default_rng_ok. Qed.

(** The constructor succeeds whenever encoding is off and the seed is not
    negative. *)
Lemma init_without_encode (a : @Args T L Lb) (g : np_random) :
  (0 <= arg_seed a)%Z -> arg_to_encode a = false -> is_Ok (__init__ a g).
Proof.
  intros Hseed He. rewrite init_unfold by done. rewrite He. simpl.
  destruct (arg_to_augment a); [|done].
  by destruct (expand_loop _ _ _ _).
Qed.

(** What a successful construction with augmentation leaves in the
    instance. *)
Lemma expanded_table_of_init (a : @Args T L Lb) (g : np_random) self w :
  arg_to_augment a = true ->
  NoDup (arg_augment_types a) ->
  __init__ a g = Ok (self, w) ->
  labels self
    = arg_labels a ++ concat ((fun k => suffixed k (arg_labels a)) <$> arg_augment_types a) /\
  __len__ self = (1 + length (arg_augment_types a)) * length (arg_labels a) /\
  (forall I l k, (I, l) ∈ arg_labels a -> k ∈ arg_augment_types a ->
     (I, l) ∈ labels self /\ (I +:+ "_" +:+ k, l) ∈ labels self) /\
  (forall i row, arg_labels a !! i = Some row -> labels self !! i = Some row) /\
  (forall i j row k,
     arg_labels a !! i = Some row -> arg_augment_types a !! j = Some k ->
     labels self !! ((1 + j) * length (arg_labels a) + i)
       = Some (row.1 +:+ "_" +:+ k, row.2)) /\
  data_indices self
    = arg_data_indices a
        ++ concat ((fun k => (suffixed k (arg_labels a)).*1) <$> arg_augment_types a).
Proof.
  intros Haug Hnd Hinit.
  rewrite (init_unfold a g (init_seed a g self w Hinit)) in Hinit. rewrite Haug in Hinit.
  apply result_bind_Ok in Hinit as (rad & _ & Hinit).
  rewrite expand_loop_distinct in Hinit by (done || (intros k _; simpl; apply not_elem_of_nil)).
  simpl in Hinit. injection Hinit as <- _.
  unfold __len__, dict_values. simpl.
  rewrite <- list_fmap_compose.
  change (snd ∘ (fun k => (k, suffixed k (arg_labels a))))
    with (fun k => suffixed k (arg_labels a)).
  repeat split.
  - rewrite length_app, length_blocks. lia.
  - apply elem_of_app. by left.
  - apply elem_of_app. right. by apply elem_of_blocks.
  - intros i row Hi. by apply lookup_app_l_Some.
  - intros i j row k Hi Hj.
    rewrite lookup_app_r by lia.
    match goal with
    | |- _ !! ?n = _ => replace n with (j * length (arg_labels a) + i) by lia
    end.
    by apply lookup_blocks.
Qed.

(** C1. Index expander.  With augmentation enabled and distinct kind
    names K (encoding off, and a seed that is not negative), construction
    succeeds and the label table of the instance is the base table L
    followed by one renamed copy of L per kind, in the order of K; its
    length, which [__len__] returns, is (1 + |K|) * |L|; every base row
    (I, l) and every kind k give rows (I, l) and (I_k, l) of the expanded
    table; position i holds row i of L and position (1 + j) * |L| + i
    holds row i of L renamed with kind j.  The identifier list is extended
    by the same blocks.  K need not be non-empty.  With a negative seed
    the constructor raises [ValueError] at its first generator, before
    any expansion. *)
Theorem index_expander_table (a : @Args T L Lb) (g : np_random) :
  arg_to_encode a = false ->
  arg_to_augment a = true ->
  NoDup (arg_augment_types a) ->
  ((arg_seed a < 0)%Z -> __init__ a g = Raise ValueError) /\
  ((0 <= arg_seed a)%Z ->
   exists self w,
    __init__ a g = Ok (self, w) /\
    labels self
      = arg_labels a ++ concat ((fun k => suffixed k (arg_labels a)) <$> arg_augment_types a) /\
    __len__ self = (1 + length (arg_augment_types a)) * length (arg_labels a) /\
    (forall I l k, (I, l) ∈ arg_labels a -> k ∈ arg_augment_types a ->
       (I, l) ∈ labels self /\ (I +:+ "_" +:+ k, l) ∈ labels self) /\
    (forall i row, arg_labels a !! i = Some row -> labels self !! i = Some row) /\
    (forall i j row k,
       arg_labels a !! i = Some row -> arg_augment_types a !! j = Some k ->
       labels self !! ((1 + j) * length (arg_labels a) + i)
         = Some (row.1 +:+ "_" +:+ k, row.2)) /\
    data_indices self
      = arg_data_indices a
          ++ concat ((fun k => (suffixed k (arg_labels a)).*1) <$> arg_augment_types a)).
Proof.
  intros Henc Haug Hnd. split; [apply init_negative_seed|]. intros Hseed.
  pose proof (init_without_encode a g Hseed Henc) as Hok.
  destruct (__init__ a g) as [[self w]|e] eqn:Hinit; [|contradiction].
  exists self, w. split; [reflexivity|].
  by apply (expanded_table_of_init a g self w).
Qed.

End ExpanderFacts.

(** ** Array loader: channel selection *)

Section LoaderFacts.
Context {T L : Type} `{Lb : Libs T}.
Implicit Types (self : @DatasetGenerator T L Lb) (a vol : ndarray T).

Lemma wf_leading vol :
  wf vol = true -> 0 < ndim vol ->
  exists n s xs, shape vol = n :: s /\ body vol = Dim xs /\ length xs = n.
Proof.
  destruct vol as [[|n s] [x|xs]]; unfold wf, ndim; simpl; try done; try lia.
  intros Hwf _. apply andb_true_iff in Hwf as [Hn _].
  apply Nat.eqb_eq in Hn. by exists n, s, xs.
Qed.

Lemma index0_shape i a r : index0 i a = Ok r -> shape a = length (children (body a)) :: shape r
  \/ exists n, shape a = n :: shape r.
Proof.
  unfold index0. destruct (shape a) as [|n s]; [discriminate|].
  destruct (i <? n); [|discriminate].
  destruct (children (body a) !! i); [|discriminate]. simpl. intros [= <-]. eauto.
Qed.

Lemma index0_ndim i a r : index0 i a = Ok r -> ndim a = S (ndim r).
Proof.
  intros H. unfold ndim. destruct (index0_shape _ _ _ H) as [->|[n ->]]; done.
Qed.

Lemma slice0_ndim k a r : slice0 k a = Ok r -> ndim r = ndim a.
Proof.
  unfold slice0, ndim. destruct (shape a) as [|n s]; [discriminate|]. by intros [= <-].
Qed.

Lemma take0_ndim idxs a r : take0 idxs a = Ok r -> ndim r = ndim a.
Proof.
  unfold take0, ndim. destruct (shape a) as [|n s]; [discriminate|].
  destruct (forallb _ idxs); [|discriminate].
  destruct (mapM _ idxs); [|discriminate]. simpl. by intros [= <-].
Qed.

(** C4. Channel selection of the single-modality loader.  On a loaded
    volume of four axes with leading length n: channel count 5 returns the
    volume unchanged; 4 returns leading slices 0, 1, 2 and 4 (an
    [IndexError] when n < 5); any other count above 1 returns leading
    slices 0, 1, 2 (the first three that exist); count 1 returns leading
    slice 3 alone, without the leading axis (an [IndexError] when n < 4).
    So the result has three axes for count 1 and four for every
    count of 2 or more. *)
Theorem select_channels_by_count self vol :
  wf vol = true ->
  ndim vol = 4 ->
  exists n s xs,
    shape vol = n :: s /\ body vol = Dim xs /\ length xs = n /\
    (n_channels self = 5%Z -> select_channels self vol = Ok vol) /\
    (n_channels self = 4%Z ->
       (5 <= n -> exists x0 x1 x2 x4,
          xs !! 0 = Some x0 /\ xs !! 1 = Some x1 /\ xs !! 2 = Some x2 /\ xs !! 4 = Some x4 /\
          select_channels self vol = Ok (NdArray (4 :: s) (Dim [x0; x1; x2; x4]))) /\
       (n < 5 -> select_channels self vol = Raise IndexError)) /\
    ((1 < n_channels self)%Z -> n_channels self <> 4%Z -> n_channels self <> 5%Z ->
       select_channels self vol = Ok (NdArray (Nat.min 3 n :: s) (Dim (take 3 xs)))) /\
    (n_channels self = 1%Z ->
       (4 <= n -> exists x3,
          xs !! 3 = Some x3 /\ select_channels self vol = Ok (NdArray s x3)) /\
       (n < 4 -> select_channels self vol = Raise IndexError)) /\
    (forall r, select_channels self vol = Ok r ->
       ndim r = if (1 <? n_channels self)%Z then ndim vol else ndim vol - 1).
Proof.
  intros Hwf Hnd.
  destruct (wf_leading vol Hwf) as (n & s & xs & Hs & Hb & Hlen); [lia|].
  exists n, s, xs. split; [done|]. split; [done|]. split; [done|].
  assert (Hrank : forall r, select_channels self vol = Ok r ->
            ndim r = if (1 <? n_channels self)%Z then ndim vol else ndim vol - 1).
  { intros r. unfold select_channels. destruct (1 <? n_channels self)%Z.
    - destruct (n_channels self =? 5)%Z; [by intros [= <-]|].
      destruct (n_channels self =? 4)%Z; [apply take0_ndim | apply slice0_ndim].
    - intros Hr. apply index0_ndim in Hr. lia. }
  unfold select_channels, take0, slice0, index0, ndim in *.
  rewrite Hs, Hb in *. simpl in Hnd. simpl.
  split_and!.
  - intros E. rewrite E. reflexivity.
  - intros E. rewrite E. simpl. split; intros Hn.
    + destruct xs as [|x0 [|x1 [|x2 [|x3 [|x4 xs]]]]]; simpl in *; try lia.
      exists x0, x1, x2, x4. split_and!; try done.
      subst n. by repeat (rewrite (proj2 (Nat.ltb_lt _ _)) by lia).
    + destruct (4 <? n) eqn:E4; [apply Nat.ltb_lt in E4; lia|].
      by rewrite !andb_false_r.
  - intros H1 H4 H5.
    rewrite (proj2 (Z.ltb_lt _ _) H1).
    by rewrite (proj2 (Z.eqb_neq _ _) H5), (proj2 (Z.eqb_neq _ _) H4).
  - intros E. rewrite E. simpl. split; intros Hn.
    + destruct xs as [|x0 [|x1 [|x2 [|x3 xs]]]]; simpl in *; try lia.
      exists x3. split; [done|]. by rewrite (proj2 (Nat.ltb_lt _ _)) by lia.
    + by rewrite (proj2 (Nat.ltb_ge _ _)) by lia.
  - exact Hrank.
Qed.

End LoaderFacts.

(** ** The state monad *)

Section MonadFacts.
Context {T L : Type} `{Lb : Libs T}.

Lemma M_bind_Ok {A B} (m : M A) (k : A -> M B) (w w' : World) (b : B) :
  (m ≫= k) w = (Ok b, w') ->
  exists a w1, m w = (Ok a, w1) /\ k a w1 = (Ok b, w').
Proof.
  unfold mbind, M_bind. destruct (m w) as [[a|e] w1]; [eauto | discriminate].
Qed.

Lemma M_bind_lift {A B} (r : result A) (k : A -> M B) (w : World) :
  (lift r ≫= k) w = match r with Ok a => k a w | Raise e => (Raise e, w) end.
Proof. reflexivity. Qed.

Lemma M_bind_eval {A B} (m : M A) (k : A -> M B) (w w1 : World) (r : result A) :
  m w = (r, w1) ->
  (m ≫= k) w = match r with Ok a => k a w1 | Raise e => (Raise e, w1) end.
Proof. intros H. unfold mbind, M_bind. by rewrite H. Qed.

Lemma M_bind_cong {A B} (m1 m2 : M A) (k1 k2 : A -> M B) (w : World) :
  m1 w = m2 w -> (forall x w1, k1 x w1 = k2 x w1) -> (m1 ≫= k1) w = (m2 ≫= k2) w.
Proof.
  intros Hm Hk. unfold mbind, M_bind. rewrite Hm.
  destruct (m2 w) as [[x|e] w1]; [apply Hk | done].
Qed.

Lemma lift_Ok {A} (r : result A) (w w' : World) (a : A) :
  lift r w = (Ok a, w') -> r = Ok a /\ w' = w.
Proof. unfold lift. by intros [= -> ->]. Qed.

End MonadFacts.

(** ** Array loader: stacking modalities *)

Section StackFacts.
Context {T L : Type} `{Lb : Libs T}.
Implicit Types (self : @DatasetGenerator T L Lb) (a v r arr : ndarray T).
Implicit Types (fs : gmap string (ndarray T)).

Lemma set_item0_inv i v a r :
  set_item0 i v a = Ok r ->
  exists n s b, shape a = n :: s /\ i < n /\ broadcast_to s v = Ok b /\
    r = NdArray (shape a) (Dim (<[i := b]> (children (body a)))).
Proof.
  unfold set_item0. destruct (shape a) as [|n s] eqn:Hs; [discriminate|].
  destruct (i <? n) eqn:Hi; [|discriminate]. apply Nat.ltb_lt in Hi.
  destruct (broadcast_to s v) as [b|e] eqn:Hb; [|discriminate].
  simpl. intros [= <-]. by exists n, s, b.
Qed.

Lemma set_item0_shape i v a r : set_item0 i v a = Ok r -> shape r = shape a.
Proof. intros H. apply set_item0_inv in H as (n & s & b & _ & _ & _ & ->). done. Qed.

Lemma set_slab_shape i v a r : set_slab i v a = Ok r -> shape r = shape a.
Proof. unfold set_slab. destruct (ndim a <? 4); [discriminate|]. apply set_item0_shape. Qed.

Lemma mapM_same {A} (f : A -> option A) (l : list A) :
  Forall (fun x => f x = Some x) l -> mapM f l = Some l.
Proof. intros H. apply mapM_Some. induction H; constructor; done. Qed.

(** A value that already has the shape of the slot is stored as it is. *)
Lemma bcast_same (s : list nat) : forall b : nd T,
  has_shape s b = true -> bcast s s b = Some b.
Proof.
  induction s as [|n s IH]; intros [x|xs]; cbn [bcast has_shape]; try done.
  intros Hb. apply andb_true_iff in Hb as [Hn Hall].
  rewrite Nat.ltb_irrefl, Nat.eqb_refl.
  rewrite mapM_same; [done|].
  apply Forall_forall. intros c Hc. apply IH.
  rewrite forallb_forall in Hall. apply Hall. by apply list_elem_of_In.
Qed.

Lemma broadcast_to_same (s : list nat) v :
  wf v = true -> shape v = s -> broadcast_to s v = Ok (body v).
Proof.
  intros Hwf <-. unfold broadcast_to. rewrite Nat.sub_diag. simpl.
  unfold wf in Hwf. by rewrite bcast_same.
Qed.

Lemma np_empty_inv req (fill : T) r :
  np_empty req fill = Ok r ->
  shape r = Z.to_nat <$> req /\
  (forall n s, shape r = n :: s -> length (children (body r)) = n).
Proof.
  unfold np_empty. destruct (forallb _ req); [|discriminate]. intros [= <-]. simpl.
  split; [done|]. intros n s Hs. rewrite Hs. simpl. apply length_replicate.
Qed.

(** The loop fills slot [imod + i] with leading slice 3 of the volume of
    modality [i], and leaves shape and earlier slots alone. *)
Lemma stack_modalities_inv fs self pat_idx mods : forall imod arr r n s,
  shape arr = n :: s ->
  length (children (body arr)) = n ->
  stack_modalities fs self pat_idx imod mods arr = Ok r ->
  shape r = n :: s /\
  length (children (body r)) = n /\
  (forall j, j < imod -> children (body r) !! j = children (body arr) !! j) /\
  (forall i m, mods !! i = Some m ->
     exists vol whole b,
       np_load fs (path_join (data_dir self) (file_name self pat_idx m)) = Ok vol /\
       index0 3 vol = Ok whole /\
       broadcast_to s whole = Ok b /\
       children (body r) !! (imod + i) = Some b).
Proof.
  induction mods as [|m mods IH]; intros imod arr r n s Hs Hlen; simpl.
  - intros [= <-]. split_and!; try done.
  - intros H.
    apply result_bind_Ok in H as (vol & Hvol & H).
    apply result_bind_Ok in H as (whole & Hwhole & H).
    apply result_bind_Ok in H as (arr' & Hset & H).
    pose proof Hset as Hset'.
    apply set_item0_inv in Hset' as (n' & s' & b & Hs' & Hi & Hb & ->).
    rewrite Hs in Hs'. injection Hs' as <- <-.
    apply (IH _ _ _ n s) in H as (Hsr & Hlr & Hkeep & Hslots);
      [| done | simpl; by rewrite length_insert].
    simpl in Hkeep.
    split_and!; try done.
    + intros j Hj. rewrite Hkeep by lia. apply list_lookup_insert_ne. lia.
    + intros [|i] m' Hm'; simpl in Hm'.
      * injection Hm' as <-. exists vol, whole, b. split_and!; try done.
        rewrite Nat.add_0_r, Hkeep by lia. apply list_lookup_insert_eq. lia.
      * destruct (Hslots i m' Hm') as (vol' & whole' & b' & ? & ? & ? & Hl).
        exists vol', whole', b'. split_and!; try done.
        by replace (imod + S i) with (S imod + i) by lia.
Qed.

(** With every file present and every whole-tumor slice of the spatial
    shape, the loop runs to its end. *)
Lemma stack_modalities_total fs self pat_idx mods : forall imod arr n s,
  shape arr = n :: s ->
  imod + length mods <= n ->
  (forall m, m ∈ mods ->
     exists vol whole,
       np_load fs (path_join (data_dir self) (file_name self pat_idx m)) = Ok vol /\
       index0 3 vol = Ok whole /\ wf whole = true /\ shape whole = s) ->
  exists r, stack_modalities fs self pat_idx imod mods arr = Ok r.
Proof.
  induction mods as [|m mods IH]; intros imod arr n s Hs Hn Hfiles; simpl.
  - by exists arr.
  - destruct (Hfiles m) as (vol & whole & Hvol & Hwhole & Hwf & Hsh); [by left|].
    rewrite Hvol. simpl. rewrite Hwhole. simpl.
    assert (Hset : exists arr', set_item0 imod whole arr = Ok arr' /\ shape arr' = n :: s).
    { unfold set_item0. rewrite Hs. simpl in Hn.
      rewrite (proj2 (Nat.ltb_lt _ _)) by lia.
      rewrite (broadcast_to_same _ _ Hwf Hsh). simpl. eauto. }
    destruct Hset as (arr' & -> & Hs'). simpl.
    apply (IH _ _ n s); [done | simpl in Hn; lia |].
    intros m' Hm'. apply Hfiles. by right.
Qed.

End StackFacts.

(** ** Construction *)

Section InitFacts.
Context {T L : Type} `{Lb : Libs T}.
Implicit Types (self : @DatasetGenerator T L Lb) (a : @Args T L Lb).

(** What [__init__] stores, apart from the two tables. *)
Lemma init_inv a g self w :
  __init__ a g = Ok (self, w) ->
  n_channels self
    = (if 1 <? length (arg_modality a) then Z.of_nat (length (arg_modality a))
       else arg_n_channels a) /\
  dim self = arg_dim a /\
  data_dir self = arg_data_dir a /\
  modality self = arg_modality a /\
  to_augment self = arg_to_augment a /\
  augment_types self = arg_augment_types a /\
  to_sectionate self = arg_to_sectionate a /\
  transform self = arg_transform a /\
  target_transform self = arg_target_transform a /\
  (arg_to_augment a = false -> labels self = arg_labels a) /\
  arg_to_encode a = false /\
  w = mkWorld (default_rng (arg_seed a)) (default_rng (arg_seed a)) g [].
Proof.
  intros H. rewrite (init_unfold a g (init_seed a g self w H)) in H.
  destruct (arg_to_encode a) eqn:He.
  - exfalso. unfold load_radiomics in H.
    destruct (of_option IndexError (arg_modality a !! 0)) as [m|]; [|discriminate].
    simpl in H. destruct (retrieve_data _ _) as [t|]; [|discriminate].
    simpl in H. destruct (frame_loc _ _) as [r|]; discriminate.
  - simpl in H. destruct (arg_to_augment a).
    + destruct (expand_loop _ _ _ _) as [d ids]. injection H as <- <-.
      simpl. split_and!; done.
    + injection H as <- <-. simpl. split_and!; done.
Qed.

End InitFacts.

(** ** Augmentation keeps the shape of a channel-stacked array *)

Section AugmentShape.
Context {T L : Type} `{Lb : Libs T}.
Implicit Types (self : @DatasetGenerator T L Lb) (a v r arr : ndarray T) (w : World).

Lemma rotate_slabs_shape angle idxs : forall arr r,
  rotate_slabs angle idxs arr = Ok r -> shape r = shape arr.
Proof.
  induction idxs as [|i idxs IH]; intros arr r; simpl.
  - by intros [= <-].
  - intros H.
    apply result_bind_Ok in H as (slab & _ & H).
    apply result_bind_Ok in H as (rot & _ & H).
    apply result_bind_Ok in H as (arr' & Hset & H).
    apply IH in H. apply set_slab_shape in Hset. congruence.
Qed.

Lemma apply_flip_shape self arr r : apply_flip self arr = Ok r -> shape r = shape arr.
Proof.
  unfold apply_flip, np_flip. destruct (forallb _ _); [|discriminate]. by intros [= <-].
Qed.

Lemma apply_rotation_shape self arr w r w' :
  n_channels self <> 1%Z ->
  apply_rotation self arr w = (Ok r, w') -> shape r = shape arr.
Proof.
  intros Hn. unfold apply_rotation.
  destruct (rng_integers _ _ _) as [angle gen].
  rewrite (proj2 (Z.eqb_neq _ _) Hn).
  intros H. apply (f_equal fst) in H. cbn [fst] in H. revert H.
  destruct (n_channels self =? 4)%Z; [apply rotate_slabs_shape|].
  destruct (n_channels self =? 5)%Z; apply rotate_slabs_shape.
Qed.

Lemma augment_shape self aug arr w r w' :
  n_channels self <> 1%Z -> noise_keeps_shape -> deform_keeps_shape ->
  augment self aug arr w = (Ok r, w') -> shape r = shape arr.
Proof.
  intros Hn Hnoise Hdeform. unfold augment.
  destruct (routed self aug); [|by intros [= <- _]].
  intros H.
  apply M_bind_Ok in H as (a1 & w1 & H1 & H).
  apply M_bind_Ok in H as (a2 & w2 & H2 & H).
  apply M_bind_Ok in H as (a3 & w3 & H3 & H4).
  assert (E1 : shape a1 = shape arr).
  { destruct (contains aug "flip"); [|by injection H1 as <- _].
    apply lift_Ok in H1 as [H1 _]. by apply apply_flip_shape in H1. }
  assert (E2 : shape a2 = shape a1).
  { destruct (contains aug "rotate"); [|by injection H2 as <- _].
    by apply apply_rotation_shape in H2. }
  assert (E3 : shape a3 = shape a2).
  { destruct (contains aug "noise"); [|by injection H3 as <- _].
    unfold apply_noise in H3. destruct (sk_random_noise _ _) as [r3 g3] eqn:E.
    injection H3 as -> _. by apply Hnoise in E. }
  assert (E4 : shape r = shape a3).
  { destruct (contains aug "deform"); [|by injection H4 as <- _].
    unfold apply_deformation in H4. destruct (deform_random_grid _ _ _) as [r4 g4] eqn:E.
    injection H4 as -> _. by apply Hdeform in E. }
  congruence.
Qed.

(** What the loader returned, whenever it returned. *)
Lemma multi_modality_output (a : @Args T L Lb) g self w0
    (fs : gmap string (ndarray T)) pat_idx w arr w' :
  1 < length (arg_modality a) ->
  __init__ a g = Ok (self, w0) ->
  noise_keeps_shape -> deform_keeps_shape ->
  get_pat_mod_array fs self pat_idx w = (Ok arr, w') ->
  exists empty stacked,
    np_empty (Z.of_nat (length (modality self)) :: dim self) uninitialised = Ok empty /\
    stack_modalities fs self pat_idx 0 (modality self) empty = Ok stacked /\
    shape stacked = length (arg_modality a) :: (Z.to_nat <$> arg_dim a) /\
    length (children (body stacked)) = length (arg_modality a) /\
    (forall i m, arg_modality a !! i = Some m ->
       exists vol n s c b,
         fs !! path_join (data_dir self) (file_name self pat_idx m) = Some vol /\
         shape vol = n :: s /\ 3 < n /\
         children (body vol) !! 3 = Some c /\
         broadcast_to (Z.to_nat <$> arg_dim a) (NdArray s c) = Ok b /\
         children (body stacked) !! i = Some b /\
         (has_shape s c = true -> s = Z.to_nat <$> arg_dim a -> b = c)) /\
    shape arr = shape stacked /\
    (routed self (last_segment (split_on "_"%char pat_idx)) = false -> arr = stacked).
Proof.
  intros Hmods Hinit Hnoise Hdeform Hget.
  apply init_inv in Hinit as (Hn & Hdim & _ & Hmod & _).
  rewrite (proj2 (Nat.ltb_lt _ _) Hmods) in Hn.
  assert (Hn1 : n_channels self <> 1%Z) by lia.
  unfold get_pat_mod_array in Hget.
  apply M_bind_Ok in Hget as (empty & w1 & Hempty & Hget).
  apply lift_Ok in Hempty as [Hempty ->].
  apply M_bind_Ok in Hget as (stacked & w2 & Hstack & Haug).
  apply lift_Ok in Hstack as [Hstack ->].
  exists empty, stacked.
  destruct (np_empty_inv _ _ _ Hempty) as [Hes Hel].
  rewrite Hmod, Hdim in Hes. rewrite fmap_cons, Nat2Z.id in Hes.
  pose proof (stack_modalities_inv _ _ _ _ _ _ _ _ _ Hes (Hel _ _ Hes) Hstack)
    as (Hss & Hsl & _ & Hslots).
  split_and!; try done.
  - intros i m Hm. rewrite Hmod in Hslots.
    destruct (Hslots i m Hm) as (vol & whole & b & Hv & Hw & Hb & Hl).
    apply index0_inv in Hw as (n & s & c & Hsv & Hlt & Hc & ->).
    unfold np_load in Hv. destruct (fs !! _) as [v|] eqn:Hfile; [|discriminate].
    injection Hv as ->.
    exists vol, n, s, c, b. split_and!; try done.
    intros Hwf Hsh.
    rewrite (broadcast_to_same _ (NdArray s c) Hwf Hsh) in Hb. by injection Hb.
  - by apply augment_shape in Haug.
  - intros Hr. unfold augment in Haug. rewrite Hr in Haug. by injection Haug as <- _.
Qed.

(** With the files in place and no augmentation routed, the loader
    returns. *)
Lemma multi_modality_loads (a : @Args T L Lb) g self w0
    (fs : gmap string (ndarray T)) pat_idx w :
  __init__ a g = Ok (self, w0) ->
  Forall (fun d => (0 <= d)%Z) (arg_dim a) ->
  (forall m, m ∈ arg_modality a ->
     exists vol n c,
       fs !! path_join (data_dir self) (file_name self pat_idx m) = Some vol /\
       shape vol = n :: (Z.to_nat <$> arg_dim a) /\ 3 < n /\
       children (body vol) !! 3 = Some c /\
       has_shape (Z.to_nat <$> arg_dim a) c = true) ->
  routed self (last_segment (split_on "_"%char pat_idx)) = false ->
  exists arr, get_pat_mod_array fs self pat_idx w = (Ok arr, w).
Proof.
  intros Hinit Hdim Hfiles' Hroute.
  assert (Hfiles : forall m, m ∈ arg_modality a ->
     exists vol whole,
       np_load fs (path_join (data_dir self) (file_name self pat_idx m)) = Ok vol /\
       index0 3 vol = Ok whole /\ wf whole = true /\
       shape whole = Z.to_nat <$> arg_dim a).
  { intros m Hm. destruct (Hfiles' m Hm) as (vol & n & c & Hfile & Hs & Hn & Hc & Hwf).
    exists vol, (NdArray (Z.to_nat <$> arg_dim a) c). split_and!; try done.
    - unfold np_load. by rewrite Hfile.
    - by apply (index0_lookup 3 vol n). }
  apply init_inv in Hinit as (_ & Hd & _ & Hmod & _).
  unfold get_pat_mod_array. rewrite Hd, Hmod.
  assert (Hempty : exists empty,
    np_empty (Z.of_nat (length (arg_modality a)) :: arg_dim a) (uninitialised : T) = Ok empty /\
    shape empty = length (arg_modality a) :: (Z.to_nat <$> arg_dim a)).
  { unfold np_empty.
    assert (Hnn : forallb (fun z => (0 <=? z)%Z)
                    (Z.of_nat (length (arg_modality a)) :: arg_dim a) = true).
    { apply forallb_forall. intros z Hz. apply list_elem_of_In in Hz.
      apply Z.leb_le. apply elem_of_cons in Hz as [->|Hz]; [lia|].
      rewrite Forall_forall in Hdim. by apply Hdim in Hz. }
    rewrite Hnn. eexists. split; [reflexivity|]. simpl. by rewrite Nat2Z.id. }
  destruct Hempty as (empty & Hempty & Hes).
  rewrite M_bind_lift, Hempty.
  destruct (stack_modalities_total fs self pat_idx (arg_modality a) 0 empty _ _ Hes)
    as [stacked Hstack]; [simpl; lia | exact Hfiles |].
  rewrite M_bind_lift, Hstack.
  exists stacked. unfold augment. by rewrite Hroute.
Qed.

(** C5. Multi-modality loader.  For an instance constructed with more
    than one modality, whatever channel count was passed, every array the
    loader returns has the shape of the stack it built: leading axis of
    length the number of modalities, then the spatial dimensions.  Slot i
    of the stack holds leading slice 3 of the volume loaded for modality
    i, that is, child 3 of the file's leading axis (as numpy assigns it:
    broadcast to the slot, and stored unchanged when it already has the
    spatial shape); without augmentation the stack is what is returned.
    Whenever every modality has its file with a whole-tumor slice of the
    spatial shape and no augmentation is routed, the loader returns, and
    child i of what it returns is child 3 of the file of modality i.
    Assumes skimage's noise and elasticdeform return arrays of the shape
    they are given. *)
Theorem multi_modality_leading_axis (a : @Args T L Lb) g self w0
    (fs : gmap string (ndarray T)) pat_idx w :
  1 < length (arg_modality a) ->
  __init__ a g = Ok (self, w0) ->
  noise_keeps_shape -> deform_keeps_shape ->
  (forall arr w',
     get_pat_mod_array fs self pat_idx w = (Ok arr, w') ->
     exists empty stacked,
       np_empty (Z.of_nat (length (modality self)) :: dim self) uninitialised = Ok empty /\
       stack_modalities fs self pat_idx 0 (modality self) empty = Ok stacked /\
       shape stacked = length (arg_modality a) :: (Z.to_nat <$> arg_dim a) /\
       length (children (body stacked)) = length (arg_modality a) /\
       (forall i m, arg_modality a !! i = Some m ->
          exists vol n s c b,
            fs !! path_join (data_dir self) (file_name self pat_idx m) = Some vol /\
            shape vol = n :: s /\ 3 < n /\
            children (body vol) !! 3 = Some c /\
            broadcast_to (Z.to_nat <$> arg_dim a) (NdArray s c) = Ok b /\
            children (body stacked) !! i = Some b /\
            (has_shape s c = true -> s = Z.to_nat <$> arg_dim a -> b = c)) /\
       shape arr = length (arg_modality a) :: (Z.to_nat <$> arg_dim a) /\
       (routed self (last_segment (split_on "_"%char pat_idx)) = false -> arr = stacked)) /\
  (Forall (fun d => (0 <= d)%Z) (arg_dim a) ->
   (forall m, m ∈ arg_modality a ->
      exists vol n c,
        fs !! path_join (data_dir self) (file_name self pat_idx m) = Some vol /\
        shape vol = n :: (Z.to_nat <$> arg_dim a) /\ 3 < n /\
        children (body vol) !! 3 = Some c /\
        has_shape (Z.to_nat <$> arg_dim a) c = true) ->
   routed self (last_segment (split_on "_"%char pat_idx)) = false ->
   exists arr,
     get_pat_mod_array fs self pat_idx w = (Ok arr, w) /\
     shape arr = length (arg_modality a) :: (Z.to_nat <$> arg_dim a) /\
     length (children (body arr)) = length (arg_modality a) /\
     (forall i m, arg_modality a !! i = Some m ->
        exists vol c,
          fs !! path_join (data_dir self) (file_name self pat_idx m) = Some vol /\
          children (body vol) !! 3 = Some c /\
          children (body arr) !! i = Some c)).
Proof.
  intros Hmods Hinit Hnoise Hdeform.
  assert (Hout : forall arr w',
     get_pat_mod_array fs self pat_idx w = (Ok arr, w') ->
     exists empty stacked,
       np_empty (Z.of_nat (length (modality self)) :: dim self) uninitialised = Ok empty /\
       stack_modalities fs self pat_idx 0 (modality self) empty = Ok stacked /\
       shape stacked = length (arg_modality a) :: (Z.to_nat <$> arg_dim a) /\
       length (children (body stacked)) = length (arg_modality a) /\
       (forall i m, arg_modality a !! i = Some m ->
          exists vol n s c b,
            fs !! path_join (data_dir self) (file_name self pat_idx m) = Some vol /\
            shape vol = n :: s /\ 3 < n /\
            children (body vol) !! 3 = Some c /\
            broadcast_to (Z.to_nat <$> arg_dim a) (NdArray s c) = Ok b /\
            children (body stacked) !! i = Some b /\
            (has_shape s c = true -> s = Z.to_nat <$> arg_dim a -> b = c)) /\
       shape arr = length (arg_modality a) :: (Z.to_nat <$> arg_dim a) /\
       (routed self (last_segment (split_on "_"%char pat_idx)) = false -> arr = stacked)).
  { intros arr w' Hget.
    destruct (multi_modality_output a g self w0 fs pat_idx w arr w'
                Hmods Hinit Hnoise Hdeform Hget)
      as (empty & stacked & H1 & H2 & H3 & H4 & H5 & H6 & H7).
    exists empty, stacked. split_and!; try done. by rewrite H6. }
  split; [exact Hout|].
  intros Hdim Hfiles Hroute.
  destruct (multi_modality_loads a g self w0 fs pat_idx w Hinit Hdim Hfiles Hroute)
    as [arr Hget].
  destruct (Hout arr w Hget) as (empty & stacked & _ & _ & Hss & Hlen & Hslots & Hsa & Heq).
  specialize (Heq Hroute). subst stacked.
  exists arr. split_and!; try done.
  intros i m Hm.
  destruct (Hslots i m Hm) as (vol & n & s & c & b & Hfile & Hs & _ & Hc & _ & Hb & Hsame).
  destruct (Hfiles m) as (vol' & n' & c' & Hfile' & Hs' & _ & Hc' & Hwf');
    [by apply list_elem_of_lookup_2 in Hm|].
  rewrite Hfile in Hfile'. injection Hfile' as <-.
  rewrite Hs in Hs'. injection Hs' as <- ->.
  rewrite Hc in Hc'. injection Hc' as <-.
  exists vol, c. split_and!; try done.
  by rewrite Hb, (Hsame Hwf' eq_refl).
Qed.

End AugmentShape.

(** ** Routing to the augmentor *)

Section RoutingFacts.
Context {T L : Type} `{Lb : Libs T}.
Implicit Types (self : @DatasetGenerator T L Lb) (arr : ndarray T) (w : World).
Implicit Types (fs : gmap string (ndarray T)).

Lemma M_bind_ext {A B} (m : M A) (k1 k2 : A -> M B) w :
  (forall x w1, k1 x w1 = k2 x w1) -> (m ≫= k1) w = (m ≫= k2) w.
Proof.
  intros Hk. unfold mbind, M_bind. destruct (m w) as [[x|e] w1]; [apply Hk | done].
Qed.

Lemma M_bind_ret {A} (m : M A) w : (m ≫= mret) w = m w.
Proof. unfold mbind, M_bind, mret, M_ret. by destruct (m w) as [[x|e] w1]. Qed.

Lemma M_ret_bind {A B} (x : A) (k : A -> M B) w : (mret x ≫= k) w = k x w.
Proof. reflexivity. Qed.

Lemma augment_runs_applicable self aug arr w :
  augment self aug arr w
    = run_steps (if routed self aug then applicable self aug else []) arr w.
Proof.
  unfold augment, applicable, transformations.
  destruct (routed self aug); [|done].
  cbn [List.filter fst].
  destruct (contains aug "flip"), (contains aug "rotate"),
    (contains aug "noise"), (contains aug "deform");
    cbn [run_steps snd];
    repeat (rewrite ?M_ret_bind;
            first [ reflexivity
                  | symmetry; apply M_bind_ret
                  | apply M_bind_ext; intros ? ? ]).
Qed.

(** C6 (amended). Routing to the augmentor.  The array is handed to the
    augmentor exactly when the final underscore-delimited segment of the
    identifier is equal to one of the configured kind names, the whole
    segment and not a part of it.  Once routed, each of flip, rotate,
    noise and deform applies when its name occurs as a substring of the
    segment, independently of the others, so several may apply, and
    those that apply run in the order flip, rotate, noise, deform.  Both
    loaders do so. *)
Theorem augmentor_routing fs self pat_idx w :
  let aug := last_segment (split_on "_"%char pat_idx) in
  let steps := if routed self aug then applicable self aug else [] in
  (routed self aug = true <-> aug ∈ augment_types self) /\
  (applicable self aug).*1
    = List.filter (contains aug) ["flip"; "rotate"; "noise"; "deform"] /\
  (applicable self "fliprotatenoisedeform").*1 = ["flip"; "rotate"; "noise"; "deform"] /\
  (forall arr w1, augment self aug arr w1 = run_steps steps arr w1) /\
  (aug ∉ augment_types self -> forall arr w1, augment self aug arr w1 = (Ok arr, w1)) /\
  load_single fs self pat_idx w
    = (mod0 ← lift (of_option IndexError (modality self !! 0));
       in_arr ← lift (np_load fs (path_join (data_dir self) (file_name self pat_idx mod0)));
       in_arr ← lift (select_channels self in_arr);
       run_steps steps in_arr) w /\
  get_pat_mod_array fs self pat_idx w
    = (mod_arr ← lift (np_empty (Z.of_nat (length (modality self)) :: dim self)
                         uninitialised);
       mod_arr ← lift (stack_modalities fs self pat_idx 0 (modality self) mod_arr);
       run_steps steps mod_arr) w.
Proof.
  intros aug steps. split_and!.
  - unfold routed. apply bool_decide_eq_true.
  - unfold applicable, transformations. cbn [List.filter fst].
    by destruct (contains aug "flip"), (contains aug "rotate"),
      (contains aug "noise"), (contains aug "deform").
  - reflexivity.
  - intros arr w1. apply augment_runs_applicable.
  - intros Hno arr w1. unfold augment, routed.
    by rewrite bool_decide_eq_false_2.
  - unfold load_single.
    repeat (apply M_bind_ext; intros ? ?). apply augment_runs_applicable.
  - unfold get_pat_mod_array.
    repeat (apply M_bind_ext; intros ? ?). apply augment_runs_applicable.
Qed.

End RoutingFacts.

(** ** Determinism of the augmentation randomness *)

Section Determinism.
Context {T L : Type} `{Lb : Libs T}.
Implicit Types (self : @DatasetGenerator T L Lb) (arr : ndarray T) (w : World).
Implicit Types (fs : gmap string (ndarray T)).

Lemma agree_refl w : agree w w.
Proof. by unfold agree. Qed.

Lemma det_quiet {A} (m : M A) : det m -> quiet m.
Proof. intros H w1 w2 Hw. by apply H. Qed.

Lemma det_lift {A} (r : result A) : det (lift r).
Proof. by intros w1 w2 Hw. Qed.

Lemma det_ret {A} (x : A) : det (mret x : M A).
Proof. by intros w1 w2 Hw. Qed.

Lemma still_lift {A} (r : result A) : still (lift r).
Proof. by intros w. Qed.

Lemma still_ret {A} (x : A) : still (mret x : M A).
Proof. by intros w. Qed.

Lemma still_bind {A B} (m : M A) (k : A -> M B) :
  still m -> (forall x, still (k x)) -> still (m ≫= k).
Proof.
  intros Hm Hk w. unfold mbind, M_bind. specialize (Hm w).
  destruct (m w) as [[x|e] w1]; simpl in *; subst; [apply Hk | done].
Qed.

Lemma det_bind {A B} (m : M A) (k : A -> M B) :
  det m -> (forall x, det (k x)) -> det (m ≫= k).
Proof.
  intros Hm Hk w1 w2 Hw. unfold mbind, M_bind.
  destruct (Hm w1 w2 Hw) as [Hr Hw'].
  destruct (m w1) as [[x1|e1] v1], (m w2) as [[x2|e2] v2]; simpl in *; try discriminate.
  - injection Hr as ->. by apply Hk.
  - by injection Hr as ->.
Qed.

Lemma quiet_bind_det {A B} (m : M A) (k : A -> M B) :
  det m -> (forall x, quiet (k x)) -> quiet (m ≫= k).
Proof.
  intros Hm Hk w1 w2 Hw. unfold mbind, M_bind.
  destruct (Hm w1 w2 Hw) as [Hr Hw'].
  destruct (m w1) as [[x1|e1] v1], (m w2) as [[x2|e2] v2]; simpl in *; try discriminate.
  - injection Hr as ->. by apply Hk.
  - done.
Qed.

Lemma quiet_bind_still {A B} (m : M A) (k : A -> M B) :
  quiet m -> (forall x, still (k x)) -> quiet (m ≫= k).
Proof.
  intros Hm Hk w1 w2 Hw. unfold mbind, M_bind. specialize (Hm w1 w2 Hw).
  destruct (m w1) as [[x1|e1] v1], (m w2) as [[x2|e2] v2]; simpl in *;
    rewrite ?Hk; done.
Qed.

Lemma agree_sym w1 w2 : agree w1 w2 -> agree w2 w1.
Proof. intros (? & ? & ?). by unfold agree. Qed.

Lemma agree_trans w1 w2 w3 : agree w1 w2 -> agree w2 w3 -> agree w1 w3.
Proof. intros (? & ? & ?) (? & ? & ?). unfold agree. split_and!; congruence. Qed.

Lemma calm_lift {A} (r : result A) : calm (lift r).
Proof. intros w. apply agree_refl. Qed.

Lemma calm_ret {A} (x : A) : calm (mret x : M A).
Proof. intros w. apply agree_refl. Qed.

Lemma calm_bind {A B} (m : M A) (k : A -> M B) :
  calm m -> (forall x, calm (k x)) -> calm (m ≫= k).
Proof.
  intros Hm Hk w. unfold mbind, M_bind. specialize (Hm w).
  destruct (m w) as [[x|e] w1]; simpl in *; [|done].
  by apply (agree_trans _ w1); [apply Hk|].
Qed.

(** A hook changes at most numpy's global random state. *)
Lemma calm_call_hook {A} (hook : option (Hook A)) (x : A) : calm (call_hook hook x).
Proof.
  intros w. unfold call_hook. destruct hook as [f|]; [|apply agree_refl].
  by destruct (f x (np_global w)).
Qed.

Lemma quiet_bind_calm {A B} (m : M A) (k : A -> M B) :
  quiet m -> (forall x, calm (k x)) -> quiet (m ≫= k).
Proof.
  intros Hm Hk w1 w2 Hw. unfold mbind, M_bind. specialize (Hm w1 w2 Hw).
  destruct (m w1) as [[x1|e1] v1], (m w2) as [[x2|e2] v2]; simpl in *.
  - apply (agree_trans _ v1); [apply Hk|].
    apply (agree_trans _ v2); [done|]. apply agree_sym, Hk.
  - by apply (agree_trans _ v1); [apply Hk|].
  - apply (agree_trans _ v2); [done|]. apply agree_sym, Hk.
  - done.
Qed.

Lemma det_apply_rotation self arr : det (apply_rotation self arr).
Proof.
  intros w1 w2 (Hn & Hr & Ht). unfold apply_rotation. rewrite Hr, Ht.
  destruct (rng_integers _ _ _) as [angle gen]. simpl. by unfold agree.
Qed.

Lemma det_apply_noise self arr : det (apply_noise self arr).
Proof.
  intros w1 w2 (Hn & Hr & Ht). unfold apply_noise. rewrite Hn, Ht.
  destruct (sk_random_noise _ _) as [r gen]. simpl. by unfold agree.
Qed.

(** Deformation draws from numpy's global state only: the instance's
    generators and the trace stay as they are, whatever array it is
    given. *)
Lemma quiet_apply_deformation self arr : quiet (apply_deformation self arr).
Proof.
  intros w1 w2 Hw. unfold apply_deformation.
  by destruct (deform_random_grid _ _ (np_global w1)), (deform_random_grid _ _ (np_global w2)).
Qed.

Lemma quiet_augment self aug arr : quiet (augment self aug arr).
Proof.
  unfold augment. destruct (routed self aug); [|apply det_quiet, det_ret].
  apply quiet_bind_det.
  { destruct (contains aug "flip"); [apply det_lift | apply det_ret]. }
  intros a1. apply quiet_bind_det.
  { destruct (contains aug "rotate"); [apply det_apply_rotation | apply det_ret]. }
  intros a2. apply quiet_bind_det.
  { destruct (contains aug "noise"); [apply det_apply_noise | apply det_ret]. }
  intros a3.
  destruct (contains aug "deform"); [apply quiet_apply_deformation | apply det_quiet, det_ret].
Qed.

Lemma quiet_get_pat_array fs self pat_idx : quiet (get_pat_array fs self pat_idx).
Proof.
  unfold get_pat_array. apply quiet_bind_still.
  - unfold load_single.
    apply quiet_bind_det; [apply det_lift|]. intros mod0.
    apply quiet_bind_det; [apply det_lift|]. intros vol.
    apply quiet_bind_det; [apply det_lift|]. intros in_arr.
    apply quiet_augment.
  - intros in_arr. destruct (to_sectionate self); [|apply still_ret].
    destruct (n_channels self =? 1)%Z; apply still_lift.
Qed.

Lemma quiet_get_pat_mod_array fs self pat_idx : quiet (get_pat_mod_array fs self pat_idx).
Proof.
  unfold get_pat_mod_array.
  apply quiet_bind_det; [apply det_lift|]. intros empty.
  apply quiet_bind_det; [apply det_lift|]. intros stacked.
  apply quiet_augment.
Qed.

Lemma quiet_getitem fs self idx : quiet (__getitem__ fs self idx).
Proof.
  unfold __getitem__.
  apply quiet_bind_det; [apply det_lift|]. intros pat_idx.
  apply quiet_bind_calm.
  - destruct (length (modality self) <? 2);
      [apply quiet_get_pat_array | apply quiet_get_pat_mod_array].
  - intros in_arr.
    apply calm_bind; [apply calm_lift|]. intros a1.
    apply calm_bind; [apply calm_call_hook|]. intros a2.
    apply calm_bind; [apply calm_call_hook|]. intros lbl.
    apply calm_bind; [apply calm_lift|]. intros tensor.
    apply calm_ret.
Qed.

Lemma replay_agree fs self idxs : forall w1 w2,
  agree w1 w2 -> agree (replay fs self idxs w1).2 (replay fs self idxs w2).2.
Proof.
  induction idxs as [|idx idxs IH]; intros w1 w2 Hw; simpl; [done|].
  pose proof (quiet_getitem fs self idx w1 w2 Hw) as Hq.
  destruct (__getitem__ fs self idx w1) as [r1 v1], (__getitem__ fs self idx w2) as [r2 v2].
  specialize (IH v1 v2 Hq).
  by destruct (replay fs self idxs v1), (replay fs self idxs v2).
Qed.

(** Two constructions from the same arguments give the same instance
    and generators in the same state, whatever numpy's global random
    state is at either moment. *)
Lemma init_agree (a : @Args T L Lb) g1 g2 self1 w1 self2 w2 :
  __init__ a g1 = Ok (self1, w1) -> __init__ a g2 = Ok (self2, w2) ->
  self1 = self2 /\ agree w1 w2 /\
  rng_noise w1 = default_rng (arg_seed a) /\ rng_rotate w1 = default_rng (arg_seed a) /\
  trace w1 = [].
Proof.
  intros H1 H2. pose proof (init_seed a g1 self1 w1 H1) as Hseed.
  rewrite (init_unfold a g1 Hseed) in H1. rewrite (init_unfold a g2 Hseed) in H2.
  destruct (if arg_to_encode a then _ else _) as [rad|e]; [|discriminate].
  simpl in H1, H2.
  destruct (if arg_to_augment a then _ else _) as [lbls ids].
  injection H1 as <- <-. injection H2 as <- <-. by unfold agree.
Qed.

(** C2. Two-run determinism.  Two instances freshly constructed from
    the same arguments (so the same configuration and seed), replaying
    the same sequence of item accesses over the same files, draw the same
    rotation angles and obtain the same noise outcomes, and leave their
    generators in the same state; this holds whatever numpy's global
    random state, which the elastic deformation draws from, is in either
    run. *)
Theorem augmentation_deterministic (a : @Args T L Lb) g1 g2 self1 w1 self2 w2 fs idxs :
  __init__ a g1 = Ok (self1, w1) ->
  __init__ a g2 = Ok (self2, w2) ->
  angles (trace (replay fs self1 idxs w1).2) = angles (trace (replay fs self2 idxs w2).2) /\
  noise_outcomes (trace (replay fs self1 idxs w1).2)
    = noise_outcomes (trace (replay fs self2 idxs w2).2) /\
  rng_rotate (replay fs self1 idxs w1).2 = rng_rotate (replay fs self2 idxs w2).2 /\
  rng_noise (replay fs self1 idxs w1).2 = rng_noise (replay fs self2 idxs w2).2.
Proof.
  intros H1 H2. destruct (init_agree _ _ _ _ _ _ _ H1 H2) as (<- & Hw & _).
  destruct (replay_agree fs self1 idxs w1 w2 Hw) as (Hn & Hr & Ht).
  by rewrite Ht, Hn, Hr.
Qed.

End Determinism.

(** ** Sectionation with more than one channel *)

Section ReshapeFacts.
Context {T L : Type} `{Lb : Libs T}.
Implicit Types (self : @DatasetGenerator T L Lb) (a r arr : ndarray T) (w : World).
Implicit Types (fs : gmap string (ndarray T)) (req : list Z).

Lemma prod_shape_app (s1 s2 : list nat) :
  prod_shape (s1 ++ s2) = prod_shape s1 * prod_shape s2.
Proof.
  unfold prod_shape. induction s1 as [|n s1 IH]; simpl; [lia|]. rewrite IH. lia.
Qed.

Lemma prod_shape_pos req :
  Forall (fun d => (0 < d)%Z) req -> 0 < prod_shape (Z.to_nat <$> req).
Proof.
  unfold prod_shape. induction 1 as [|d req Hd _ IH]; csimpl; [lia|].
  apply Nat.mul_pos_pos; [lia | exact IH].
Qed.

Lemma no_wildcard req :
  Forall (fun d => (0 < d)%Z) req -> filter (fun z => (z < 0)%Z) req = [].
Proof.
  induction 1 as [|d req Hd _ IH]; [done|].
  rewrite filter_cons_False by (simpl; lia). exact IH.
Qed.

Lemma all_known req :
  Forall (fun d => (0 < d)%Z) req -> filter (fun z => (0 <= z)%Z) req = req.
Proof.
  induction 1 as [|d req Hd _ IH]; [done|].
  rewrite filter_cons_True by (simpl; lia). by rewrite IH.
Qed.

(** Without a wildcard, the requested shape is taken as it is and must
    hold exactly the elements there are. *)
Lemma resolve_shape_pos sz req :
  Forall (fun d => (0 < d)%Z) req ->
  resolve_shape sz req
    = if prod_shape (Z.to_nat <$> req) =? sz then Some (Z.to_nat <$> req) else None.
Proof.
  intros Hpos. unfold resolve_shape.
  by rewrite (no_wildcard req Hpos), (all_known req Hpos).
Qed.

Lemma np_reshape_raises a req e : np_reshape a req = Raise e -> e = ValueError.
Proof.
  unfold np_reshape.
  destruct (resolve_shape _ _) as [s|]; [|by intros [= <-]]. simpl.
  destruct (unflatten _ _) as [b|]; [discriminate | by intros [= <-]].
Qed.

Lemma np_reshape_pos a req r :
  Forall (fun d => (0 < d)%Z) req ->
  np_reshape a req = Ok r ->
  shape r = Z.to_nat <$> req /\ size a = prod_shape (Z.to_nat <$> req).
Proof.
  intros Hpos. unfold np_reshape. rewrite resolve_shape_pos by done.
  destruct (_ =? _) eqn:E; [|discriminate]. apply Nat.eqb_eq in E. simpl.
  destruct (unflatten _ _) as [b|]; [|discriminate]. by intros [= <-].
Qed.

(** The two reshapes cannot both succeed: the second asks for fewer
    elements than the first left. *)
Lemma reshape_twice_fails a (dims : list Z) (n : Z) r :
  Forall (fun d => (0 < d)%Z) dims -> (1 < n)%Z ->
  np_reshape a (dims ++ [n]) = Ok r ->
  size r = prod_shape (Z.to_nat <$> dims) * Z.to_nat n /\
  prod_shape (Z.to_nat <$> dims) < size r /\
  np_reshape r dims = Raise ValueError.
Proof.
  intros Hpos Hn Hr.
  apply np_reshape_pos in Hr as [Hs _];
    [| apply Forall_app; split; [done | constructor; [lia | constructor]]].
  pose proof (prod_shape_pos _ Hpos) as Hp.
  assert (Hsz : size r = prod_shape (Z.to_nat <$> dims) * Z.to_nat n).
  { unfold size. rewrite Hs, fmap_app, prod_shape_app. unfold prod_shape. simpl. lia. }
  assert (Hlt : prod_shape (Z.to_nat <$> dims) < size r) by nia.
  split_and!; try done.
  unfold np_reshape. rewrite resolve_shape_pos by done.
  by rewrite (proj2 (Nat.eqb_neq _ _)) by lia.
Qed.

(** C10 (amended). With a single modality, sectionation enabled, a
    channel count above 1 and spatial dimensions that are all positive
    (no zero and no -1 wildcard among them), no item access returns a
    tensor: whenever loading, channel selection and augmentation get
    through, the access ends in a shape-mismatch [ValueError], raised by
    the loader's reshape to dim + (n_channels,) or else by the entry
    point's reshape of that result to dim, which asks for fewer elements
    by the channel factor. *)
Theorem sectionate_multichannel_never_returns fs self idx w :
  length (modality self) < 2 ->
  to_sectionate self = true ->
  (1 < n_channels self)%Z ->
  Forall (fun d => (0 < d)%Z) (dim self) ->
  (exists e, (__getitem__ fs self idx w).1 = Raise e) /\
  (forall pat_idx in_arr w1,
     index_values (labels self).*1 idx = Ok pat_idx ->
     load_single fs self pat_idx w = (Ok in_arr, w1) ->
     __getitem__ fs self idx w = (Raise ValueError, w1) /\
     (forall r, np_reshape in_arr (dim self ++ [n_channels self]) = Ok r ->
        size r = prod_shape (Z.to_nat <$> dim self) * Z.to_nat (n_channels self) /\
        np_reshape r (dim self) = Raise ValueError)).
Proof.
  intros Hmod Hsec Hn Hpos.
  assert (Hn1 : (n_channels self =? 1)%Z = false) by (apply Z.eqb_neq; lia).
  assert (Hcore : forall pat_idx in_arr w1,
    index_values (labels self).*1 idx = Ok pat_idx ->
    load_single fs self pat_idx w = (Ok in_arr, w1) ->
    __getitem__ fs self idx w = (Raise ValueError, w1)).
  { intros pat_idx in_arr w1 Hidx Hload.
    assert (Hgpa : get_pat_array fs self pat_idx w
                   = (np_reshape in_arr (dim self ++ [n_channels self]), w1)).
    { unfold get_pat_array. rewrite (M_bind_eval _ _ _ _ _ Hload).
      by rewrite Hsec, Hn1. }
    unfold __getitem__. rewrite M_bind_lift, Hidx.
    rewrite (proj2 (Nat.ltb_lt _ _) Hmod), (M_bind_eval _ _ _ _ _ Hgpa).
    destruct (np_reshape in_arr _) as [r|e] eqn:Hr.
    - destruct (reshape_twice_fails _ _ _ _ Hpos Hn Hr) as (_ & _ & Hfail).
      rewrite Hsec, M_bind_lift, Hfail. reflexivity.
    - by apply np_reshape_raises in Hr as ->. }
  split.
  - destruct (index_values (labels self).*1 idx) as [pat_idx|e] eqn:Hidx.
    + destruct (load_single fs self pat_idx w) as [[in_arr|e] w1] eqn:Hload.
      * exists ValueError. by rewrite (Hcore _ _ _ eq_refl Hload).
      * exists e. unfold __getitem__. rewrite M_bind_lift, Hidx.
        rewrite (proj2 (Nat.ltb_lt _ _) Hmod).
        assert (Hgpa : get_pat_array fs self pat_idx w = (Raise e, w1)).
        { unfold get_pat_array. by rewrite (M_bind_eval _ _ _ _ _ Hload). }
        by rewrite (M_bind_eval _ _ _ _ _ Hgpa).
    + exists e. unfold __getitem__. by rewrite M_bind_lift, Hidx.
  - intros pat_idx in_arr w1 Hidx Hload. split; [by eapply Hcore|].
    intros r Hr. by destruct (reshape_twice_fails _ _ _ _ Hpos Hn Hr) as (? & _ & ?).
Qed.

End ReshapeFacts.

(** ** Identifiers *)

Section StringFacts.

Lemma split_on_nonempty c s : split_on c s <> [].
Proof.
  destruct s as [|a s]; simpl; [done|].
  destruct (Ascii.eqb a c); [done|]. by destruct (split_on c s).
Qed.

(** Splitting at a separator put between two strings. *)
Lemma split_on_app c s t :
  split_on c (s +:+ String c t) = split_on c s ++ split_on c t.
Proof.
  induction s as [|a s IH]; simpl.
  - by rewrite Ascii.eqb_refl.
  - rewrite IH. destruct (Ascii.eqb a c); [done|].
    pose proof (split_on_nonempty c s). by destruct (split_on c s).
Qed.

(** Joining the segments with the separator gives the string back. *)
Lemma join_split c s : join (String c "") (split_on c s) = s.
Proof.
  unfold join. induction s as [|a s IH]; simpl; [done|].
  pose proof (split_on_nonempty c s) as Hne.
  destruct (Ascii.eqb a c) eqn:E.
  - apply Ascii.eqb_eq in E as ->.
    destruct (split_on c s) as [|y ys]; [done|]. simpl in *. by rewrite IH.
  - destruct (split_on c s) as [|y [|z zs]]; [done| |]; simpl in *; by rewrite <- IH.
Qed.

Lemma length_append (s t : string) :
  String.length (s +:+ t) = String.length s + String.length t.
Proof. induction s as [|a s IH]; simpl; [done|]. by rewrite IH. Qed.

Lemma append_neq (s t : string) : 0 < String.length t -> s +:+ t <> s.
Proof. intros Ht E. apply (f_equal String.length) in E. rewrite length_append in E. lia. Qed.

End StringFacts.

(** ** The flip scenario, end to end *)

Section ScenarioFacts.
Context {T L : Type} `{Lb : Libs T}.
Implicit Types (self : @DatasetGenerator T L Lb) (a r arr vol : ndarray T) (w : World).
Implicit Types (fs : gmap string (ndarray T)).

Lemma flip_at_shift axes : forall d (b : nd T),
  flip_at (S <$> axes) (S d) b = flip_at axes d b.
Proof.
  intros d b. revert d. induction b as [x|xs IH] using nd_nested_ind; intros d; simpl; [done|].
  assert (Hxs : flip_at (S <$> axes) (S (S d)) <$> xs = flip_at axes (S d) <$> xs).
  { apply Forall_fmap_ext. eapply Forall_impl; [exact IH|]. intros c Hc. apply Hc. }
  rewrite Hxs. f_equal.
  assert (Hdec : bool_decide (S d ∈ S <$> axes) = bool_decide (d ∈ axes)).
  { apply bool_decide_ext. rewrite list_elem_of_fmap. split.
    - intros (y & Hy & Hin). by injection Hy as ->.
    - intros Hin. by exists d. }
  by rewrite Hdec.
Qed.

(** Mirroring the spatial axes commutes with adding the unit channel
    axis in front. *)
Lemma flip_expand_dims a fa :
  np_flip a [0; 1; 2] = Ok fa ->
  np_flip (expand_dims0 a) [1; 2; 3] = Ok (expand_dims0 fa).
Proof.
  unfold np_flip, ndim. destruct (forallb _ [0; 1; 2]) eqn:E; [|discriminate].
  intros [= <-]. simpl in *.
  destruct (length (shape a)) as [|[|[|n]]]; simpl in E; try discriminate.
  unfold expand_dims0. simpl. do 2 f_equal.
  change [1; 2; 3] with (S <$> [0; 1; 2]). by rewrite flip_at_shift.
Qed.

Lemma loc_pair (I J : string) (l l' : L) :
  I <> J -> loc [(I, l); (J, l')] I = [l] /\ loc [(I, l); (J, l')] J = [l'].
Proof.
  intros Hne. unfold loc. split.
  - rewrite filter_cons_True by done. by rewrite filter_cons_False by (simpl; congruence).
  - rewrite filter_cons_False by (simpl; congruence). by rewrite filter_cons_True by done.
Qed.

Lemma load_single_eval fs self pat_idx w m vol x :
  modality self !! 0 = Some m ->
  np_load fs (path_join (data_dir self) (file_name self pat_idx m)) = Ok vol ->
  select_channels self vol = Ok x ->
  load_single fs self pat_idx w
    = augment self (last_segment (split_on "_"%char pat_idx)) x w.
Proof.
  intros Hm Hvol Hsel. unfold load_single.
  rewrite M_bind_lift, Hm. cbn [of_option].
  rewrite M_bind_lift, Hvol, M_bind_lift, Hsel. reflexivity.
Qed.

(** torch takes every array that has an axis. *)
Lemma from_numpy_array reshaped a : 0 < ndim a -> from_numpy reshaped a = Ok a.
Proof.
  intros H. unfold from_numpy. by rewrite (proj2 (Nat.eqb_neq _ _)) by lia.
Qed.

(** An item access with one modality, no sectionation and no hooks: the
    loaded array, under a unit channel axis for channel count 1, handed to
    torch. *)
Lemma getitem_plain_tensor fs self idx w pat_idx arr w1 :
  index_values (labels self).*1 idx = Ok pat_idx ->
  length (modality self) < 2 ->
  to_sectionate self = false ->
  transform self = None ->
  target_transform self = None ->
  load_single fs self pat_idx w = (Ok arr, w1) ->
  __getitem__ fs self idx w
    = (tensor ← from_numpy false (if (n_channels self =? 1)%Z then expand_dims0 arr else arr);
       Ok (tensor, loc (labels self) pat_idx), w1).
Proof.
  intros Hidx Hmod Hsec Htr Htt Hload.
  assert (Hgpa : get_pat_array fs self pat_idx w = (Ok arr, w1)).
  { unfold get_pat_array. rewrite (M_bind_eval _ _ _ _ _ Hload). by rewrite Hsec. }
  unfold __getitem__. rewrite M_bind_lift, Hidx.
  rewrite (proj2 (Nat.ltb_lt _ _) Hmod), (M_bind_eval _ _ _ _ _ Hgpa).
  rewrite Hsec, Htr, Htt, M_bind_lift.
  unfold call_hook, mbind, M_bind, lift, result_bind.
  by destruct (from_numpy false _).
Qed.

Lemma getitem_plain fs self idx w pat_idx arr w1 :
  index_values (labels self).*1 idx = Ok pat_idx ->
  length (modality self) < 2 ->
  to_sectionate self = false ->
  transform self = None ->
  target_transform self = None ->
  load_single fs self pat_idx w = (Ok arr, w1) ->
  0 < ndim (if (n_channels self =? 1)%Z then expand_dims0 arr else arr) ->
  __getitem__ fs self idx w
    = (Ok (if (n_channels self =? 1)%Z then expand_dims0 arr else arr,
           loc (labels self) pat_idx), w1).
Proof.
  intros Hidx Hmod Hsec Htr Htt Hload Hrank.
  rewrite (getitem_plain_tensor fs self idx w pat_idx arr w1) by done.
  by rewrite from_numpy_array.
Qed.

(** C7 (amended). The flip scenario for a base identifier of exactly
    two underscore-delimited segments, the second of which is not itself
    "flip" (such as "P_001"): with augmentation enabled, kinds ('flip',),
    channel count 1 and a four-axis volume file with at least four leading
    slices for the identifier, construction succeeds, the expanded table
    holds the identifier and the identifier followed by "_flip" with the
    same label, item 0 is leading slice 3 of the volume under a unit
    channel axis, and item 1 is that tensor mirrored along its three
    spatial axes: it has the shape of item 0, its voxel (0, i, j, k) is
    voxel (0, d0 - 1 - i, d1 - 1 - j, d2 - 1 - k) of item 0, and so its
    row-major sequence of voxels is that of item 0 reversed. *)
Theorem flip_scenario_two_segments fs (I : string) (l : L) (g : np_random) vol :
  length (split_on "_"%char I) = 2 ->
  last_segment (split_on "_"%char I) <> "flip" ->
  fs !! path_join "../../data/upenn_GBM/images/NIfTI-files/" (I +:+ "_" +:+ "FLAIR" +:+ ".npy")
    = Some vol ->
  wf vol = true -> ndim vol = 4 -> 4 <= length (children (body vol)) ->
  exists self w x fx,
    __init__ (flip_scenario I l) g = Ok (self, w) /\
    labels self = [(I, l); (I +:+ "_flip", l)] /\
    index0 3 vol = Ok x /\
    apply_flip self x = Ok fx /\
    __getitem__ fs self 0 w = (Ok (expand_dims0 x, [l]), w) /\
    __getitem__ fs self 1 w = (Ok (expand_dims0 fx, [l]), w) /\
    np_flip (expand_dims0 x) [1; 2; 3] = Ok (expand_dims0 fx) /\
    children (body vol) !! 3 = Some (body x) /\
    shape fx = shape x /\
    (forall d0 d1 d2 i j k,
       shape x = [d0; d1; d2] -> i < d0 -> j < d1 -> k < d2 ->
       exists v,
         nd_at [0; d0 - 1 - i; d1 - 1 - j; d2 - 1 - k] (body (expand_dims0 x)) = Some v /\
         nd_at [0; i; j; k] (body (expand_dims0 fx)) = Some v) /\
    flatten (body (expand_dims0 fx)) = reverse (flatten (body (expand_dims0 x))).
Proof.
  intros Hseg Hlast Hfile Hwf Hnd Hlead.
  destruct (wf_leading vol Hwf) as (n & s & xs & Hs & Hb & Hlen); [lia|].
  rewrite Hb in Hlead. simpl in Hlead.
  destruct (xs !! 3) as [b3|] eqn:H3;
    [| apply lookup_ge_None in H3; lia].
  assert (Hb3 : has_shape s b3 = true).
  { unfold wf in Hwf. rewrite Hs, Hb in Hwf.
    apply has_shape_leading in Hwf as [_ Hall].
    rewrite Forall_forall in Hall. apply Hall. by apply list_elem_of_lookup_2 in H3. }
  set (x := NdArray s b3).
  assert (Hx : index0 3 vol = Ok x).
  { unfold index0. rewrite Hs, Hb. simpl.
    rewrite (proj2 (Nat.ltb_lt _ _)) by lia. by rewrite H3. }
  assert (Hxs : length s = 3).
  { unfold ndim in Hnd. rewrite Hs in Hnd. simpl in Hnd. lia. }
  set (fx := NdArray s (flip_at [0; 1; 2] 0 b3)).
  assert (Hfx : np_flip x [0; 1; 2] = Ok fx).
  { unfold np_flip, ndim. simpl. by rewrite Hxs. }
  set (self := mkDataset [(I, l); (I +:+ "_flip", l)] [I; I +:+ "_flip"] 1 [70; 86; 86]%Z
                 "../../data/upenn_GBM/images/NIfTI-files/"
                 "../../data/upenn_GBM/csvs/radiomic_features_CaPTk/"
                 ["FLAIR"] true ["flip"] false None false None None).
  set (w := mkWorld (default_rng 42) (default_rng 42) g []).
  assert (Hne : I <> I +:+ "_flip").
  { intros E. symmetry in E. revert E. apply append_neq. simpl. lia. }
  destruct (loc_pair I (I +:+ "_flip") l l Hne) as [Hloc0 Hloc1].
  assert (Hsplit : split_on "_"%char (I +:+ "_flip") = split_on "_"%char I ++ ["flip"]).
  { change "_flip" with (String "_"%char "flip"). by rewrite split_on_app. }
  assert (Hname0 : file_name self I "FLAIR" = I +:+ "_" +:+ "FLAIR" +:+ ".npy").
  { unfold file_name. by rewrite Hseg. }
  assert (Hname1 : file_name self (I +:+ "_flip") "FLAIR" = I +:+ "_" +:+ "FLAIR" +:+ ".npy").
  { unfold file_name. rewrite Hsplit, length_app, Hseg. simpl.
    rewrite take_app_length' by done.
    change "_" with (String "_"%char "") at 1. by rewrite join_split. }
  assert (Hsel : select_channels self vol = Ok x) by exact Hx.
  assert (Hload0 : load_single fs self I w = (Ok x, w)).
  { rewrite (load_single_eval fs self I w "FLAIR" vol x); try done.
    - unfold augment, routed. rewrite bool_decide_eq_false_2; [done|].
      change (augment_types self) with ["flip"]. by rewrite list_elem_of_singleton.
    - rewrite Hname0. unfold np_load. change (data_dir self)
        with "../../data/upenn_GBM/images/NIfTI-files/". by rewrite Hfile. }
  assert (Hload1 : load_single fs self (I +:+ "_flip") w = (Ok fx, w)).
  { rewrite (load_single_eval fs self _ w "FLAIR" vol x); try done.
    - rewrite Hsplit. unfold last_segment. rewrite last_last.
      unfold augment, routed. rewrite bool_decide_eq_true_2
        by (change (augment_types self) with ["flip"]; by left).
      change (contains "flip" "flip") with true.
      change (contains "flip" "rotate") with false.
      change (contains "flip" "noise") with false.
      change (contains "flip" "deform") with false.
      cbv beta iota. rewrite M_bind_lift. unfold apply_flip.
      change (flip_axes self) with [0; 1; 2]. by rewrite Hfx.
    - rewrite Hname1. unfold np_load. change (data_dir self)
        with "../../data/upenn_GBM/images/NIfTI-files/". by rewrite Hfile. }
  assert (Hget0 : __getitem__ fs self 0 w = (Ok (expand_dims0 x, [l]), w)).
  { rewrite (getitem_plain fs self 0 w I x w); try done.
    - change (labels self) with [(I, l); (I +:+ "_flip", l)]. by rewrite Hloc0.
    - simpl. lia.
    - change (n_channels self) with 1%Z. unfold ndim. simpl. lia. }
  assert (Hget1 : __getitem__ fs self 1 w = (Ok (expand_dims0 fx, [l]), w)).
  { rewrite (getitem_plain fs self 1 w (I +:+ "_flip") fx w); try done.
    - change (labels self) with [(I, l); (I +:+ "_flip", l)]. by rewrite Hloc1.
    - simpl. lia.
    - change (n_channels self) with 1%Z. unfold ndim. simpl. lia. }
  exists self, w, x, fx. split_and!.
  - reflexivity.
  - reflexivity.
  - exact Hx.
  - exact Hfx.
  - exact Hget0.
  - exact Hget1.
  - by apply flip_expand_dims.
  - rewrite Hb. exact H3.
  - reflexivity.
  - intros d0 d1 d2 i j k Hsx Hi Hj Hk. simpl in Hsx. subst s.
    assert (Hin : Forall2 lt [d0 - 1 - i; d1 - 1 - j; d2 - 1 - k] [d0; d1; d2]).
    { repeat constructor; lia. }
    destruct (nd_at_in_bounds _ _ _ Hb3 Hin) as [v Hv].
    exists v. split; [exact Hv|].
    change (nd_at [i; j; k] (flip_at [0; 1; 2] 0 b3) = Some v).
    rewrite (nd_at_flip_at [0; 1; 2] [d0; d1; d2] 0 b3 [i; j; k] Hb3)
      by (repeat constructor; lia).
    by rewrite mirror_spatial.
  - simpl. rewrite !app_nil_r. apply (flatten_flip_all _ s); [done|].
    intros k Hk. rewrite Hxs in Hk.
    destruct k as [|[|[|k]]]; [| | | lia]; apply (bool_decide_unpack _); by vm_compute.
Qed.

End ScenarioFacts.

(** ** Feature preprocessing and encoding *)

Section EncodingFacts.
Context {T L : Type} `{Lb : Libs T}.
Implicit Types (self : @DatasetGenerator T L Lb) (a : @Args T L Lb) (arr : ndarray T).
Implicit Types (fs : gmap string (ndarray T)).

(** The table is asked for under FLAIR when the first modality is the
    placeholder, and under the first modality otherwise. *)
Lemma load_radiomics_modality csv mods ids m e :
  mods !! 0 = Some m ->
  retrieve_data csv (if String.eqb m "mod" then "FLAIR" else m) = Raise e ->
  load_radiomics csv mods ids = Raise e.
Proof. intros Hm Hr. unfold load_radiomics. rewrite Hm. simpl. by rewrite Hr. Qed.

Lemma load_radiomics_raises csv mods ids : exists e, load_radiomics csv mods ids = Raise e.
Proof.
  unfold load_radiomics.
  destruct (mods !! 0) as [m|]; simpl; [|by eexists].
  destruct (retrieve_data _ _) as [t|e]; simpl; [|by eexists].
  destruct (frame_loc _ _) as [r|e]; simpl; by eexists.
Qed.

(** C9 (what the code does). With encoding enabled the constructor
    never returns: it asks the collaborator for the table of the first
    modality (FLAIR for the placeholder "mod"), restricts it to the
    identifiers, and then raises [NameError] at [StandardScaler], before
    any column is standardized.  (A negative seed stops it earlier still,
    with [ValueError] at the first generator.) *)
Theorem init_with_encoding_raises a (g : np_random) :
  arg_to_encode a = true ->
  (exists e, __init__ a g = Raise e) /\
  (forall m table restricted,
     arg_modality a !! 0 = Some m ->
     retrieve_data (arg_csv_dir a) (if String.eqb m "mod" then "FLAIR" else m) = Ok table ->
     frame_loc table (arg_data_indices a) = Ok restricted ->
     __init__ a g = Raise (if (arg_seed a <? 0)%Z then ValueError else NameError)).
Proof.
  intros He. split.
  - destruct (Z.lt_ge_cases (arg_seed a) 0) as [Hneg|Hseed].
    + exists ValueError. by apply init_negative_seed.
    + rewrite init_unfold by done. rewrite He.
      destruct (load_radiomics_raises (arg_csv_dir a) (arg_modality a) (arg_data_indices a))
        as [e ->]. by exists e.
  - intros m table restricted Hm Ht Hr.
    destruct (Z.ltb_spec (arg_seed a) 0) as [Hneg|Hseed]; [by apply init_negative_seed|].
    rewrite init_unfold by done. rewrite He.
    unfold load_radiomics. rewrite Hm. simpl. rewrite Ht. simpl. by rewrite Hr.
Qed.

Lemma stack_modalities_encoding fs self pat_idx flag table mods : forall imod arr,
  stack_modalities fs (with_encoding flag table self) pat_idx imod mods arr
    = stack_modalities fs self pat_idx imod mods arr.
Proof.
  induction mods as [|m mods IH]; intros imod arr; simpl; [done|].
  change (np_load fs (path_join (data_dir (with_encoding flag table self))
                        (file_name (with_encoding flag table self) pat_idx m)))
    with (np_load fs (path_join (data_dir self) (file_name self pat_idx m))).
  destruct (np_load fs _) as [vol|]; simpl; [|done].
  destruct (index0 3 vol) as [whole|]; simpl; [|done].
  destruct (set_item0 imod whole arr) as [arr'|]; simpl; [|done].
  apply IH.
Qed.

(** C8 (what the code does). Item access never encodes: its result is
    the same whatever the encoding flag and feature table of the
    instance are; [encode], which nothing calls, raises on its first
    statement; and the window it would assign a 15 x 9 block to is 13
    rows by 9 columns. *)
Theorem getitem_never_encodes fs self idx (w : World) flag table :
  __getitem__ fs (with_encoding flag table self) idx w = __getitem__ fs self idx w /\
  (forall arr id, encode self arr id = Raise AttributeError) /\
  encode_rows.2 - encode_rows.1 = 13 /\
  encode_cols.2 - encode_cols.1 = 9 /\
  encode_block = (15, 9).
Proof.
  split_and!; try reflexivity.
  unfold __getitem__.
  apply M_bind_cong; [reflexivity|]. intros pat_idx w1.
  apply M_bind_cong; [|reflexivity].
  change (modality (with_encoding flag table self)) with (modality self).
  destruct (length (modality self) <? 2); [reflexivity|].
  unfold get_pat_mod_array.
  apply M_bind_cong; [reflexivity|]. intros empty w2.
  apply M_bind_cong; [|reflexivity].
  change (modality (with_encoding flag table self)) with (modality self).
  by rewrite stack_modalities_encoding.
Qed.

End EncodingFacts.

(** ** The properties on concrete inputs *)

Lemma index_expander_table_witness :
  let a := ex_config "P_001" ["FLAIR"] [2; 2; 2]%Z 3 true ["flip"; "rotate"] false in
  arg_to_encode a = false /\
  arg_to_augment a = true /\
  NoDup (arg_augment_types a) /\
  (0 <= arg_seed a)%Z /\
  __init__ a 0%Z = Ok (constructed a, constructed_world a 0%Z) /\
  labels (constructed a) = [("P_001", 7); ("P_001_flip", 7); ("P_001_rotate", 7)] /\
  __len__ (constructed a) = 3.
Proof.
  intros a.
  assert (H1 : arg_to_augment a = true) by reflexivity.
  assert (H2 : NoDup (arg_augment_types a)).
  { apply (bool_decide_unpack _). vm_compute. exact I. }
  assert (H0 : arg_to_encode a = false) by reflexivity.
  assert (Hs : (0 <= arg_seed a)%Z) by (vm_compute; discriminate).
  destruct (@index_expander_table Z nat ex_libs a 0%Z H0 H1 H2) as [_ Hpos].
  destruct (Hpos Hs) as (self & w & Hi & Hl & Hn & _).
  assert (H3 : __init__ a 0%Z = Ok (constructed a, constructed_world a 0%Z)) by reflexivity.
  rewrite H3 in Hi. injection Hi as <- <-.
  split_and!; [exact H0 | exact H1 | exact H2 | exact Hs | exact H3
              | rewrite Hl; reflexivity | rewrite Hn; reflexivity].
Defined.

(** With a kind listed twice the dict keeps one copy: the label table
    gets one block where the identifier list gets two. *)
Example expander_duplicate_kinds :
  let self := constructed (ex_config "P_001" ["FLAIR"] [2; 2; 2]%Z 3 true ["flip"; "flip"] false) in
  labels self = [("P_001", 7); ("P_001_flip", 7)] /\
  data_indices self = ["P_001"; "P_001_flip"; "P_001_flip"].
Proof. split; reflexivity. Qed.

Lemma augmentation_deterministic_witness :
  let a := ex_stack_args in
  let run gl := (replay ex_fs (constructed a) [1; 2; 3; 1]%Z (constructed_world a gl)).2 in
  __init__ a 0%Z = Ok (constructed a, constructed_world a 0%Z) /\
  __init__ a 9%Z = Ok (constructed a, constructed_world a 9%Z) /\
  angles (trace (run 0%Z)) = angles (trace (run 9%Z)) /\
  noise_outcomes (trace (run 0%Z)) = noise_outcomes (trace (run 9%Z)) /\
  angles (trace (run 0%Z)) = [-138; 33]%Z /\
  length (noise_outcomes (trace (run 0%Z))) = 1.
Proof.
  intros a run.
  assert (H1 : __init__ a 0%Z = Ok (constructed a, constructed_world a 0%Z)) by reflexivity.
  assert (H2 : __init__ a 9%Z = Ok (constructed a, constructed_world a 9%Z)) by reflexivity.
  destruct (@augmentation_deterministic Z nat ex_libs a 0%Z 9%Z _ _ _ _ ex_fs
              [1; 2; 3; 1]%Z H1 H2)
    as (Ha & Hn & _).
  split_and!; [exact H1 | exact H2 | exact Ha | exact Hn | vm_compute; reflexivity
              | vm_compute; reflexivity].
Defined.

Lemma apply_flip_involution_copy_witness :
  let self := constructed (ex_args "P_001" ["flip"] 1) in
  buffer ex_obj ∈ dom ex_heap /\
  (if (n_channels self =? 1)%Z then 3 else 4) <= length (view_shape ex_obj) /\
  exists o1 h1 o2 h2,
    apply_flip_obj self ex_heap ex_obj = Ok (o1, h1) /\
    apply_flip_obj self h1 o1 = Ok (o2, h2) /\
    read h2 o2 = read ex_heap ex_obj /\
    buffer o1 <> buffer ex_obj /\
    (forall v, read (assign h1 ex_obj v) o1 = read h1 o1).
Proof.
  intros self.
  assert (H1 : buffer ex_obj ∈ dom ex_heap).
  { apply elem_of_dom. exists (body (arange [2; 2; 2])). reflexivity. }
  assert (H2 : (if (n_channels self =? 1)%Z then 3 else 4) <= length (view_shape ex_obj)).
  { vm_compute. lia. }
  destruct (@apply_flip_involution_copy Z nat ex_libs self ex_heap ex_obj H1 H2)
    as (o1 & h1 & o2 & h2 & Ha & Hb & _ & _ & _ & _ & Hc & _ & Hd & _ & He & _).
  split; [exact H1|]. split; [exact H2|].
  exists o1, h1, o2, h2. split_and!; assumption.
Defined.

Lemma select_channels_by_count_witness :
  let self := constructed (ex_args "P_001" ["flip"] 4) in
  wf ex_volume = true /\
  ndim ex_volume = 4 /\
  exists r, select_channels self ex_volume = Ok r /\ shape r = [4; 2; 2; 2] /\ ndim r = 4.
Proof.
  intros self.
  assert (H1 : wf ex_volume = true) by reflexivity.
  assert (H2 : ndim ex_volume = 4) by reflexivity.
  destruct (@select_channels_by_count Z nat ex_libs self ex_volume H1 H2)
    as (n & s & xs & Hs & Hb & Hlen & _ & H4 & _ & _ & Hrank).
  injection Hs as <- <-.
  destruct (H4 eq_refl) as [Hsel _].
  destruct Hsel as (x0 & x1 & x2 & x4 & _ & _ & _ & _ & Hsel); [lia|].
  split; [exact H1|]. split; [exact H2|].
  eexists. split; [exact Hsel|]. split; [reflexivity|].
  apply (Hrank _ Hsel).
Defined.

Lemma multi_modality_leading_axis_witness :
  let a := ex_stack_args in
  let self := constructed a in
  let w := constructed_world a 0%Z in
  1 < length (arg_modality a) /\
  __init__ a 0%Z = Ok (self, w) /\
  @noise_keeps_shape Z ex_libs /\
  @deform_keeps_shape Z ex_libs /\
  (exists arr w',
     get_pat_mod_array ex_fs self "P_001_noise" w = (Ok arr, w') /\
     shape arr = [3; 2; 2; 2]) /\
  Forall (fun d => (0 <= d)%Z) (arg_dim a) /\
  routed self (last_segment (split_on "_"%char "P_001")) = false /\
  exists arr,
    get_pat_mod_array ex_fs self "P_001" w = (Ok arr, w) /\
    shape arr = [3; 2; 2; 2] /\
    children (body arr) !! 0 = children (body ex_volume) !! 3 /\
    children (body arr) !! 1 = children (body (shift 100 ex_volume)) !! 3 /\
    children (body arr) !! 2 = children (body (shift 200 ex_volume)) !! 3 /\
    flatten (body arr)
      = [24; 25; 26; 27; 28; 29; 30; 31;
         124; 125; 126; 127; 128; 129; 130; 131;
         224; 225; 226; 227; 228; 229; 230; 231]%Z.
Proof.
  intros a self w.
  assert (H1 : 1 < length (arg_modality a)) by (vm_compute; lia).
  assert (H2 : __init__ a 0%Z = Ok (self, w)) by reflexivity.
  assert (H3 : @noise_keeps_shape Z ex_libs).
  { intros x gen r gen' E. simpl in E. injection E as <- _. reflexivity. }
  assert (H4 : @deform_keeps_shape Z ex_libs).
  { intros x axes gl r gl' E. simpl in E. injection E as <- _. reflexivity. }
  destruct (get_pat_mod_array ex_fs self "P_001_noise" w) as [[arr|e] w'] eqn:H5;
    [|vm_compute in H5; discriminate H5].
  destruct (@multi_modality_leading_axis Z nat ex_libs a 0%Z self w ex_fs "P_001_noise"
              w H1 H2 H3 H4) as [Hout _].
  rewrite H5 in Hout.
  destruct (Hout arr w' eq_refl) as (empty & stacked & _ & _ & _ & _ & _ & Hshape & _).
  assert (H6 : Forall (fun d => (0 <= d)%Z) (arg_dim a)).
  { repeat constructor; vm_compute; discriminate. }
  assert (H7 : routed self (last_segment (split_on "_"%char "P_001")) = false) by reflexivity.
  assert (H8 : forall m, m ∈ arg_modality a ->
    exists vol n c,
      ex_fs !! path_join (data_dir self) (file_name self "P_001" m) = Some vol /\
      shape vol = n :: (Z.to_nat <$> arg_dim a) /\ 3 < n /\
      children (body vol) !! 3 = Some c /\
      has_shape (Z.to_nat <$> arg_dim a) c = true).
  { intros m Hm. change (arg_modality a) with ["FLAIR"; "T1"; "T2"] in Hm.
    repeat (apply elem_of_cons in Hm as [->|Hm]);
      [| | | by apply elem_of_nil in Hm];
      eexists _, 5, _; split_and!;
        [vm_compute; reflexivity | reflexivity | lia | vm_compute; reflexivity | reflexivity
        |vm_compute; reflexivity | reflexivity | lia | vm_compute; reflexivity | reflexivity
        |vm_compute; reflexivity | reflexivity | lia | vm_compute; reflexivity | reflexivity]. }
  destruct (@multi_modality_leading_axis Z nat ex_libs a 0%Z self w ex_fs "P_001"
              w H1 H2 H3 H4) as [_ Hret].
  destruct (Hret H6 H8 H7) as (plain & Hget & Hps & _ & Hslots).
  assert (Hslot : forall i m vol,
    arg_modality a !! i = Some m ->
    ex_fs !! path_join (data_dir self) (file_name self "P_001" m) = Some vol ->
    children (body plain) !! i = children (body vol) !! 3).
  { intros i m vol Hm Hfile.
    destruct (Hslots i m Hm) as (vol' & c & Hfile' & Hc & Hi).
    rewrite Hfile in Hfile'. injection Hfile' as <-. by rewrite Hi, Hc. }
  split_and!; try assumption.
  - exists arr, w'. split; [reflexivity|]. rewrite Hshape. reflexivity.
  - exists plain. split_and!; [exact Hget | by rewrite Hps | | | |].
    + apply (Hslot 0 "FLAIR"); [reflexivity | vm_compute; reflexivity].
    + apply (Hslot 1 "T1"); [reflexivity | vm_compute; reflexivity].
    + apply (Hslot 2 "T2"); [reflexivity | vm_compute; reflexivity].
    + vm_compute in Hget. injection Hget as <-. reflexivity.
Defined.

Lemma flip_scenario_two_segments_witness :
  length (split_on "_"%char "P_001") = 2 /\
  last_segment (split_on "_"%char "P_001") <> "flip" /\
  ex_fs !! path_join "../../data/upenn_GBM/images/NIfTI-files/"
             ("P_001" +:+ "_" +:+ "FLAIR" +:+ ".npy") = Some ex_volume /\
  exists self w item0 item1,
    @__init__ Z nat ex_libs (flip_scenario "P_001" 7) 0%Z = Ok (self, w) /\
    labels self = [("P_001", 7); ("P_001_flip", 7)] /\
    __getitem__ ex_fs self 0 w = (Ok (item0, [7]), w) /\
    __getitem__ ex_fs self 1 w = (Ok (item1, [7]), w) /\
    np_flip item0 [1; 2; 3] = Ok item1 /\
    shape item0 = [1; 2; 2; 2] /\
    shape item1 = [1; 2; 2; 2] /\
    flatten (body item0) = [24; 25; 26; 27; 28; 29; 30; 31]%Z /\
    flatten (body item1) = [31; 30; 29; 28; 27; 26; 25; 24]%Z /\
    nd_at [0; 1; 1; 0] (body item0) = Some 30%Z /\
    nd_at [0; 0; 0; 1] (body item1) = Some 30%Z.
Proof.
  assert (H1 : length (split_on "_"%char "P_001") = 2) by reflexivity.
  assert (H2 : last_segment (split_on "_"%char "P_001") <> "flip") by discriminate.
  assert (H3 : ex_fs !! path_join "../../data/upenn_GBM/images/NIfTI-files/"
                          ("P_001" +:+ "_" +:+ "FLAIR" +:+ ".npy") = Some ex_volume)
    by (vm_compute; reflexivity).
  assert (H4 : wf ex_volume = true) by reflexivity.
  assert (H5 : ndim ex_volume = 4) by reflexivity.
  assert (H6 : 4 <= length (children (body ex_volume))) by (vm_compute; lia).
  destruct (@flip_scenario_two_segments Z nat ex_libs ex_fs "P_001" 7 0%Z ex_volume
              H1 H2 H3 H4 H5 H6)
    as (self & w & x & fx & Ha & Hb & _ & _ & Hc & Hd & He & _).
  (* the two items as the accesses compute them *)
  pose proof Ha as Ha'. vm_compute in Ha'. injection Ha' as <- <-.
  destruct x as [sx bx], fx as [sfx bfx].
  pose proof Hc as Hc'. vm_compute in Hc'. injection Hc' as <- <-.
  pose proof Hd as Hd'. vm_compute in Hd'. injection Hd' as <- <-.
  split_and!; try assumption.
  eexists _, _, _, _.
  split_and!; [exact Ha | exact Hb | exact Hc | exact Hd | exact He | | | | | |];
    reflexivity.
Defined.

Lemma init_with_encoding_raises_witness :
  arg_to_encode ex_encoding_args = true /\
  @__init__ Z nat ex_libs ex_encoding_args 0%Z = Raise NameError.
Proof.
  assert (H1 : arg_to_encode ex_encoding_args = true) by reflexivity.
  destruct (@init_with_encoding_raises Z nat ex_libs ex_encoding_args 0%Z H1) as [_ H].
  split; [exact H1|].
  apply (H "mod" () ()); reflexivity.
Defined.

Lemma sectionate_multichannel_never_returns_witness :
  let a := ex_config "P_001" ["FLAIR"] [2; 2; 2]%Z 3 false [] true in
  let self := constructed a in
  let w := constructed_world a 0%Z in
  length (modality self) < 2 /\
  to_sectionate self = true /\
  (1 < n_channels self)%Z /\
  Forall (fun d => (0 < d)%Z) (dim self) /\
  (__getitem__ ex_fs self 0 w).1 = Raise ValueError.
Proof.
  intros a self w.
  assert (H1 : length (modality self) < 2) by (vm_compute; lia).
  assert (H2 : to_sectionate self = true) by reflexivity.
  assert (H3 : (1 < n_channels self)%Z) by (vm_compute; reflexivity).
  assert (H4 : Forall (fun d => (0 < d)%Z) (dim self)).
  { vm_compute. repeat constructor. }
  destruct (@sectionate_multichannel_never_returns Z nat ex_libs ex_fs self 0%Z w H1 H2 H3 H4)
    as [_ H].
  split_and!; try assumption.
  destruct (load_single ex_fs self "P_001" w) as [[in_arr|e] w1] eqn:Hload;
    [|vm_compute in Hload; discriminate Hload].
  destruct (H "P_001" in_arr w1 eq_refl Hload) as [-> _]. reflexivity.
Defined.

(** ** Where the code departs from the specification's wording *)

(** Routing is not a substring match.  With kinds ('rotate',) the
    identifier "X_rot" ends in a segment that occurs within a kind name, yet
    its array is not rotated and no angle is drawn; with kinds ('flip',)
    the identifier "X_xflip" ends in a segment that a kind name occurs
    within, yet its array is not flipped. *)
Lemma routing_is_not_substring_match :
  let a := ex_args "X_rot" ["rotate"] 3 in
  let self := constructed a in
  let w := constructed_world a 0%Z in
  let a' := ex_args "X_xflip" ["flip"] 3 in
  let self' := constructed a' in
  let w' := constructed_world a' 0%Z in
  (last_segment (split_on "_"%char "X_rot") = "rot" /\
   routed_by_substring self "rot" = true /\
   routed self "rot" = false /\
   index_values (labels self).*1 0 = Ok "X_rot" /\
   __getitem__ ex_fs self 0 w
     = (Ok (NdArray [3; 2; 2; 2] (Dim (take 3 (children (body ex_volume)))), [7]), w) /\
   trace w = []) /\
  (last_segment (split_on "_"%char "X_xflip") = "xflip" /\
   routed_by_superstring self' "xflip" = true /\
   routed self' "xflip" = false /\
   index_values (labels self').*1 0 = Ok "X_xflip" /\
   __getitem__ ex_fs self' 0 w'
     = (Ok (NdArray [3; 2; 2; 2] (Dim (take 3 (children (body ex_volume)))), [7]), w')).
Proof. split; split_and!; vm_compute; reflexivity. Qed.

(** The scenario of the specification fails for "P001": the expanded table
    holds "P001" and "P001_flip", item 0 is returned, but for item 1 the
    loader asks for the file of "P001_flip", which does not exist, because
    the suffix is dropped only from identifiers of three segments. *)
Lemma flip_scenario_P001_raises :
  exists self w,
    @__init__ Z nat ex_libs (flip_scenario "P001" 7) 0%Z = Ok (self, w) /\
    (labels self).*1 = ["P001"; "P001_flip"] /\
    ex_fs !! "../../data/upenn_GBM/images/NIfTI-files/P001_FLAIR.npy" = Some ex_volume /\
    is_Ok (__getitem__ ex_fs self 0 w).1 /\
    file_name self "P001_flip" "FLAIR" = "P001_flip_FLAIR.npy" /\
    __getitem__ ex_fs self 1 w = (Raise FileNotFoundError, w).
Proof.
  eexists _, _. split; [reflexivity|].
  split_and!; vm_compute; (reflexivity || exact I).
Qed.

(** Sectionation with several channels does return a tensor when the
    spatial dimensions hold a -1 wildcard, or a zero. *)
Lemma sectionate_with_wildcard_returns :
  let a := ex_config "P_001" ["FLAIR"] [-1; 2; 2]%Z 3 false [] true in
  let self := constructed a in
  let a0 := ex_config "E_0" ["FLAIR"] [0; 2; 2]%Z 3 false [] true in
  let self0 := constructed a0 in
  (length (modality self) = 1 /\ to_sectionate self = true /\ n_channels self = 3%Z /\
   exists tensor,
     (__getitem__ ex_fs self 0 (constructed_world a 0%Z)).1 = Ok (tensor, [7]) /\
     shape tensor = [6; 2; 2]) /\
  (length (modality self0) = 1 /\ to_sectionate self0 = true /\ n_channels self0 = 3%Z /\
   exists tensor,
     (__getitem__ ex_fs self0 0 (constructed_world a0 0%Z)).1 = Ok (tensor, [7]) /\
     shape tensor = [0; 2; 2]).
Proof.
  split; split_and!; try reflexivity; eexists; split; vm_compute; reflexivity.
Qed.

(** * Further properties of the class *)

(** ** Positional access *)

Section AccessFacts.
Context {T L : Type} `{Lb : Libs T}.
Implicit Types (self : @DatasetGenerator T L Lb) (arr : ndarray T) (w : World).
Implicit Types (fs : gmap string (ndarray T)).

Lemma index_values_out_of_range {A} (l : list A) (idx : Z) :
  (idx < - Z.of_nat (length l) \/ Z.of_nat (length l) <= idx)%Z ->
  index_values l idx
    = Raise (if (idx <? - 2 ^ 63)%Z || (2 ^ 63 <=? idx)%Z then OverflowError else IndexError).
Proof.
  intros H. unfold index_values.
  destruct (Z.leb_spec 0 idx), (Z.ltb_spec idx (Z.of_nat (length l))),
    (Z.leb_spec (- Z.of_nat (length l)) idx), (Z.ltb_spec idx 0);
    cbn [andb]; try lia; by destruct (_ || _).
Qed.

Lemma index_values_negative {A} (l : list A) (idx : Z) :
  (- Z.of_nat (length l) <= idx < 0)%Z ->
  index_values l idx = index_values l (Z.of_nat (length l) + idx).
Proof.
  intros H. unfold index_values.
  rewrite (proj2 (Z.leb_gt 0 idx)) by lia. simpl.
  rewrite (proj2 (Z.leb_le _ _)), (proj2 (Z.ltb_lt idx 0)) by lia. simpl.
  rewrite (proj2 (Z.leb_le 0 _)), (proj2 (Z.ltb_lt _ _)) by lia. reflexivity.
Qed.

Lemma index_values_in_range {A} (l : list A) (idx : Z) :
  (0 <= idx < Z.of_nat (length l))%Z ->
  exists x, l !! Z.to_nat idx = Some x /\ index_values l idx = Ok x.
Proof.
  intros H. unfold index_values.
  rewrite (proj2 (Z.leb_le 0 idx)), (proj2 (Z.ltb_lt _ _)) by lia. simpl.
  destruct (l !! Z.to_nat idx) as [x|] eqn:E; [by exists x|].
  apply lookup_ge_None in E. lia.
Qed.

(** An index outside [-len, len) raises before anything is loaded: no
    file is read, no hook is called and neither generator is advanced.
    The exception is [IndexError] for every index that fits numpy's 64-bit
    index type. *)
Theorem getitem_out_of_range fs self idx w :
  (idx < - Z.of_nat (__len__ self) \/ Z.of_nat (__len__ self) <= idx)%Z ->
  (exists e, __getitem__ fs self idx w = (Raise e, w)) /\
  ((- 2 ^ 63 <= idx < 2 ^ 63)%Z -> __getitem__ fs self idx w = (Raise IndexError, w)).
Proof.
  intros H.
  assert (Hget : __getitem__ fs self idx w
                 = (Raise (if (idx <? - 2 ^ 63)%Z || (2 ^ 63 <=? idx)%Z
                           then OverflowError else IndexError), w)).
  { unfold __getitem__. rewrite M_bind_lift.
    rewrite index_values_out_of_range; [done|]. by rewrite length_fmap. }
  split; [by eexists|]. intros Hfit. rewrite Hget.
  rewrite (proj2 (Z.ltb_ge _ _)), (proj2 (Z.leb_gt _ _)) by lia. done.
Qed.

(** A negative index counts from the end of the expanded table: item
    [idx] is item [len + idx]. *)
Theorem getitem_negative_index fs self idx w :
  (- Z.of_nat (__len__ self) <= idx < 0)%Z ->
  __getitem__ fs self idx w = __getitem__ fs self (Z.of_nat (__len__ self) + idx) w.
Proof.
  intros H. unfold __getitem__. rewrite !M_bind_lift.
  rewrite index_values_negative by (by rewrite length_fmap).
  by rewrite length_fmap.
Qed.

End AccessFacts.

(** ** Accesses that draw no random numbers *)

Section ConstantFacts.
Context {T L : Type} `{Lb : Libs T}.
Implicit Types (self : @DatasetGenerator T L Lb) (arr : ndarray T) (w : World).
Implicit Types (fs : gmap string (ndarray T)).

Lemma constant_lift {A} (r : result A) : constant (lift r).
Proof. by exists r. Qed.

Lemma constant_ret {A} (x : A) : constant (mret x : M A).
Proof. by exists (Ok x). Qed.

Lemma constant_bind {A B} (m : M A) (k : A -> M B) :
  constant m -> (forall x, constant (k x)) -> constant (m ≫= k).
Proof.
  intros [r Hm] Hk. destruct r as [x|e].
  - destruct (Hk x) as [r' Hx]. exists r'. intros w.
    by rewrite (M_bind_eval _ _ _ _ _ (Hm w)).
  - exists (Raise e). intros w. by rewrite (M_bind_eval _ _ _ _ _ (Hm w)).
Qed.

Lemma constant_bind_Ok {A B} (x : A) (k : A -> M B) :
  constant (k x) -> constant (lift (Ok x) ≫= k).
Proof. intros [r H]. exists r. intros w. rewrite M_bind_lift. apply H. Qed.

Lemma constant_no_hook {A} (x : A) : constant (call_hook None x).
Proof. by exists (Ok x). Qed.

Lemma constant_augment self aug arr :
  routed self aug = false \/ draws_nothing aug = true ->
  constant (augment self aug arr).
Proof.
  intros H. unfold augment.
  destruct (routed self aug); [|apply constant_ret].
  destruct H as [H|H]; [discriminate|].
  unfold draws_nothing in H.
  apply andb_true_iff in H as [H Hd]. apply andb_true_iff in H as [Hr Hn].
  apply negb_true_iff in Hr, Hn, Hd. rewrite Hr, Hn, Hd.
  apply constant_bind.
  { destruct (contains aug "flip"); [apply constant_lift | apply constant_ret]. }
  intros a1. apply constant_bind; [apply constant_ret|].
  intros a2. apply constant_bind; [apply constant_ret|].
  intros a3. apply constant_ret.
Qed.

(** On an instance without hooks, an access whose identifier is not
    routed to the augmentor, or is routed to nothing but the flip, gives
    the same result every time it is made and leaves both generators,
    numpy's global state and the trace as they were. *)
Theorem access_without_randomness fs self idx pat_idx :
  transform self = None ->
  target_transform self = None ->
  index_values (labels self).*1 idx = Ok pat_idx ->
  routed self (last_segment (split_on "_"%char pat_idx)) = false
  \/ draws_nothing (last_segment (split_on "_"%char pat_idx)) = true ->
  constant (__getitem__ fs self idx).
Proof.
  intros Htr Htt Hidx Haug. unfold __getitem__. rewrite Hidx, Htr, Htt.
  apply constant_bind_Ok.
  apply constant_bind.
  - destruct (length (modality self) <? 2).
    + unfold get_pat_array. apply constant_bind.
      * unfold load_single.
        apply constant_bind; [apply constant_lift|]. intros mod0.
        apply constant_bind; [apply constant_lift|]. intros vol.
        apply constant_bind; [apply constant_lift|]. intros in_arr.
        by apply constant_augment.
      * intros in_arr. destruct (to_sectionate self); [|apply constant_ret].
        destruct (n_channels self =? 1)%Z; apply constant_lift.
    + unfold get_pat_mod_array.
      apply constant_bind; [apply constant_lift|]. intros empty.
      apply constant_bind; [apply constant_lift|]. intros stacked.
      by apply constant_augment.
  - intros in_arr.
    apply constant_bind; [apply constant_lift|]. intros a1.
    apply constant_bind; [apply constant_no_hook|]. intros a2.
    apply constant_bind; [apply constant_no_hook|]. intros lbl.
    apply constant_bind; [apply constant_lift|]. intros tensor.
    apply constant_ret.
Qed.

End ConstantFacts.

(** ** Virtual identifiers: from the constructor to the loader *)

Section VirtualFacts.
Context {T L : Type} `{Lb : Libs T}.
Implicit Types (self : @DatasetGenerator T L Lb) (arr : ndarray T) (w : World).
Implicit Types (fs : gmap string (ndarray T)) (I k m : string).

Lemma split_on_free c s : free_of c s = true -> split_on c s = [s].
Proof.
  induction s as [|a s IH]; simpl; [done|].
  intros H. apply andb_true_iff in H as [Ha Hs].
  apply negb_true_iff in Ha. rewrite Ha, (IH Hs). done.
Qed.

Lemma split_on_virtual I k :
  split_on "_"%char (virtual_id I k) = split_on "_"%char I ++ split_on "_"%char k.
Proof.
  unfold virtual_id. change ("_" +:+ k) with (String "_"%char k). apply split_on_app.
Qed.

Lemma last_segment_app (l1 l2 : list string) :
  l2 <> [] -> last_segment (l1 ++ l2) = last_segment l2.
Proof.
  intros Hne. unfold last_segment.
  induction l1 as [|x l1 IH]; simpl; [done|].
  destruct (l1 ++ l2) eqn:E; [|exact IH].
  apply app_eq_nil in E as [_ ->]. contradiction.
Qed.

Lemma file_name_virtual self I k m :
  to_augment self = true ->
  free_of "_"%char k = true ->
  length (split_on "_"%char I) = 2 ->
  file_name self (virtual_id I k) m = I +:+ "_" +:+ m +:+ ".npy".
Proof.
  intros Haug Hk H2. unfold file_name. rewrite Haug, split_on_virtual.
  rewrite (split_on_free _ _ Hk), length_app, H2. simpl.
  rewrite take_app_length' by done.
  change "_" with (String "_"%char "") at 1. by rewrite join_split.
Qed.

Lemma last_segment_virtual I k :
  last_segment (split_on "_"%char (virtual_id I k)) = last_segment (split_on "_"%char k).
Proof. rewrite split_on_virtual. apply last_segment_app, split_on_nonempty. Qed.

(** The file asked for a virtual identifier whose kind holds no
    underscore: the file of the base identifier when that one has two
    segments, and otherwise a file named after the virtual identifier
    itself, suffix included. *)
Theorem virtual_id_file self I k m :
  to_augment self = true ->
  free_of "_"%char k = true ->
  (length (split_on "_"%char I) = 2 ->
     file_name self (virtual_id I k) m = I +:+ "_" +:+ m +:+ ".npy" /\
     file_name self (virtual_id I k) m = file_name self I m) /\
  (length (split_on "_"%char I) <> 2 ->
     file_name self (virtual_id I k) m = virtual_id I k +:+ "_" +:+ m +:+ ".npy").
Proof.
  intros Haug Hk. split.
  - intros H2. rewrite (file_name_virtual self I k m Haug Hk H2). split; [done|].
    unfold file_name. by rewrite H2, andb_false_r.
  - intros H2. unfold file_name. rewrite Haug, split_on_virtual.
    rewrite (split_on_free _ _ Hk), length_app. simpl.
    by rewrite (proj2 (Nat.eqb_neq _ _)) by lia.
Qed.

(** Which kind decides the routing of a virtual identifier: the part of
    the kind after its last underscore.  A kind without underscore that
    is configured is routed; a kind that holds an underscore is routed only
    if its last part is itself a configured kind. *)
Theorem virtual_id_routing self I k :
  last_segment (split_on "_"%char (virtual_id I k)) = last_segment (split_on "_"%char k) /\
  (free_of "_"%char k = true -> k ∈ augment_types self ->
     routed self (last_segment (split_on "_"%char (virtual_id I k))) = true) /\
  (last_segment (split_on "_"%char k) ∉ augment_types self ->
     forall arr w,
       augment self (last_segment (split_on "_"%char (virtual_id I k))) arr w = (Ok arr, w)).
Proof.
  pose proof (last_segment_virtual I k) as Hlast.
  split_and!; [exact Hlast | |].
  - intros Hk Hin. rewrite Hlast, (split_on_free _ _ Hk).
    unfold routed, last_segment. simpl. by apply bool_decide_eq_true_2.
  - intros Hnot arr w. rewrite Hlast. unfold augment, routed.
    by rewrite bool_decide_eq_false_2.
Qed.

(** Every item the constructor adds for a kind is the base item's
    selected array with the transformations of that kind applied: for a
    single modality, a base identifier of two segments at row i and the
    j-th kind, free of underscores, position (1 + j) * |L| + i of the
    expanded table names the virtual identifier, the loader reads the
    base identifier's file, and runs on its selected channels the steps
    whose names occur in the kind. *)
Theorem virtual_item_transforms_base (a : @Args T L Lb) g self w0 fs i j I l k m vol x w :
  __init__ a g = Ok (self, w0) ->
  arg_to_augment a = true ->
  NoDup (arg_augment_types a) ->
  arg_modality a = [m] ->
  arg_labels a !! i = Some (I, l) ->
  arg_augment_types a !! j = Some k ->
  free_of "_"%char k = true ->
  length (split_on "_"%char I) = 2 ->
  fs !! path_join (arg_data_dir a) (I +:+ "_" +:+ m +:+ ".npy") = Some vol ->
  select_channels self vol = Ok x ->
  index_values (labels self).*1 (Z.of_nat ((1 + j) * length (arg_labels a) + i))
    = Ok (virtual_id I k) /\
  load_single fs self (virtual_id I k) w = run_steps (applicable self k) x w.
Proof.
  intros Hinit Haug Hnd Hmod Hi Hj Hk Hseg Hfile Hsel.
  destruct (expanded_table_of_init a g self w0 Haug Hnd Hinit)
    as (Hlabels & Hlen & _ & _ & Hpos & _).
  apply init_inv in Hinit as (_ & _ & Hdir & Hm & Hta & Hkinds & _).
  specialize (Hpos i j (I, l) k Hi Hj). simpl in Hpos.
  split.
  - unfold index_values. rewrite length_fmap.
    pose proof (lookup_lt_Some _ _ _ Hpos) as Hlt.
    rewrite (proj2 (Z.leb_le 0 _)), (proj2 (Z.ltb_lt _ _)) by lia. simpl.
    rewrite Nat2Z.id, list_lookup_fmap, Hpos. reflexivity.
  - assert (Hto : to_augment self = true) by congruence.
    pose proof (file_name_virtual self I k m Hto Hk Hseg) as Hname.
    rewrite (load_single_eval fs self _ w m vol x); try done.
    + pose proof (last_segment_virtual I k) as Hlast.
      rewrite Hlast, (split_on_free _ _ Hk). change (last_segment [k]) with k.
      rewrite augment_runs_applicable.
      unfold routed. rewrite bool_decide_eq_true_2; [done|].
      rewrite Hkinds. apply list_elem_of_lookup. by exists j.
    + by rewrite Hm, Hmod.
    + rewrite Hname, Hdir. unfold np_load. by rewrite Hfile.
Qed.

End VirtualFacts.

(** ** Identifiers of the expanded table *)

Section DistinctFacts.
Context {T L : Type} `{Lb : Libs T}.
Implicit Types (self : @DatasetGenerator T L Lb) (table : list (string * L)).
Implicit Types (I k : string) (K ids : list string).

Lemma virtual_id_inj I k I' k' :
  free_of "_"%char k = true -> free_of "_"%char k' = true ->
  virtual_id I k = virtual_id I' k' -> I = I' /\ k = k'.
Proof.
  intros Hk Hk' E. apply (f_equal (split_on "_"%char)) in E.
  rewrite !split_on_virtual, (split_on_free _ _ Hk), (split_on_free _ _ Hk') in E.
  apply app_inj_tail in E as [E ->]. split; [|done].
  rewrite <- (join_split "_"%char I), <- (join_split "_"%char I'). by rewrite E.
Qed.

Lemma virtual_id_segments I k :
  free_of "_"%char k = true ->
  length (split_on "_"%char (virtual_id I k)) = S (length (split_on "_"%char I)).
Proof.
  intros Hk. rewrite split_on_virtual, (split_on_free _ _ Hk), length_app. simpl. lia.
Qed.

Lemma elem_of_concat_fmap {A B} (f : A -> list B) (l : list A) (y : B) :
  y ∈ concat (f <$> l) <-> exists x, x ∈ l /\ y ∈ f x.
Proof.
  induction l as [|x l IH]; csimpl.
  - split; [by intros ?%elem_of_nil | by intros (x & ?%elem_of_nil & _)].
  - rewrite elem_of_app, IH. split.
    + intros [H|(x' & Hx' & Hy)]; [exists x; split; [by left|done] |].
      exists x'. split; [by right|done].
    + intros (x' & Hx' & Hy). apply elem_of_cons in Hx' as [->|Hx']; [by left|].
      right. by exists x'.
Qed.

Lemma fmap_fst_suffixed k table :
  (suffixed k table).*1 = (fun I => virtual_id I k) <$> table.*1.
Proof.
  unfold suffixed. rewrite <- !list_fmap_compose. by apply list_fmap_ext.
Qed.

Lemma fmap_fst_blocks table K :
  (concat ((fun k => suffixed k table) <$> K)).*1
    = concat ((fun k => (fun I => virtual_id I k) <$> table.*1) <$> K).
Proof.
  induction K as [|k K IH]; csimpl; [done|].
  by rewrite fmap_app, IH, fmap_fst_suffixed.
Qed.

Lemma NoDup_blocks ids K :
  NoDup ids -> NoDup K -> Forall (fun k => free_of "_"%char k = true) K ->
  NoDup (concat ((fun k => (fun I => virtual_id I k) <$> ids) <$> K)).
Proof.
  intros Hids HK Hfree. induction HK as [|k K Hk HK IH]; csimpl; [constructor|].
  apply Forall_cons in Hfree as [Hfk HfK].
  apply NoDup_app. split_and!.
  - apply NoDup_fmap_2_strong; [|done].
    intros I I' _ _ E. by apply (virtual_id_inj I k I' k Hfk Hfk) in E as [-> _].
  - intros y Hy Hy'. apply list_elem_of_fmap in Hy as (I & -> & HI).
    apply elem_of_concat_fmap in Hy' as (k' & Hk' & Hy').
    apply list_elem_of_fmap in Hy' as (I' & E & HI').
    rewrite Forall_forall in HfK.
    apply (virtual_id_inj I k I' k' Hfk (HfK k' Hk')) in E as [_ ->]. contradiction.
  - by apply IH.
Qed.

Lemma filter_none {A} (P : A -> Prop) `{forall x, Decision (P x)} (l : list A) :
  Forall (fun x => ~ P x) l -> filter P l = [].
Proof.
  induction 1 as [|x l Hx _ IH]; [done|]. by rewrite filter_cons_False.
Qed.

Lemma loc_NoDup table p I (l : L) :
  NoDup table.*1 -> table !! p = Some (I, l) -> loc table I = [l].
Proof.
  unfold loc. revert p. induction table as [|[I0 l0] table IH]; intros p Hnd Hp; [done|].
  csimpl in Hnd. apply NoDup_cons in Hnd as [Hnot Hnd].
  destruct p as [|p]; simpl in Hp.
  - injection Hp as -> ->. rewrite filter_cons_True by done.
    assert (Hnone : filter (fun row : string * L => row.1 = I) table = []).
    { apply filter_none, Forall_forall. intros [I' l'] Hin E. simpl in E. subst.
      apply Hnot. apply list_elem_of_fmap. by exists (I, l'). }
    by rewrite Hnone.
  - rewrite filter_cons_False.
    + by apply (IH p).
    + simpl. intros ->. apply Hnot. apply list_elem_of_fmap.
      exists (I, l). split; [done|]. by apply list_elem_of_lookup_2 in Hp.
Qed.

(** With distinct base identifiers that all have the same number of
    segments, and distinct kinds free of underscores, the identifiers of
    the expanded table are pairwise distinct, so the label looked up for
    the identifier at any position is the one label of that row. *)
Theorem expanded_identifiers_distinct (a : @Args T L Lb) g self w0 n :
  __init__ a g = Ok (self, w0) ->
  arg_to_augment a = true ->
  NoDup (arg_augment_types a) ->
  Forall (fun k => free_of "_"%char k = true) (arg_augment_types a) ->
  NoDup (arg_labels a).*1 ->
  Forall (fun I => length (split_on "_"%char I) = n) (arg_labels a).*1 ->
  NoDup (labels self).*1 /\
  (forall p I l, labels self !! p = Some (I, l) -> loc (labels self) I = [l]).
Proof.
  intros Hinit Haug HK Hfree Hids Hseg.
  destruct (expanded_table_of_init a g self w0 Haug HK Hinit) as (Hlabels & _).
  assert (Hnd : NoDup (labels self).*1).
  { rewrite Hlabels, fmap_app, fmap_fst_blocks. apply NoDup_app. split_and!.
    - exact Hids.
    - intros I HI Hin. apply elem_of_concat_fmap in Hin as (k & Hk & Hin).
      apply list_elem_of_fmap in Hin as (I' & -> & HI').
      rewrite Forall_forall in Hseg, Hfree.
      pose proof (Hseg _ HI) as E. rewrite (virtual_id_segments _ _ (Hfree k Hk)) in E.
      rewrite (Hseg _ HI') in E. lia.
    - by apply NoDup_blocks. }
  split; [exact Hnd|]. intros p I l Hp. by apply (loc_NoDup _ p).
Qed.

End DistinctFacts.

(** ** A kind listed more than once *)

Section RepeatedKinds.
Context {T L : Type} `{Lb : Libs T}.
Implicit Types (self : @DatasetGenerator T L Lb) (table : list (string * L)).
Implicit Types (k : string) (K D ids : list string).

Lemma dict_set_present {V} (val : string -> V) k D :
  k ∈ D ->
  dict_set k (val k) ((fun k => (k, val k)) <$> D) = (fun k => (k, val k)) <$> D.
Proof.
  induction D as [|k' D IH]; csimpl; [by intros ?%elem_of_nil|].
  intros Hin. destruct (String.eqb k k') eqn:E.
  - apply String.eqb_eq in E. by subst.
  - apply String.eqb_neq in E. apply elem_of_cons in Hin as [->|Hin]; [done|].
    by rewrite IH.
Qed.

Lemma dict_set_absent {V} (val : string -> V) k D :
  k ∉ D ->
  dict_set k (val k) ((fun k => (k, val k)) <$> D) = (fun k => (k, val k)) <$> (D ++ [k]).
Proof.
  intros Hnot. rewrite dict_set_fresh, fmap_app; [done|].
  rewrite <- list_fmap_compose. by rewrite list_fmap_id.
Qed.

Lemma expand_loop_first_occurrences table K : forall D ids,
  expand_loop table K ((fun k => (k, suffixed k table)) <$> D) ids
    = ((fun k => (k, suffixed k table)) <$> first_occurrences D K,
       ids ++ concat ((fun k => (suffixed k table).*1) <$> K)).
Proof.
  induction K as [|k K IH]; intros D ids; csimpl.
  - by rewrite app_nil_r.
  - destruct (bool_decide (k ∈ D)) eqn:E.
    + apply bool_decide_eq_true in E.
      rewrite (dict_set_present (fun k => suffixed k table)) by done.
      by rewrite IH, <- app_assoc.
    + apply bool_decide_eq_false in E.
      rewrite (dict_set_absent (fun k => suffixed k table)) by done.
      by rewrite IH, <- app_assoc.
Qed.

Lemma first_occurrences_length K : forall D,
  length (first_occurrences D K) <= length D + length K.
Proof.
  induction K as [|k K IH]; intros D; simpl; [lia|].
  destruct (bool_decide (k ∈ D)).
  - specialize (IH D). lia.
  - specialize (IH (D ++ [k])). rewrite length_app in IH. simpl in IH. lia.
Qed.

Lemma first_occurrences_full K : forall D,
  length (first_occurrences D K) = length D + length K ->
  NoDup K /\ (forall k, k ∈ K -> k ∉ D).
Proof.
  induction K as [|k K IH]; intros D; simpl.
  - intros _. split; [constructor | by intros k ?%elem_of_nil].
  - destruct (bool_decide (k ∈ D)) eqn:E.
    + pose proof (first_occurrences_length K D). lia.
    + apply bool_decide_eq_false in E. intros Hlen.
      destruct (IH (D ++ [k])) as [Hnd Hdis]; [rewrite length_app; simpl; lia|].
      split.
      * constructor; [|done]. intros Hin. apply (Hdis k Hin), elem_of_app. right. by left.
      * intros k' Hk'. apply elem_of_cons in Hk' as [->|Hk']; [done|].
        intros Hin. apply (Hdis k' Hk'), elem_of_app. by left.
Qed.

Lemma length_id_blocks table K :
  length (concat ((fun k => (suffixed k table).*1) <$> K)) = length K * length table.
Proof.
  induction K as [|k K IH]; csimpl; [done|].
  by rewrite length_app, length_fmap, length_suffixed, IH.
Qed.

(** Whatever the kinds, the label table gets one block per distinct
    kind, at the place where the kind first occurs, while the identifier
    list gets one block per listed kind.  So the table is never longer
    than (1 + |K|) * |L| rows, and with a kind listed twice and a
    non-empty base table it is shorter than the identifier list
    constructed alongside it. *)
Theorem expander_repeated_kinds (a : @Args T L Lb) g self w0 :
  __init__ a g = Ok (self, w0) ->
  arg_to_augment a = true ->
  labels self
    = arg_labels a
        ++ concat ((fun k => suffixed k (arg_labels a))
                     <$> first_occurrences [] (arg_augment_types a)) /\
  data_indices self
    = arg_data_indices a
        ++ concat ((fun k => (suffixed k (arg_labels a)).*1) <$> arg_augment_types a) /\
  __len__ self <= (1 + length (arg_augment_types a)) * length (arg_labels a) /\
  (~ NoDup (arg_augment_types a) -> arg_labels a <> [] ->
   length (arg_data_indices a) = length (arg_labels a) ->
   __len__ self < length (data_indices self)).
Proof.
  intros Hinit Haug.
  rewrite (init_unfold a g (init_seed a g self w0 Hinit)) in Hinit. rewrite Haug in Hinit.
  apply result_bind_Ok in Hinit as (rad & _ & Hinit).
  change (@nil (string * list (string * L)))
    with ((fun k => (k, suffixed k (arg_labels a))) <$> @nil string) in Hinit.
  rewrite expand_loop_first_occurrences in Hinit.
  simpl in Hinit. injection Hinit as <- _.
  unfold __len__, dict_values. simpl.
  rewrite <- list_fmap_compose.
  change (snd ∘ (fun k => (k, suffixed k (arg_labels a))))
    with (fun k => suffixed k (arg_labels a)).
  pose proof (first_occurrences_length (arg_augment_types a) []) as Hle. simpl in Hle.
  split_and!; try done.
  - rewrite length_app, length_blocks. nia.
  - intros Hdup Hne Hids.
    rewrite !length_app, length_blocks, length_id_blocks, Hids.
    assert (Hlt : length (first_occurrences [] (arg_augment_types a))
                  < length (arg_augment_types a)).
    { destruct (decide (length (first_occurrences [] (arg_augment_types a))
                        = length (arg_augment_types a))) as [E|E]; [|lia].
      destruct (first_occurrences_full (arg_augment_types a) []) as [Hnd _]; [done|].
      contradiction. }
    assert (0 < length (arg_labels a)) by (destruct (arg_labels a); [done | simpl; lia]).
    nia.
Qed.

End RepeatedKinds.

(** ** Reshaping keeps the elements in order *)

Section ReshapeOrder.
Context {T : Type}.
Implicit Types (b : nd T) (a r : ndarray T) (s : list nat) (l : list T) (req : list Z).

Lemma concat_chunks sz n : forall l, concat (chunks sz n l) = take (n * sz) l.
Proof.
  induction n as [|n IH]; intros l; simpl; [done|].
  by rewrite IH, take_take_drop.
Qed.

Lemma chunks_concat sz (ls : list (list T)) :
  Forall (fun c => length c = sz) ls -> chunks sz (length ls) (concat ls) = ls.
Proof.
  induction 1 as [|c ls Hc _ IH]; simpl; [done|].
  rewrite take_app_length', drop_app_length' by done. by rewrite IH.
Qed.

Lemma length_chunks sz n : forall l, length (chunks sz n l) = n.
Proof. induction n as [|n IH]; intros l; simpl; [done|]. by rewrite IH. Qed.

Lemma chunks_idemp sz n : forall l, Forall (fun c => take sz c = c) (chunks sz n l).
Proof.
  induction n as [|n IH]; intros l; simpl; constructor; [apply take_idemp | apply IH].
Qed.

Lemma chunks_full sz n : forall l,
  length l = n * sz -> Forall (fun c => length c = sz) (chunks sz n l).
Proof.
  induction n as [|n IH]; intros l Hl; simpl; constructor.
  - rewrite length_take. lia.
  - apply IH. rewrite length_drop. lia.
Qed.

(** A well-formed array holds as many elements as its shape says. *)
Lemma length_flatten s : forall b, has_shape s b = true -> length (flatten b) = prod_shape s.
Proof.
  induction s as [|n s IH]; intros [x|xs]; try done.
  intros Hb. apply has_shape_leading in Hb as [<- Hall]. simpl.
  induction Hall as [|c xs Hc _ IHxs]; csimpl; [done|].
  rewrite length_app, (IH c Hc). unfold prod_shape in *. simpl in *. by rewrite IHxs.
Qed.

(** Flattening and rebuilding with the same shape gives the array back. *)
Lemma unflatten_flatten s : forall b, has_shape s b = true -> unflatten s (flatten b) = Some b.
Proof.
  induction s as [|n s IH]; intros [x|xs]; try done.
  intros Hb. apply has_shape_leading in Hb as [<- Hall]. simpl.
  rewrite <- (length_fmap flatten xs).
  rewrite chunks_concat.
  - rewrite mapM_fmap_Forall_Some; [done|].
    eapply Forall_impl; [exact Hall|]. intros c Hc. by apply IH.
  - apply Forall_fmap. eapply Forall_impl; [exact Hall|]. intros c Hc. simpl.
    by apply length_flatten.
Qed.

(** What [unflatten] builds has the shape asked for and holds the first
    elements of the list, in order. *)
Lemma unflatten_inv s : forall l b,
  unflatten s l = Some b -> has_shape s b = true /\ flatten b = take (prod_shape s) l.
Proof.
  induction s as [|n s IH]; intros l b; simpl.
  - destruct l as [|x [|y l]]; try discriminate. by intros [= <-].
  - destruct (mapM _ _) as [xs|] eqn:Hm; [|discriminate]. simpl. intros [= <-].
    apply mapM_Some_1 in Hm.
    assert (Hfl : flatten <$> xs = chunks (prod_shape s) n l).
    { pose proof (chunks_idemp (prod_shape s) n l) as Hid.
      revert Hm Hid. generalize (chunks (prod_shape s) n l). intros cs Hm.
      induction Hm as [|ch c cs xs Hc _ IHm]; intros Hid; [done|].
      apply Forall_cons in Hid as [Hch Hid]. csimpl.
      apply IH in Hc as [_ Hc]. rewrite Hc, Hch. f_equal. by apply IHm. }
    assert (Hlen : length xs = n).
    { apply Forall2_length in Hm. by rewrite length_chunks in Hm. }
    assert (Hsh : Forall (fun c => has_shape s c = true) xs).
    { apply Forall_forall. intros c Hc.
      apply list_elem_of_lookup in Hc as [i Hi].
      destruct (Forall2_lookup_r _ _ _ _ _ Hm Hi) as (ch & _ & Hch).
      by apply IH in Hch as [? _]. }
    split; [by apply has_shape_leading|].
    simpl. rewrite Hfl, concat_chunks. unfold prod_shape. by simpl.
Qed.

Lemma unflatten_total s : forall l,
  length l = prod_shape s -> is_Some (unflatten s l).
Proof.
  induction s as [|n s IH]; intros l Hl; simpl.
  - destruct l as [|x [|y l]]; done.
  - apply fmap_is_Some, mapM_is_Some_2.
    eapply Forall_impl; [apply chunks_full; exact Hl|].
    intros c Hc. by apply IH.
Qed.

Lemma prod_shape_filled (q : nat) req :
  prod_shape ((fun z => if (z <? 0)%Z then q else Z.to_nat z) <$> req)
    = q ^ length (filter (fun z => (z < 0)%Z) req)
      * prod_shape (Z.to_nat <$> filter (fun z => (0 <= z)%Z) req).
Proof.
  unfold prod_shape. induction req as [|z req IH]; csimpl; [done|].
  destruct (Z.ltb_spec z 0) as [Hz|Hz].
  - rewrite filter_cons_True, filter_cons_False by (simpl; lia). simpl. rewrite IH. lia.
  - rewrite filter_cons_False, filter_cons_True by (simpl; lia). csimpl. rewrite IH. lia.
Qed.

Lemma fmap_to_nat_known req :
  filter (fun z => (z < 0)%Z) req = [] ->
  filter (fun z => (0 <= z)%Z) req = req.
Proof.
  induction req as [|z req IH]; [done|].
  destruct (decide (z < 0)%Z) as [Hz|Hz].
  - by rewrite filter_cons_True by done.
  - rewrite filter_cons_False by done. intros H.
    rewrite filter_cons_True by (simpl; lia). by rewrite IH.
Qed.

(** The shape [np.reshape] settles on holds exactly the elements there
    are. *)
Lemma resolve_shape_size sz req s :
  resolve_shape sz req = Some s -> prod_shape s = sz.
Proof.
  unfold resolve_shape.
  destruct (filter (fun z => (z < 0)%Z) req) as [|z0 [|z1 wild]] eqn:Hw; [| |discriminate].
  - destruct (_ =? sz) eqn:E; [|discriminate]. intros [= <-].
    apply Nat.eqb_eq in E. by rewrite (fmap_to_nat_known req Hw) in E.
  - destruct (_ || _) eqn:E; [discriminate|]. intros [= <-].
    apply orb_false_iff in E as [Ek Em]. apply negb_false_iff in Em.
    apply Nat.eqb_neq in Ek. apply Nat.eqb_eq in Em.
    rewrite prod_shape_filled, Hw. simpl.
    set (k := prod_shape _) in *.
    pose proof (Nat.div_mod sz k Ek). nia.
Qed.

(** [np.reshape] of a well-formed array: the result is well-formed,
    holds the same elements in the same row-major order, and reshaping
    it again with the same request changes nothing. *)
Lemma np_reshape_order a req r :
  wf a = true -> np_reshape a req = Ok r ->
  wf r = true /\ flatten (body r) = flatten (body a) /\ np_reshape r req = Ok r.
Proof.
  intros Hwf. unfold np_reshape.
  destruct (resolve_shape (size a) req) as [s|] eqn:Hs; [|discriminate]. simpl.
  destruct (unflatten s (flatten (body a))) as [b|] eqn:Hb; [|discriminate]. simpl.
  intros [= <-]. simpl.
  pose proof (resolve_shape_size _ _ _ Hs) as Hsz.
  destruct (unflatten_inv _ _ _ Hb) as [Hsh Hfl].
  assert (Hlen : length (flatten (body a)) = prod_shape s).
  { rewrite Hsz. by apply length_flatten. }
  rewrite take_ge in Hfl by lia.
  split_and!; [exact Hsh | exact Hfl |].
  unfold size. simpl. rewrite Hsz, Hs. simpl. by rewrite unflatten_flatten.
Qed.

(** [np.reshape] of a well-formed array fails only on the element count. *)
Lemma np_reshape_total a req s :
  wf a = true -> resolve_shape (size a) req = Some s -> is_Ok (np_reshape a req).
Proof.
  intros Hwf Hs. unfold np_reshape. rewrite Hs. simpl.
  destruct (unflatten_total s (flatten (body a))) as [b Hb].
  - rewrite (resolve_shape_size _ _ _ Hs). by apply length_flatten.
  - by rewrite Hb.
Qed.

End ReshapeOrder.

(** ** Sectionation with one channel, and routing without augmentation *)

Section SectionateFacts.
Context {T L : Type} `{Lb : Libs T}.
Implicit Types (self : @DatasetGenerator T L Lb) (x r arr : ndarray T) (w : World).
Implicit Types (fs : gmap string (ndarray T)).

(** With a single modality, one channel and sectionation, the loader
    reshapes to dim and the entry point reshapes to dim again; the second
    reshape changes nothing.  The item is the loaded array reshaped once,
    under a unit channel axis, with its elements in their row-major order;
    it is returned exactly when dim (its negative entry inferred) holds as
    many elements as the loaded array, and the access raises [ValueError]
    otherwise. *)
Theorem sectionate_single_channel fs self idx w pat_idx x w1 :
  length (modality self) < 2 ->
  to_sectionate self = true ->
  n_channels self = 1%Z ->
  transform self = None ->
  target_transform self = None ->
  index_values (labels self).*1 idx = Ok pat_idx ->
  load_single fs self pat_idx w = (Ok x, w1) ->
  wf x = true ->
  (forall s, resolve_shape (size x) (dim self) = Some s ->
     exists r,
       np_reshape x (dim self) = Ok r /\ shape r = s /\
       flatten (body r) = flatten (body x) /\
       __getitem__ fs self idx w = (Ok (expand_dims0 r, loc (labels self) pat_idx), w1)) /\
  (resolve_shape (size x) (dim self) = None ->
     __getitem__ fs self idx w = (Raise ValueError, w1)).
Proof.
  intros Hmod Hsec Hn Htr Htt Hidx Hload Hwf.
  assert (Hgpa : get_pat_array fs self pat_idx w = (np_reshape x (dim self), w1)).
  { unfold get_pat_array. rewrite (M_bind_eval _ _ _ _ _ Hload). by rewrite Hsec, Hn. }
  assert (Hget : __getitem__ fs self idx w
                 = match np_reshape x (dim self) with
                   | Ok r => match np_reshape r (dim self) with
                             | Ok r' => (Ok (expand_dims0 r', loc (labels self) pat_idx), w1)
                             | Raise e => (Raise e, w1)
                             end
                   | Raise e => (Raise e, w1)
                   end).
  { unfold __getitem__. rewrite M_bind_lift, Hidx.
    rewrite (proj2 (Nat.ltb_lt _ _) Hmod), (M_bind_eval _ _ _ _ _ Hgpa).
    destruct (np_reshape x (dim self)) as [r|e]; [|done].
    rewrite Hsec, M_bind_lift.
    destruct (np_reshape r (dim self)) as [r'|e]; [|done].
    by rewrite Htr, Htt, Hn. }
  split.
  - intros s Hs.
    pose proof (np_reshape_total x (dim self) s Hwf Hs) as Hok.
    destruct (np_reshape x (dim self)) as [r|e] eqn:Hr; [|contradiction].
    destruct (np_reshape_order x (dim self) r Hwf Hr) as (_ & Hfl & Hagain).
    exists r. split_and!; try done.
    + unfold np_reshape in Hr. rewrite Hs in Hr. simpl in Hr.
      destruct (unflatten s _); [|discriminate]. by injection Hr as <-.
    + by rewrite Hget, Hagain.
  - intros Hnone. rewrite Hget. unfold np_reshape. by rewrite Hnone.
Qed.

(** The augmentor is not gated by [to_augment]: with augmentation
    disabled the loader asks for the file named after the whole
    identifier, and still runs the transformations when the identifier's
    last segment is one of the kinds the instance holds. *)
Theorem routing_ignores_to_augment fs self pat_idx m vol x w :
  to_augment self = false ->
  modality self !! 0 = Some m ->
  fs !! path_join (data_dir self) (pat_idx +:+ "_" +:+ m +:+ ".npy") = Some vol ->
  select_channels self vol = Ok x ->
  last_segment (split_on "_"%char pat_idx) ∈ augment_types self ->
  load_single fs self pat_idx w
    = run_steps (applicable self (last_segment (split_on "_"%char pat_idx))) x w.
Proof.
  intros Hoff Hm Hfile Hsel Hkind.
  rewrite (load_single_eval fs self pat_idx w m vol x); try done.
  - rewrite augment_runs_applicable. unfold routed. by rewrite bool_decide_eq_true_2.
  - unfold file_name, np_load. rewrite Hoff. cbn [andb]. by rewrite Hfile.
Qed.

End SectionateFacts.

(** ** Rotation of a channel-stacked array *)

Section RotationFacts.
Context {T L : Type} `{Lb : Libs T}.
Implicit Types (self : @DatasetGenerator T L Lb) (x r arr : ndarray T) (w : World).
Implicit Types (fs : gmap string (ndarray T)).

Lemma get_slab_inv i arr slab n s :
  shape arr = n :: s -> get_slab i arr = Ok slab ->
  exists c, children (body arr) !! i = Some c /\ slab = NdArray s c /\ i < n.
Proof.
  intros Hs. unfold get_slab, index0. destruct (ndim arr <? 4); [discriminate|].
  rewrite Hs. destruct (i <? n) eqn:Hi; [|discriminate]. apply Nat.ltb_lt in Hi.
  destruct (children (body arr) !! i) as [c|]; [|discriminate].
  simpl. intros [= <-]. by exists c.
Qed.

Lemma set_slab_inv i v arr r n s :
  shape arr = n :: s -> set_slab i v arr = Ok r ->
  exists b, broadcast_to s v = Ok b /\ shape r = n :: s /\
    children (body r) = <[i := b]> (children (body arr)).
Proof.
  intros Hs. unfold set_slab. destruct (ndim arr <? 4); [discriminate|].
  intros H. apply set_item0_inv in H as (n' & s' & b & Hs' & _ & Hb & ->).
  rewrite Hs in Hs'. injection Hs' as <- <-. by exists b.
Qed.

(** What the loop over the slices leaves: every listed slice replaced by
    its rotation through the one angle, every other slice as it was. *)
Lemma rotate_slabs_inv angle idxs : forall arr r n s,
  NoDup idxs ->
  shape arr = n :: s ->
  rotate_slabs angle idxs arr = Ok r ->
  shape r = n :: s /\
  (forall j, j ∉ idxs -> children (body r) !! j = children (body arr) !! j) /\
  (forall i, i ∈ idxs ->
     exists c rotated b,
       i < n /\ children (body arr) !! i = Some c /\
       sk_rotate (NdArray s c) angle = Ok rotated /\
       broadcast_to s rotated = Ok b /\
       children (body r) !! i = Some b).
Proof.
  induction idxs as [|i idxs IH]; intros arr r n s Hnd Hs; simpl.
  - intros [= <-]. split_and!; [done | done | by intros i ?%elem_of_nil].
  - apply NoDup_cons in Hnd as [Hi Hnd]. intros H.
    apply result_bind_Ok in H as (slab & Hslab & H).
    apply result_bind_Ok in H as (rot & Hrot & H).
    apply result_bind_Ok in H as (arr' & Hset & H).
    destruct (get_slab_inv _ _ _ _ _ Hs Hslab) as (c & Hc & -> & Hlt).
    destruct (set_slab_inv _ _ _ _ _ _ Hs Hset) as (b & Hb & Hs' & Hch).
    destruct (IH _ _ _ _ Hnd Hs' H) as (Hsr & Hkeep & Hrot').
    split_and!; [done | |].
    + intros j Hj. apply not_elem_of_cons in Hj as [Hji Hj].
      rewrite (Hkeep j Hj), Hch. by apply list_lookup_insert_ne.
    + intros i' Hi'. apply elem_of_cons in Hi' as [->|Hi'].
      * exists c, rot, b. split_and!; try done.
        rewrite (Hkeep i Hi), Hch. apply list_lookup_insert_eq.
        by apply lookup_lt_Some in Hc.
      * destruct (Hrot' i' Hi') as (c' & rot' & b' & ? & Hc' & ? & ? & ?).
        exists c', rot', b'. split_and!; try done.
        rewrite Hch in Hc'. rewrite list_lookup_insert_ne in Hc'; [done|].
        intros ->. contradiction.
Qed.

Lemma rotate_slabs_short angle idxs : forall arr n s,
  shape arr = n :: s ->
  (exists i, i ∈ idxs /\ n <= i) ->
  exists e, rotate_slabs angle idxs arr = Raise e.
Proof.
  induction idxs as [|i idxs IH]; intros arr n s Hs [i0 [Hin Hle]].
  - by apply elem_of_nil in Hin.
  - simpl. destruct (get_slab i arr) as [slab|e] eqn:Hslab; [|by exists e]. simpl.
    destruct (sk_rotate slab angle) as [rot|e]; [|by exists e]. simpl.
    destruct (set_slab i rot arr) as [arr'|e] eqn:Hset; [|by exists e]. simpl.
    destruct (get_slab_inv _ _ _ _ _ Hs Hslab) as (c & _ & _ & Hlt).
    apply set_slab_shape in Hset. rewrite Hs in Hset.
    apply (IH arr' n s Hset). exists i0. split; [|done].
    apply elem_of_cons in Hin as [->|Hin]; [lia | done].
Qed.

Lemma rotated_slabs_NoDup self : NoDup (rotated_slabs self).
Proof.
  unfold rotated_slabs.
  destruct (n_channels self =? 4)%Z; [|destruct (n_channels self =? 5)%Z];
    apply (bool_decide_unpack _); by vm_compute.
Qed.

Lemma apply_rotation_unfold self arr w :
  n_channels self <> 1%Z ->
  apply_rotation self arr w
    = (rotate_slabs (rng_integers (-180) 180 (rng_rotate w)).1 (rotated_slabs self) arr,
       mkWorld (rng_noise w) (rng_integers (-180) 180 (rng_rotate w)).2 (np_global w)
         (trace w ++ [Angle (rng_integers (-180) 180 (rng_rotate w)).1])).
Proof.
  intros Hn. unfold apply_rotation, rotated_slabs.
  destruct (rng_integers _ _ _) as [angle gen]. simpl.
  rewrite (proj2 (Z.eqb_neq _ _) Hn).
  by destruct (n_channels self =? 4)%Z, (n_channels self =? 5)%Z.
Qed.

(** With a channel axis, a rotation that returns has replaced each of the
    first three slices (four or five for channel count 4 or 5) by its
    rotation through one and the same angle, the one drawn for the call,
    and has left every further slice and the shape as they were. *)
Theorem rotation_rotates_leading_slabs self arr w r w' n s :
  n_channels self <> 1%Z ->
  shape arr = n :: s ->
  apply_rotation self arr w = (Ok r, w') ->
  let angle := (rng_integers (-180) 180 (rng_rotate w)).1 in
  shape r = n :: s /\
  trace w' = trace w ++ [Angle angle] /\
  (forall j, j ∉ rotated_slabs self -> children (body r) !! j = children (body arr) !! j) /\
  (forall i, i ∈ rotated_slabs self ->
     exists c rotated b,
       i < n /\ children (body arr) !! i = Some c /\
       sk_rotate (NdArray s c) angle = Ok rotated /\
       broadcast_to s rotated = Ok b /\
       children (body r) !! i = Some b).
Proof.
  intros Hn Hs H angle. rewrite apply_rotation_unfold in H by done.
  injection H as Hr <-. simpl.
  destruct (rotate_slabs_inv _ _ _ _ _ _ (rotated_slabs_NoDup self) Hs Hr) as (? & ? & ?).
  done.
Qed.

(** With a channel axis shorter than the slices rotated (two modalities,
    say), rotation never returns; the angle is drawn and recorded all
    the same. *)
Theorem rotation_short_stack_raises self arr w n s :
  n_channels self <> 1%Z ->
  shape arr = n :: s ->
  n < length (rotated_slabs self) ->
  (exists e, (apply_rotation self arr w).1 = Raise e) /\
  rng_rotate (apply_rotation self arr w).2 = (rng_integers (-180) 180 (rng_rotate w)).2 /\
  trace (apply_rotation self arr w).2
    = trace w ++ [Angle (rng_integers (-180) 180 (rng_rotate w)).1].
Proof.
  intros Hn Hs Hshort. rewrite apply_rotation_unfold by done. simpl.
  split; [|done].
  apply (rotate_slabs_short _ _ arr n s Hs).
  exists n. split; [|lia].
  unfold rotated_slabs in *.
  destruct (n_channels self =? 4)%Z; [|destruct (n_channels self =? 5)%Z];
    simpl in Hshort; repeat (destruct n as [|n]; [set_solver|]); lia.
Qed.

End RotationFacts.

(** ** Two modalities and rotation *)

Section TwoModalities.
Context {T L : Type} `{Lb : Libs T}.
Implicit Types (self : @DatasetGenerator T L Lb) (x r arr : ndarray T) (w : World).
Implicit Types (fs : gmap string (ndarray T)).

Lemma getitem_loader_raises fs self idx w pat_idx e w1 :
  index_values (labels self).*1 idx = Ok pat_idx ->
  (if length (modality self) <? 2 then get_pat_array fs self pat_idx
   else get_pat_mod_array fs self pat_idx) w = (Raise e, w1) ->
  __getitem__ fs self idx w = (Raise e, w1).
Proof.
  intros Hidx Hload. unfold __getitem__. rewrite M_bind_lift, Hidx.
  by rewrite (M_bind_eval _ _ _ _ _ Hload).
Qed.

(** An instance constructed with exactly two modalities cannot rotate:
    every access to an identifier routed to the rotation raises, because
    the rotation asks for a third slice of the two-slice stack. *)
Theorem two_modalities_rotation_raises (a : @Args T L Lb) g self w0 fs idx pat_idx w :
  __init__ a g = Ok (self, w0) ->
  length (arg_modality a) = 2 ->
  index_values (labels self).*1 idx = Ok pat_idx ->
  routed self (last_segment (split_on "_"%char pat_idx)) = true ->
  contains (last_segment (split_on "_"%char pat_idx)) "rotate" = true ->
  exists e, (__getitem__ fs self idx w).1 = Raise e.
Proof.
  intros Hinit Hmods Hidx Hroute Hrot.
  apply init_inv in Hinit as (Hn & Hdim & _ & Hmod & _).
  rewrite Hmods in Hn. simpl in Hn.
  assert (Hn1 : n_channels self <> 1%Z) by lia.
  assert (Hload : exists e w1, get_pat_mod_array fs self pat_idx w = (Raise e, w1)).
  { unfold get_pat_mod_array. rewrite M_bind_lift.
    destruct (np_empty _ _) as [empty|e] eqn:Hempty; [|by exists e, w].
    rewrite M_bind_lift.
    destruct (stack_modalities _ _ _ _ _ _) as [stacked|e] eqn:Hstack; [|by exists e, w].
    destruct (np_empty_inv _ _ _ Hempty) as [Hes Hel].
    rewrite Hmod, Hmods in Hes. rewrite fmap_cons in Hes. simpl in Hes.
    destruct (stack_modalities_inv _ _ _ _ _ _ _ _ _ Hes (Hel _ _ Hes) Hstack) as (Hss & _).
    unfold augment. rewrite Hroute, Hrot.
    assert (Hflip : exists res : result (ndarray T),
      (if contains (last_segment (split_on "_"%char pat_idx)) "flip"
       then lift (apply_flip self stacked) else mret stacked) w = (res, w)
      /\ forall a1, res = Ok a1 -> shape a1 = shape stacked).
    { destruct (contains _ "flip").
      - exists (apply_flip self stacked). split; [done|]. intros a1. apply apply_flip_shape.
      - exists (Ok stacked). split; [done|]. by intros a1 [= <-]. }
    destruct Hflip as (res & Hr1 & Hsh).
    rewrite (M_bind_eval _ _ _ _ _ Hr1).
    destruct res as [a1|e]; [|by exists e, w].
    specialize (Hsh a1 eq_refl). rewrite Hss in Hsh.
    destruct (rotate_slabs_short (rng_integers (-180) 180 (rng_rotate w)).1
                (rotated_slabs self) a1 _ _ Hsh) as [e He].
    { exists 2. split; [|lia]. unfold rotated_slabs.
      destruct (n_channels self =? 4)%Z; [|destruct (n_channels self =? 5)%Z]; set_solver. }
    pose proof (apply_rotation_unfold self a1 w Hn1) as Hun. rewrite He in Hun.
    rewrite (M_bind_eval _ _ _ _ _ Hun). by eexists _, _. }
  destruct Hload as (e & w1 & Hload). exists e.
  rewrite (getitem_loader_raises fs self idx w pat_idx e w1); [done | done |].
  by rewrite Hmod, Hmods.
Qed.

End TwoModalities.

(** ** The stack of modalities *)

Section StackMore.
Context {T L : Type} `{Lb : Libs T}.
Implicit Types (self : @DatasetGenerator T L Lb) (arr : ndarray T).
Implicit Types (fs : gmap string (ndarray T)).

Lemma stack_modalities_same fs self pat_idx mods : forall imod (e1 e2 : ndarray T) n s,
  shape e1 = n :: s -> shape e2 = n :: s ->
  length (children (body e1)) = n -> length (children (body e2)) = n ->
  body e1 = Dim (children (body e1)) -> body e2 = Dim (children (body e2)) ->
  (forall j, j < imod -> children (body e1) !! j = children (body e2) !! j) ->
  imod + length mods = n ->
  stack_modalities fs self pat_idx imod mods e1 = stack_modalities fs self pat_idx imod mods e2.
Proof.
  induction mods as [|m mods IH]; intros imod e1 e2 n s Hs1 Hs2 Hl1 Hl2 Hb1 Hb2 Hagree Hn; simpl.
  - f_equal. destruct e1 as [s1 b1], e2 as [s2 b2]. simpl in *. subst s1 s2.
    rewrite Hb1, Hb2. do 2 f_equal.
    apply list_eq. intros j. destruct (decide (j < imod)) as [Hj|Hj]; [by apply Hagree|].
    rewrite !(proj2 (lookup_ge_None _ _)); [done | lia | lia].
  - destruct (np_load fs _) as [vol|]; simpl; [|done].
    destruct (index0 3 vol) as [whole|]; simpl; [|done].
    unfold set_item0 at 1 2. rewrite Hs1, Hs2.
    simpl in Hn. rewrite (proj2 (Nat.ltb_lt imod n)) by lia.
    destruct (broadcast_to s whole) as [b|]; simpl; [|done].
    apply (IH (S imod) _ _ n s); simpl; try done.
    + by rewrite length_insert.
    + by rewrite length_insert.
    + intros j Hj. destruct (decide (j = imod)) as [->|Hne].
      * rewrite !list_lookup_insert_eq by lia. done.
      * rewrite !list_lookup_insert_ne by done. apply Hagree. lia.
    + lia.
Qed.

(** Every slot of the stack is assigned before the stack is used:
    whatever the freshly allocated memory held, the loop gives the same
    result (the same array, or the same exception). *)
Theorem stack_ignores_uninitialised fs self pat_idx mods dims (fill1 fill2 : T)
    (e1 e2 : ndarray T) :
  np_empty (Z.of_nat (length mods) :: dims) fill1 = Ok e1 ->
  np_empty (Z.of_nat (length mods) :: dims) fill2 = Ok e2 ->
  stack_modalities fs self pat_idx 0 mods e1 = stack_modalities fs self pat_idx 0 mods e2.
Proof.
  unfold np_empty. destruct (forallb _ _); [|discriminate].
  intros [= <-] [= <-].
  apply (stack_modalities_same _ _ _ _ 0 _ _ (length mods) (Z.to_nat <$> dims));
    csimpl; rewrite ?Nat2Z.id; try done; try apply length_replicate.
  intros j Hj. lia.
Qed.

End StackMore.

(** ** What the flip and the stack keep *)

Section KeepFacts.
Context {T L : Type} `{Lb : Libs T}.
Implicit Types (self : @DatasetGenerator T L Lb) (arr : ndarray T) (b : nd T).
Implicit Types (fs : gmap string (ndarray T)).

Lemma concat_Permutation {A} (ls ks : list (list A)) :
  ls ≡ₚ ks -> concat ls ≡ₚ concat ks.
Proof.
  induction 1 as [|l ls ks _ IH|l k ls|ls ks ms _ IH1 _ IH2]; simpl.
  - done.
  - by rewrite IH.
  - rewrite !app_assoc. f_equiv. apply Permutation_app_comm.
  - by rewrite IH1.
Qed.

Lemma concat_Forall2_Permutation {A} (ls ks : list (list A)) :
  Forall2 Permutation ls ks -> concat ls ≡ₚ concat ks.
Proof. induction 1 as [|l k ls ks Hl _ IH]; simpl; [done|]. by rewrite Hl, IH. Qed.

(** Mirroring moves the elements and keeps every one of them. *)
Lemma flatten_flip_at axes : forall d b, flatten (flip_at axes d b) ≡ₚ flatten b.
Proof.
  intros d b. revert d. induction b as [x|xs IH] using nd_nested_ind; intros d; simpl; [done|].
  assert (Hxs : concat (flatten <$> (flip_at axes (S d) <$> xs)) ≡ₚ concat (flatten <$> xs)).
  { apply concat_Forall2_Permutation. rewrite <- list_fmap_compose.
    apply Forall2_fmap, Forall_Forall2_diag.
    eapply Forall_impl; [exact IH|]. intros c Hc. apply Hc. }
  destruct (bool_decide (d ∈ axes)); [|exact Hxs].
  rewrite <- Hxs. apply concat_Permutation.
  rewrite fmap_reverse. apply reverse_Permutation.
Qed.

(** [apply_flip] returns an array of the same shape, well-formed when
    its argument is, holding the same elements each as often as before:
    the flip moves voxels and changes no value. *)
Theorem apply_flip_keeps_elements self arr r :
  apply_flip self arr = Ok r ->
  shape r = shape arr /\ wf r = wf arr /\ flatten (body r) ≡ₚ flatten (body arr).
Proof.
  unfold apply_flip, np_flip. destruct (forallb _ _); [|discriminate].
  intros [= <-]. simpl. split_and!; [done | apply flip_at_has_shape | apply flatten_flip_at].
Qed.

Lemma has_shape_replicate n s b :
  has_shape s b = true -> has_shape (n :: s) (Dim (replicate n b)) = true.
Proof.
  intros Hb. apply has_shape_leading. split; [apply length_replicate|].
  apply Forall_forall. intros c Hc. by apply elem_of_replicate in Hc as [-> _].
Qed.

Lemma has_shape_full s (fill : T) : has_shape s (full s fill) = true.
Proof. induction s as [|n s IH]; simpl full; [done|]. by apply has_shape_replicate. Qed.

(** Broadcasting a well-formed value gives a well-formed value of the
    target shape. *)
Lemma bcast_has_shape tgt : forall src b r,
  has_shape src b = true -> bcast tgt src b = Some r -> has_shape tgt r = true.
Proof.
  induction tgt as [|n tgt IH]; intros src b r Hb; cbn [bcast].
  - destruct src, b; try discriminate. by intros [= <-].
  - destruct (length src <? _).
    + destruct (bcast tgt src b) as [y|] eqn:Hy; [|discriminate].
      intros [= <-]. apply has_shape_replicate. by apply (IH src b).
    + destruct src as [|m src]; [discriminate|]. destruct b as [x|xs]; [discriminate|].
      apply has_shape_leading in Hb as [Hlen Hall].
      destruct (m =? n) eqn:Hm.
      * apply Nat.eqb_eq in Hm. subst m.
        destruct (mapM (bcast tgt src) xs) as [ys|] eqn:Hys; [|discriminate].
        intros [= <-]. apply mapM_Some_1 in Hys.
        apply has_shape_leading. split; [by rewrite <- (Forall2_length _ _ _ Hys)|].
        apply Forall_forall. intros y Hy.
        apply list_elem_of_lookup in Hy as [i Hi].
        destruct (Forall2_lookup_r _ _ _ _ _ Hys Hi) as (c & Hc & Hcy).
        apply (IH src c y); [|done].
        rewrite Forall_forall in Hall. apply Hall. by apply list_elem_of_lookup_2 in Hc.
      * destruct (m =? 1); [|discriminate].
        destruct xs as [|c [|c' xs]]; try discriminate.
        destruct (bcast tgt src c) as [y|] eqn:Hy; [|discriminate].
        intros [= <-]. apply has_shape_replicate. apply (IH src c y); [|done].
        by apply Forall_cons in Hall as [? _].
Qed.

Lemma strip_unit_has_shape k : forall s b s' b',
  has_shape s b = true -> strip_unit k s b = Some (s', b') -> has_shape s' b' = true.
Proof.
  induction k as [|k IH]; intros s b s' b' Hb; simpl.
  - by intros [= <- <-].
  - destruct s as [|[|[|n]] s]; try discriminate.
    destruct b as [x|[|c [|c' xs]]]; try discriminate.
    apply has_shape_leading in Hb as [_ Hall]. apply Forall_cons in Hall as [Hc _].
    by apply IH.
Qed.

Lemma broadcast_to_has_shape tgt (v : ndarray T) b :
  wf v = true -> broadcast_to tgt v = Ok b -> has_shape tgt b = true.
Proof.
  intros Hwf. unfold broadcast_to.
  destruct (strip_unit _ _ _) as [[s' b']|] eqn:Hstrip; simpl; [|discriminate].
  destruct (bcast tgt s' b') as [r|] eqn:Hr; simpl; [|discriminate]. intros [= <-].
  apply (bcast_has_shape tgt s' b'); [|done].
  by apply (strip_unit_has_shape _ _ _ _ _ Hwf Hstrip).
Qed.

Lemma np_empty_wf req (fill : T) (e : ndarray T) : np_empty req fill = Ok e -> wf e = true.
Proof.
  unfold np_empty. destruct (forallb _ req); [|discriminate].
  intros [= <-]. apply has_shape_full.
Qed.

Lemma stack_modalities_wf fs self pat_idx mods : forall imod arr r,
  (forall path vol, fs !! path = Some vol -> wf vol = true) ->
  wf arr = true ->
  stack_modalities fs self pat_idx imod mods arr = Ok r ->
  wf r = true.
Proof.
  induction mods as [|m mods IH]; intros imod arr r Hfs Hwf; simpl.
  - by intros [= <-].
  - intros H.
    apply result_bind_Ok in H as (vol & Hvol & H).
    apply result_bind_Ok in H as (whole & Hwhole & H).
    apply result_bind_Ok in H as (arr' & Hset & H).
    apply (IH (S imod) arr' r Hfs); [|done].
    unfold np_load in Hvol. destruct (fs !! _) as [v|] eqn:Hv; [|discriminate].
    injection Hvol as ->. pose proof (index0_wf _ _ _ (Hfs _ _ Hv) Hwhole) as Hww.
    apply set_item0_inv in Hset as (n & s & b & Hs & Hi & Hb & ->).
    pose proof (broadcast_to_has_shape _ _ _ Hww Hb) as Hbs.
    unfold wf in *. simpl. rewrite Hs in *.
    destruct (body arr) as [x|xs]; [discriminate|]. simpl.
    apply has_shape_leading in Hwf as [Hlen Hall].
    apply has_shape_leading. split; [by rewrite length_insert|].
    apply Forall_insert; done.
Qed.

(** The stack the multi-modality loader builds from well-formed volume
    files is itself well-formed: a rectangular array whose every slot has
    the spatial shape. *)
Theorem stacked_modalities_well_formed fs self pat_idx mods dims (fill : T) (empty stacked : ndarray T) :
  (forall path vol, fs !! path = Some vol -> wf vol = true) ->
  np_empty (Z.of_nat (length mods) :: dims) fill = Ok empty ->
  stack_modalities fs self pat_idx 0 mods empty = Ok stacked ->
  wf stacked = true /\
  shape stacked = length mods :: (Z.to_nat <$> dims) /\
  Forall (fun c => has_shape (Z.to_nat <$> dims) c = true) (children (body stacked)).
Proof.
  intros Hfs Hempty Hstack.
  pose proof (np_empty_wf _ _ _ Hempty) as Hwe.
  pose proof (stack_modalities_wf _ _ _ _ _ _ _ Hfs Hwe Hstack) as Hwf.
  destruct (np_empty_inv _ _ _ Hempty) as [Hes Hel].
  rewrite fmap_cons, Nat2Z.id in Hes.
  destruct (stack_modalities_inv _ _ _ _ _ _ _ _ _ Hes (Hel _ _ Hes) Hstack) as (Hss & _).
  split_and!; [done | done |].
  unfold wf in Hwf. rewrite Hss in Hwf.
  destruct (body stacked) as [x|xs]; [discriminate|].
  by apply has_shape_leading in Hwf as [_ ?].
Qed.

End KeepFacts.

(** ** The generators are drawn from separately *)

Section IndependenceFacts.
Context {T L : Type} `{Lb : Libs T}.
Implicit Types (self : @DatasetGenerator T L Lb) (arr : ndarray T) (w : World).
Implicit Types (fs : gmap string (ndarray T)).

Lemma preserves_still {A X} (part : World -> X) (m : M A) : still m -> preserves part m.
Proof. intros H w. by rewrite H. Qed.

Lemma preserves_bind {A B X} (part : World -> X) (m : M A) (k : A -> M B) :
  preserves part m -> (forall x, preserves part (k x)) -> preserves part (m ≫= k).
Proof.
  intros Hm Hk w. unfold mbind, M_bind. specialize (Hm w).
  destruct (m w) as [[x|e] w1]; simpl in *; [|done]. by rewrite Hk.
Qed.

Lemma preserves_bind_Ok {A B X} (part : World -> X) (x : A) (k : A -> M B) :
  preserves part (k x) -> preserves part (lift (Ok x) ≫= k).
Proof. intros H w. rewrite M_bind_lift. apply H. Qed.

Lemma preserves_rotation self arr :
  preserves rng_noise (apply_rotation self arr) /\
  preserves np_global (apply_rotation self arr).
Proof.
  split; intros w; unfold apply_rotation; by destruct (rng_integers _ _ _).
Qed.

Lemma preserves_noise self arr :
  preserves rng_rotate (apply_noise self arr) /\
  preserves np_global (apply_noise self arr).
Proof.
  split; intros w; unfold apply_noise; by destruct (sk_random_noise _ _).
Qed.

Lemma preserves_deformation self arr :
  preserves rng_noise (apply_deformation self arr) /\
  preserves rng_rotate (apply_deformation self arr) /\
  preserves trace (apply_deformation self arr).
Proof.
  split_and!; intros w; unfold apply_deformation; by destruct (deform_random_grid _ _ _).
Qed.

Lemma still_no_hook {A} (x : A) : still (call_hook None x).
Proof. by intros w. Qed.

(** Without hooks, the part of an access after the augmentation block,
    and the part before it, leave the world alone; so an access keeps
    whatever the augmentation block keeps. *)
Lemma preserves_getitem {X} (part : World -> X) fs self idx pat_idx :
  transform self = None ->
  target_transform self = None ->
  index_values (labels self).*1 idx = Ok pat_idx ->
  (forall arr, preserves part (augment self (last_segment (split_on "_"%char pat_idx)) arr)) ->
  preserves part (__getitem__ fs self idx).
Proof.
  intros Htr Htt Hidx Haug. unfold __getitem__. rewrite Hidx, Htr, Htt.
  apply preserves_bind_Ok. apply preserves_bind.
  - destruct (length (modality self) <? 2).
    + unfold get_pat_array, load_single. apply preserves_bind.
      * repeat (apply preserves_bind; [apply preserves_still, still_lift | intros ?]).
        apply Haug.
      * intros in_arr. apply preserves_still.
        destruct (to_sectionate self); [|apply still_ret].
        destruct (n_channels self =? 1)%Z; apply still_lift.
    + unfold get_pat_mod_array.
      repeat (apply preserves_bind; [apply preserves_still, still_lift | intros ?]).
      apply Haug.
  - intros in_arr. apply preserves_still.
    apply still_bind; [apply still_lift|]. intros a1.
    apply still_bind; [apply still_no_hook|]. intros a2.
    apply still_bind; [apply still_no_hook|]. intros lbl.
    apply still_bind; [apply still_lift|]. intros tensor.
    apply still_ret.
Qed.

Lemma preserves_augment {X} (part : World -> X) self aug arr :
  (contains aug "rotate" = true -> forall x, preserves part (apply_rotation self x)) ->
  (contains aug "noise" = true -> forall x, preserves part (apply_noise self x)) ->
  (contains aug "deform" = true -> forall x, preserves part (apply_deformation self x)) ->
  preserves part (augment self aug arr).
Proof.
  intros Hr Hn Hd. unfold augment.
  destruct (routed self aug); [|apply preserves_still, still_ret].
  apply preserves_bind.
  { apply preserves_still. destruct (contains aug "flip"); [apply still_lift | apply still_ret]. }
  intros a1. apply preserves_bind.
  { destruct (contains aug "rotate"); [by apply Hr | apply preserves_still, still_ret]. }
  intros a2. apply preserves_bind.
  { destruct (contains aug "noise"); [by apply Hn | apply preserves_still, still_ret]. }
  intros a3.
  destruct (contains aug "deform"); [by apply Hd | apply preserves_still, still_ret].
Qed.

(** On an instance without hooks, each source of randomness is touched
    only by its own transformation: an access whose suffix segment does
    not name the noise leaves the noise generator as it was, one that does
    not name the rotation leaves the rotation generator as it was, and one
    that does not name the deformation leaves numpy's global state as it
    was. *)
Theorem generators_drawn_separately fs self idx pat_idx w :
  transform self = None ->
  target_transform self = None ->
  index_values (labels self).*1 idx = Ok pat_idx ->
  let aug := last_segment (split_on "_"%char pat_idx) in
  (contains aug "noise" = false -> rng_noise (__getitem__ fs self idx w).2 = rng_noise w) /\
  (contains aug "rotate" = false -> rng_rotate (__getitem__ fs self idx w).2 = rng_rotate w) /\
  (contains aug "deform" = false -> np_global (__getitem__ fs self idx w).2 = np_global w).
Proof.
  intros Htr Htt Hidx aug. subst aug. split_and!; intros Hno;
    apply (preserves_getitem _ fs self idx pat_idx Htr Htt Hidx); intros arr;
    apply preserves_augment; intros Hc x; try congruence.
  - apply (proj1 (preserves_rotation self x)).
  - apply (proj1 (preserves_deformation self x)).
  - apply (proj1 (preserves_noise self x)).
  - apply (proj1 (proj2 (preserves_deformation self x))).
  - apply (proj2 (preserves_rotation self x)).
  - apply (proj2 (preserves_noise self x)).
Qed.

End IndependenceFacts.

(** ** Missing files, and the channels of an item *)

Section ItemFacts.
Context {T L : Type} `{Lb : Libs T}.
Implicit Types (self : @DatasetGenerator T L Lb) (arr vol : ndarray T) (w : World).
Implicit Types (fs : gmap string (ndarray T)).

(** When the file of the first modality is missing, the access raises
    [FileNotFoundError] and nothing has been drawn from either generator,
    whichever loader is used and whatever the identifier is routed to. *)
Theorem missing_file_raises fs self idx pat_idx m w :
  index_values (labels self).*1 idx = Ok pat_idx ->
  modality self !! 0 = Some m ->
  fs !! path_join (data_dir self) (file_name self pat_idx m) = None ->
  (2 <= length (modality self) -> Forall (fun d => (0 <= d)%Z) (dim self)) ->
  __getitem__ fs self idx w = (Raise FileNotFoundError, w).
Proof.
  intros Hidx Hm Hfile Hdim.
  apply (getitem_loader_raises fs self idx w pat_idx); [done|].
  destruct (length (modality self) <? 2) eqn:Hlen.
  - unfold get_pat_array, load_single.
    assert (Hload : (mod0 ← lift (of_option IndexError (modality self !! 0));
                     in_arr ← lift (np_load fs (path_join (data_dir self)
                                                  (file_name self pat_idx mod0)));
                     in_arr ← lift (select_channels self in_arr);
                     augment self (last_segment (split_on "_"%char pat_idx)) in_arr) w
                    = (Raise FileNotFoundError, w)).
    { rewrite M_bind_lift, Hm. cbn [of_option]. rewrite M_bind_lift.
      unfold np_load. by rewrite Hfile. }
    by rewrite (M_bind_eval _ _ _ _ _ Hload).
  - apply Nat.ltb_ge in Hlen. specialize (Hdim Hlen).
    unfold get_pat_mod_array. rewrite M_bind_lift.
    assert (Hnn : forallb (fun z => (0 <=? z)%Z)
                    (Z.of_nat (length (modality self)) :: dim self) = true).
    { apply forallb_forall. intros z Hz. apply list_elem_of_In in Hz.
      apply Z.leb_le. apply elem_of_cons in Hz as [->|Hz]; [lia|].
      rewrite Forall_forall in Hdim. by apply Hdim in Hz. }
    unfold np_empty. rewrite Hnn, M_bind_lift.
    destruct (modality self) as [|m0 mods]; [discriminate|].
    injection Hm as ->. cbn [stack_modalities].
    unfold np_load. by rewrite Hfile.
Qed.

(** The channels of an item, for a single modality without sectionation
    or hooks and an identifier not routed to the augmentor, on a
    well-formed volume of at least five leading slices: channel count 1
    gives one channel, the whole-tumor slice; 4 gives four; 5 gives all
    the file has; every other count above 1 gives three channels, whatever
    the count; and a count below 1 gives the whole-tumor slice with no
    channel axis at all.  In that last case a file of one axis makes the
    slice a numpy scalar, which torch rejects: the access raises
    [TypeError]. *)
Theorem item_channels fs self idx pat_idx m vol c s w :
  index_values (labels self).*1 idx = Ok pat_idx ->
  modality self = [m] ->
  to_sectionate self = false ->
  transform self = None ->
  target_transform self = None ->
  routed self (last_segment (split_on "_"%char pat_idx)) = false ->
  fs !! path_join (data_dir self) (file_name self pat_idx m) = Some vol ->
  wf vol = true ->
  shape vol = c :: s ->
  5 <= c ->
  ((n_channels self < 1)%Z -> s = [] ->
   __getitem__ fs self idx w = (Raise TypeError, w)) /\
  ((1 <= n_channels self)%Z \/ s <> [] ->
   exists item,
    __getitem__ fs self idx w = (Ok (item, loc (labels self) pat_idx), w) /\
    shape item
      = (if (n_channels self <? 1)%Z then s
         else if (n_channels self =? 1)%Z then 1 :: s
         else if (n_channels self =? 4)%Z then 4 :: s
         else if (n_channels self =? 5)%Z then c :: s
         else 3 :: s)).
Proof.
  intros Hidx Hmod Hsec Htr Htt Hroute Hfile Hwf Hs Hc.
  destruct (wf_leading vol Hwf) as (n & s' & xs & Hs' & Hb & Hlen);
    [unfold ndim; rewrite Hs; simpl; lia|].
  rewrite Hs in Hs'. injection Hs' as <- <-.
  assert (Hsel : exists x, select_channels self vol = Ok x /\
            shape x = (if (1 <? n_channels self)%Z
                       then if (n_channels self =? 5)%Z then c :: s
                            else if (n_channels self =? 4)%Z then 4 :: s else 3 :: s
                       else s)).
  { unfold select_channels, take0, slice0, index0. rewrite Hs, Hb. simpl.
    destruct xs as [|x0 [|x1 [|x2 [|x3 [|x4 xs]]]]]; simpl in Hlen; try lia.
    repeat (rewrite (proj2 (Nat.ltb_lt _ _)) by lia). simpl.
    destruct (1 <? n_channels self)%Z.
    - destruct (n_channels self =? 5)%Z; [by eexists|].
      destruct (n_channels self =? 4)%Z; [by eexists|].
      eexists. split; [done|]. simpl. do 2 f_equal.
      destruct c as [|[|[|c]]]; simpl; lia.
    - by eexists. }
  destruct Hsel as (x & Hsel & Hshape).
  assert (Hload : load_single fs self pat_idx w = (Ok x, w)).
  { rewrite (load_single_eval fs self pat_idx w m vol x); try done.
    - unfold augment. by rewrite Hroute.
    - by rewrite Hmod.
    - unfold np_load. by rewrite Hfile. }
  assert (Hget : __getitem__ fs self idx w
                 = (tensor ← from_numpy false
                               (if (n_channels self =? 1)%Z then expand_dims0 x else x);
                    Ok (tensor, loc (labels self) pat_idx), w)).
  { apply (getitem_plain_tensor fs self idx w pat_idx x w); try done.
    rewrite Hmod. simpl. lia. }
  split.
  - intros Hn Hs0. rewrite Hget.
    rewrite (proj2 (Z.eqb_neq _ _)) by lia.
    rewrite (proj2 (Z.ltb_ge _ _)) in Hshape by lia.
    unfold from_numpy, ndim. by rewrite Hshape, Hs0.
  - intros Hok.
    assert (Hrank : 0 < ndim (if (n_channels self =? 1)%Z then expand_dims0 x else x)).
    { unfold ndim.
      destruct (Z.eqb_spec (n_channels self) 1) as [Hn|Hn]; [simpl; lia|].
      rewrite Hshape.
      destruct (Z.ltb_spec 1 (n_channels self)) as [Hgt|Hle].
      - destruct (n_channels self =? 5)%Z, (n_channels self =? 4)%Z; simpl; lia.
      - destruct Hok as [Hok|Hok]; [lia|]. destruct s; [done | simpl; lia]. }
    eexists. split.
    + by rewrite Hget, from_numpy_array.
    + destruct (Z.ltb_spec (n_channels self) 1), (Z.eqb_spec (n_channels self) 1),
        (Z.ltb_spec 1 (n_channels self)), (Z.eqb_spec (n_channels self) 4),
        (Z.eqb_spec (n_channels self) 5); simpl; rewrite ?Hshape; try done; lia.
Qed.

End ItemFacts.

(** ** The further properties on concrete inputs *)

Lemma getitem_out_of_range_witness :
  let a := ex_args "P_001" ["flip"] 1 in
  (5 < - Z.of_nat (__len__ (constructed a)) \/ Z.of_nat (__len__ (constructed a)) <= 5)%Z /\
  (- 2 ^ 63 <= 5 < 2 ^ 63)%Z /\
  __len__ (constructed a) = 2 /\
  __getitem__ ex_fs (constructed a) 5 (constructed_world a 0%Z)
    = (Raise IndexError, constructed_world a 0%Z).
Proof.
  intros a.
  assert (H : (5 < - Z.of_nat (__len__ (constructed a))
               \/ Z.of_nat (__len__ (constructed a)) <= 5)%Z) by (right; vm_compute; discriminate).
  assert (Hfit : (- 2 ^ 63 <= 5 < 2 ^ 63)%Z) by lia.
  split; [exact H|]. split; [exact Hfit|]. split; [reflexivity|].
  destruct (@getitem_out_of_range Z nat ex_libs ex_fs (constructed a) 5%Z
              (constructed_world a 0%Z) H) as [_ Hin].
  exact (Hin Hfit).
Defined.

Lemma getitem_negative_index_witness :
  let a := ex_args "P_001" ["flip"] 1 in
  (- Z.of_nat (__len__ (constructed a)) <= -1 < 0)%Z /\
  __getitem__ ex_fs (constructed a) (-1) (constructed_world a 0%Z)
    = __getitem__ ex_fs (constructed a) 1 (constructed_world a 0%Z).
Proof.
  intros a.
  assert (H : (- Z.of_nat (__len__ (constructed a)) <= -1 < 0)%Z) by (vm_compute; split; discriminate || reflexivity).
  split; [exact H|].
  exact (@getitem_negative_index Z nat ex_libs ex_fs (constructed a) (-1)%Z
           (constructed_world a 0%Z) H).
Defined.

Lemma access_without_randomness_witness :
  let self := constructed (ex_args "P_001" ["flip"] 1) in
  transform self = None /\
  target_transform self = None /\
  index_values (labels self).*1 1 = Ok "P_001_flip" /\
  (routed self (last_segment (split_on "_"%char "P_001_flip")) = false
   \/ draws_nothing (last_segment (split_on "_"%char "P_001_flip")) = true) /\
  constant (__getitem__ ex_fs self 1).
Proof.
  intros self.
  assert (H1 : index_values (labels self).*1 1 = Ok "P_001_flip") by reflexivity.
  assert (H2 : routed self (last_segment (split_on "_"%char "P_001_flip")) = false
               \/ draws_nothing (last_segment (split_on "_"%char "P_001_flip")) = true)
    by (right; reflexivity).
  split_and!; [reflexivity | reflexivity | exact H1 | exact H2 |].
  exact (@access_without_randomness Z nat ex_libs ex_fs self 1%Z "P_001_flip"
           eq_refl eq_refl H1 H2).
Defined.

Lemma virtual_id_file_witness :
  let self := constructed (ex_args "P_001" ["flip"] 1) in
  to_augment self = true /\
  free_of "_"%char "flip" = true /\
  file_name self (virtual_id "P_001" "flip") "FLAIR" = "P_001_FLAIR.npy" /\
  file_name self (virtual_id "P001" "flip") "FLAIR" = "P001_flip_FLAIR.npy".
Proof.
  intros self.
  assert (H1 : to_augment self = true) by reflexivity.
  assert (H2 : free_of "_"%char "flip" = true) by reflexivity.
  split_and!; [exact H1 | exact H2 | |].
  - destruct (@virtual_id_file Z nat ex_libs self "P_001" "flip" "FLAIR" H1 H2) as [H _].
    exact (proj1 (H eq_refl)).
  - destruct (@virtual_id_file Z nat ex_libs self "P001" "flip" "FLAIR" H1 H2) as [_ H].
    apply H. vm_compute. discriminate.
Defined.

Lemma virtual_item_transforms_base_witness :
  let a := ex_args "P_001" ["flip"; "noise"] 3 in
  let self := constructed a in
  let w := constructed_world a 0%Z in
  __init__ a 0%Z = Ok (self, w) /\
  NoDup (arg_augment_types a) /\
  ex_fs !! path_join (arg_data_dir a) ("P_001" +:+ "_" +:+ "FLAIR" +:+ ".npy") = Some ex_volume /\
  exists x,
    select_channels self ex_volume = Ok x /\
    index_values (labels self).*1 2 = Ok "P_001_noise" /\
    load_single ex_fs self "P_001_noise" w = apply_noise self x w.
Proof.
  intros a self w.
  assert (H1 : __init__ a 0%Z = Ok (self, w)) by reflexivity.
  assert (H2 : arg_to_augment a = true) by reflexivity.
  assert (H3 : NoDup (arg_augment_types a)).
  { apply (bool_decide_unpack _). vm_compute. exact I. }
  assert (H4 : arg_modality a = ["FLAIR"]) by reflexivity.
  assert (H5 : arg_labels a !! 0 = Some ("P_001", 7)) by reflexivity.
  assert (H6 : arg_augment_types a !! 1 = Some "noise") by reflexivity.
  assert (H7 : free_of "_"%char "noise" = true) by reflexivity.
  assert (H8 : length (split_on "_"%char "P_001") = 2) by reflexivity.
  assert (H9 : ex_fs !! path_join (arg_data_dir a) ("P_001" +:+ "_" +:+ "FLAIR" +:+ ".npy")
               = Some ex_volume) by (vm_compute; reflexivity).
  destruct (select_channels self ex_volume) as [x|e] eqn:H10;
    [|vm_compute in H10; discriminate H10].
  destruct (@virtual_item_transforms_base Z nat ex_libs a 0%Z self w ex_fs 0 1 "P_001" 7
              "noise" "FLAIR" ex_volume x w H1 H2 H3 H4 H5 H6 H7 H8 H9 H10) as [Ha Hb].
  split_and!; [exact H1 | exact H3 | exact H9 |].
  exists x. split_and!; [reflexivity | exact Ha |].
  etransitivity; [exact Hb|]. unfold applicable, transformations.
  change (List.filter _ _) with [("noise", apply_noise self)].
  cbn [run_steps snd]. unfold mbind, M_bind.
  by destruct (apply_noise self x w) as [[y|e] w1].
Defined.

Lemma expanded_identifiers_distinct_witness :
  let a := ex_args "P_001" ["flip"; "rotate"] 3 in
  let self := constructed a in
  __init__ a 0%Z = Ok (self, constructed_world a 0%Z) /\
  NoDup (arg_augment_types a) /\
  Forall (fun k => free_of "_"%char k = true) (arg_augment_types a) /\
  NoDup (arg_labels a).*1 /\
  Forall (fun I => length (split_on "_"%char I) = 2) (arg_labels a).*1 /\
  NoDup (labels self).*1 /\
  loc (labels self) "P_001_rotate" = [7].
Proof.
  intros a self.
  assert (H1 : __init__ a 0%Z = Ok (self, constructed_world a 0%Z)) by reflexivity.
  assert (H2 : arg_to_augment a = true) by reflexivity.
  assert (H3 : NoDup (arg_augment_types a)).
  { apply (bool_decide_unpack _). vm_compute. exact I. }
  assert (H4 : Forall (fun k => free_of "_"%char k = true) (arg_augment_types a)).
  { repeat constructor. }
  assert (H5 : NoDup (arg_labels a).*1).
  { apply (bool_decide_unpack _). vm_compute. exact I. }
  assert (H6 : Forall (fun I => length (split_on "_"%char I) = 2) (arg_labels a).*1).
  { repeat constructor. }
  destruct (@expanded_identifiers_distinct Z nat ex_libs a 0%Z self _ 2 H1 H2 H3 H4 H5 H6)
    as [Hnd Hloc].
  split_and!; try assumption.
  apply (Hloc 2). reflexivity.
Defined.

Lemma expander_repeated_kinds_witness :
  let a := ex_args "P_001" ["flip"; "rotate"; "flip"] 3 in
  let self := constructed a in
  __init__ a 0%Z = Ok (self, constructed_world a 0%Z) /\
  arg_to_augment a = true /\
  ~ NoDup (arg_augment_types a) /\
  __len__ self = 3 /\
  length (data_indices self) = 4 /\
  __len__ self < length (data_indices self).
Proof.
  intros a self.
  assert (H1 : __init__ a 0%Z = Ok (self, constructed_world a 0%Z)) by reflexivity.
  assert (H2 : arg_to_augment a = true) by reflexivity.
  assert (H3 : ~ NoDup (arg_augment_types a)).
  { apply (bool_decide_unpack _). vm_compute. exact I. }
  destruct (@expander_repeated_kinds Z nat ex_libs a 0%Z self _ H1 H2) as (_ & _ & _ & H).
  split_and!; [exact H1 | exact H2 | exact H3 | reflexivity | reflexivity |].
  apply H; [exact H3 | discriminate | reflexivity].
Defined.

Lemma sectionate_single_channel_witness :
  let a := ex_section_args in
  let self := constructed a in
  let w := constructed_world a 0%Z in
  length (modality self) < 2 /\
  to_sectionate self = true /\
  n_channels self = 1%Z /\
  dim self = [-2; 4]%Z /\
  index_values (labels self).*1 0 = Ok "P_001" /\
  exists x item,
    load_single ex_fs self "P_001" w = (Ok x, w) /\ wf x = true /\
    __getitem__ ex_fs self 0 w = (Ok (expand_dims0 item, [7]), w) /\
    shape x = [2; 2; 2] /\
    shape item = [2; 4] /\
    flatten (body item) = flatten (body x) /\
    flatten (body item) = [24; 25; 26; 27; 28; 29; 30; 31]%Z.
Proof.
  intros a self w.
  assert (H1 : length (modality self) < 2) by (vm_compute; lia).
  assert (H2 : to_sectionate self = true) by reflexivity.
  assert (H3 : n_channels self = 1%Z) by reflexivity.
  assert (H4 : transform self = None) by reflexivity.
  assert (H5 : target_transform self = None) by reflexivity.
  assert (H6 : index_values (labels self).*1 0 = Ok "P_001") by reflexivity.
  destruct (load_single ex_fs self "P_001" w) as [[x|e] w1] eqn:H7;
    [|vm_compute in H7; discriminate H7].
  assert (Hw1 : w1 = w) by (vm_compute in H7; injection H7 as _ <-; reflexivity).
  subst w1.
  assert (H8 : wf x = true) by (vm_compute in H7; injection H7 as <-; reflexivity).
  destruct (@sectionate_single_channel Z nat ex_libs ex_fs self 0%Z w "P_001" x w
              H1 H2 H3 H4 H5 H6 H7 H8) as [Hsome _].
  assert (Hs : resolve_shape (size x) (dim self) = Some [2; 4]).
  { vm_compute in H7. injection H7 as <-. reflexivity. }
  destruct (Hsome _ Hs) as (r & _ & Hsh & Hfl & Hget).
  split_and!; try assumption; [reflexivity|].
  exists x, r. split_and!; try done.
  - vm_compute in H7. injection H7 as <-. reflexivity.
  - rewrite Hfl. vm_compute in H7. injection H7 as <-. reflexivity.
Defined.

Lemma routing_ignores_to_augment_witness :
  let a := ex_plain_args in
  let self := constructed a in
  let w := constructed_world a 0%Z in
  to_augment self = false /\
  modality self !! 0 = Some "FLAIR" /\
  ex_fs_more !! path_join (data_dir self) ("X_flip" +:+ "_" +:+ "FLAIR" +:+ ".npy")
    = Some ex_volume /\
  last_segment (split_on "_"%char "X_flip") ∈ augment_types self /\
  exists x fx,
    select_channels self ex_volume = Ok x /\
    apply_flip self x = Ok fx /\
    load_single ex_fs_more self "X_flip" w = (Ok fx, w) /\
    fx <> x.
Proof.
  intros a self w.
  assert (H1 : to_augment self = false) by reflexivity.
  assert (H2 : modality self !! 0 = Some "FLAIR") by reflexivity.
  assert (H3 : ex_fs_more !! path_join (data_dir self) ("X_flip" +:+ "_" +:+ "FLAIR" +:+ ".npy")
               = Some ex_volume) by (vm_compute; reflexivity).
  assert (H5 : last_segment (split_on "_"%char "X_flip") ∈ augment_types self).
  { apply (bool_decide_unpack _). vm_compute. exact I. }
  destruct (select_channels self ex_volume) as [x|e] eqn:H4;
    [|vm_compute in H4; discriminate H4].
  pose proof (@routing_ignores_to_augment Z nat ex_libs ex_fs_more self "X_flip" "FLAIR"
                ex_volume x w H1 H2 H3 H4 H5) as Hload.
  split_and!; try assumption.
  destruct (apply_flip self x) as [fx|e] eqn:Hfx.
  - exists x, fx. split_and!; try done.
    + rewrite Hload. change (last_segment (split_on "_"%char "X_flip")) with "flip".
      unfold applicable, transformations.
      change (List.filter _ _)
        with [("flip", fun arr : ndarray Z => @lift Z ex_libs _ (apply_flip self arr))].
      cbn [run_steps snd]. rewrite M_bind_lift, Hfx. reflexivity.
    + vm_compute in H4. injection H4 as <-. vm_compute in Hfx. injection Hfx as <-.
      discriminate.
  - vm_compute in H4. injection H4 as <-. vm_compute in Hfx. discriminate Hfx.
Defined.

Lemma rotation_rotates_leading_slabs_witness :
  let self := constructed ex_seven_args in
  let w := constructed_world ex_seven_args 0%Z in
  n_channels self <> 1%Z /\
  shape ex_volume = [5; 2; 2; 2] /\
  exists r w',
    apply_rotation self ex_volume w = (Ok r, w') /\
    children (body r) !! 3 = children (body ex_volume) !! 3 /\
    children (body r) !! 4 = children (body ex_volume) !! 4 /\
    children (body r) !! 0 <> children (body ex_volume) !! 0 /\
    trace w' = [Angle (-138)].
Proof.
  intros self w.
  assert (H1 : n_channels self <> 1%Z) by (vm_compute; discriminate).
  assert (H2 : shape ex_volume = [5; 2; 2; 2]) by reflexivity.
  destruct (apply_rotation self ex_volume w) as [[r|e] w'] eqn:H3;
    [|vm_compute in H3; discriminate H3].
  destruct (@rotation_rotates_leading_slabs Z nat ex_libs self ex_volume w r w' 5 [2; 2; 2]
              H1 H2 H3) as (_ & Htr & Hkeep & _).
  split_and!; try assumption.
  exists r, w'. split_and!.
  - reflexivity.
  - apply Hkeep. apply (bool_decide_unpack _). vm_compute. exact I.
  - apply Hkeep. apply (bool_decide_unpack _). vm_compute. exact I.
  - vm_compute in H3. injection H3 as <- _. vm_compute. discriminate.
  - rewrite Htr. reflexivity.
Defined.

Lemma two_modalities_rotation_raises_witness :
  let a := ex_pair_args in
  let self := constructed a in
  let w := constructed_world a 0%Z in
  __init__ a 0%Z = Ok (self, w) /\
  length (arg_modality a) = 2 /\
  index_values (labels self).*1 1 = Ok "P_001_rotate" /\
  routed self (last_segment (split_on "_"%char "P_001_rotate")) = true /\
  contains (last_segment (split_on "_"%char "P_001_rotate")) "rotate" = true /\
  (__getitem__ ex_fs self 1 w).1 = Raise IndexError /\
  is_Ok (__getitem__ ex_fs self 0 w).1.
Proof.
  intros a self w.
  assert (H1 : __init__ a 0%Z = Ok (self, w)) by reflexivity.
  assert (H2 : length (arg_modality a) = 2) by reflexivity.
  assert (H3 : index_values (labels self).*1 1 = Ok "P_001_rotate") by reflexivity.
  assert (H4 : routed self (last_segment (split_on "_"%char "P_001_rotate")) = true)
    by reflexivity.
  assert (H5 : contains (last_segment (split_on "_"%char "P_001_rotate")) "rotate" = true)
    by reflexivity.
  destruct (@two_modalities_rotation_raises Z nat ex_libs a 0%Z self w ex_fs 1%Z
              "P_001_rotate" w H1 H2 H3 H4 H5) as [e He].
  split_and!; try assumption.
  - rewrite He. f_equal. vm_compute in He. by injection He.
  - vm_compute. exact I.
Defined.

Lemma stack_ignores_uninitialised_witness :
  let self := constructed ex_pair_args in
  exists e1 e2,
    np_empty (Z.of_nat (length ["FLAIR"; "T1"]) :: [2; 2; 2]%Z) 0%Z = Ok e1 /\
    np_empty (Z.of_nat (length ["FLAIR"; "T1"]) :: [2; 2; 2]%Z) 9%Z = Ok e2 /\
    e1 <> e2 /\
    stack_modalities ex_fs self "P_001" 0 ["FLAIR"; "T1"] e1
      = stack_modalities ex_fs self "P_001" 0 ["FLAIR"; "T1"] e2 /\
    is_Ok (stack_modalities ex_fs self "P_001" 0 ["FLAIR"; "T1"] e1).
Proof.
  intros self.
  destruct (np_empty (Z.of_nat (length ["FLAIR"; "T1"]) :: [2; 2; 2]%Z) 0%Z) as [e1|e] eqn:H1;
    [|vm_compute in H1; discriminate H1].
  destruct (np_empty (Z.of_nat (length ["FLAIR"; "T1"]) :: [2; 2; 2]%Z) 9%Z) as [e2|e] eqn:H2;
    [|vm_compute in H2; discriminate H2].
  pose proof (@stack_ignores_uninitialised Z nat ex_libs ex_fs self "P_001" ["FLAIR"; "T1"]
                [2; 2; 2]%Z 0%Z 9%Z e1 e2 H1 H2) as H.
  exists e1, e2. split_and!; [reflexivity | reflexivity | | exact H |].
  - vm_compute in H1, H2. injection H1 as <-. injection H2 as <-. discriminate.
  - vm_compute in H1. injection H1 as <-. vm_compute. exact I.
Defined.

Lemma apply_flip_keeps_elements_witness :
  let self := constructed (ex_args "P_001" ["flip"] 1) in
  exists r,
    apply_flip self (arange [2; 2; 2]) = Ok r /\
    shape r = [2; 2; 2] /\
    flatten (body r) ≡ₚ flatten (body (arange [2; 2; 2])) /\
    flatten (body r) = [7; 6; 5; 4; 3; 2; 1; 0]%Z.
Proof.
  intros self.
  destruct (apply_flip self (arange [2; 2; 2])) as [r|e] eqn:H1;
    [|vm_compute in H1; discriminate H1].
  destruct (@apply_flip_keeps_elements Z nat ex_libs self _ r H1) as (Hs & _ & Hp).
  exists r. split_and!; [reflexivity | by rewrite Hs | exact Hp |].
  vm_compute in H1. injection H1 as <-. reflexivity.
Defined.

Lemma stacked_modalities_well_formed_witness :
  let self := constructed ex_stack_args in
  (forall path vol, ex_fs !! path = Some vol -> wf vol = true) /\
  exists empty stacked,
    np_empty (Z.of_nat (length ["FLAIR"; "T1"; "T2"]) :: [2; 2; 2]%Z) 0%Z = Ok empty /\
    stack_modalities ex_fs self "P_001" 0 ["FLAIR"; "T1"; "T2"] empty = Ok stacked /\
    wf stacked = true /\
    shape stacked = [3; 2; 2; 2].
Proof.
  intros self.
  assert (H1 : forall path vol, ex_fs !! path = Some vol -> wf vol = true).
  { intros path vol Hv.
    assert (Hall : map_Forall (fun _ v => wf v = true) ex_fs).
    { apply (bool_decide_unpack _). vm_compute. exact I. }
    exact (Hall path vol Hv). }
  destruct (np_empty (Z.of_nat (length ["FLAIR"; "T1"; "T2"]) :: [2; 2; 2]%Z) 0%Z)
    as [empty|e] eqn:H2; [|vm_compute in H2; discriminate H2].
  destruct (stack_modalities ex_fs self "P_001" 0 ["FLAIR"; "T1"; "T2"] empty)
    as [stacked|e] eqn:H3;
    [|vm_compute in H2; injection H2 as <-; vm_compute in H3; discriminate H3].
  destruct (@stacked_modalities_well_formed Z nat ex_libs ex_fs self "P_001"
              ["FLAIR"; "T1"; "T2"] [2; 2; 2]%Z 0%Z empty stacked H1 H2 H3) as (Hw & Hs & _).
  split; [exact H1|]. exists empty, stacked. split_and!; try done.
Defined.

Lemma generators_drawn_separately_witness :
  let a := ex_args "P_001" ["rotate"] 3 in
  let self := constructed a in
  let w := constructed_world a 0%Z in
  transform self = None /\
  target_transform self = None /\
  index_values (labels self).*1 1 = Ok "P_001_rotate" /\
  rng_noise (__getitem__ ex_fs self 1 w).2 = rng_noise w /\
  np_global (__getitem__ ex_fs self 1 w).2 = np_global w /\
  rng_rotate (__getitem__ ex_fs self 1 w).2 <> rng_rotate w.
Proof.
  intros a self w.
  assert (H1 : index_values (labels self).*1 1 = Ok "P_001_rotate") by reflexivity.
  destruct (@generators_drawn_separately Z nat ex_libs ex_fs self 1%Z "P_001_rotate" w
              eq_refl eq_refl H1)
    as (Hn & _ & Hd).
  split_and!; [reflexivity | reflexivity | exact H1 | apply Hn; reflexivity
              | apply Hd; reflexivity |].
  vm_compute. discriminate.
Defined.

Lemma missing_file_raises_witness :
  let a := ex_args "Q_9" ["noise"] 3 in
  let self := constructed a in
  let w := constructed_world a 0%Z in
  index_values (labels self).*1 1 = Ok "Q_9_noise" /\
  modality self !! 0 = Some "FLAIR" /\
  ex_fs !! path_join (data_dir self) (file_name self "Q_9_noise" "FLAIR") = None /\
  __getitem__ ex_fs self 1 w = (Raise FileNotFoundError, w).
Proof.
  intros a self w.
  assert (H1 : index_values (labels self).*1 1 = Ok "Q_9_noise") by reflexivity.
  assert (H2 : modality self !! 0 = Some "FLAIR") by reflexivity.
  assert (H3 : ex_fs !! path_join (data_dir self) (file_name self "Q_9_noise" "FLAIR") = None)
    by (vm_compute; reflexivity).
  assert (H4 : 2 <= length (modality self) -> Forall (fun d => (0 <= d)%Z) (dim self)).
  { intros H. vm_compute in H. lia. }
  split_and!; try assumption.
  exact (@missing_file_raises Z nat ex_libs ex_fs self 1%Z "Q_9_noise" "FLAIR" w H1 H2 H3 H4).
Defined.

Lemma item_channels_witness :
  let a := ex_config "P_001" ["FLAIR"] [2; 2; 2]%Z 2 false [] false in
  let self := constructed a in
  let w := constructed_world a 0%Z in
  let line := constructed ex_line_args in
  index_values (labels self).*1 0 = Ok "P_001" /\
  ex_fs !! path_join (data_dir self) (file_name self "P_001" "FLAIR") = Some ex_volume /\
  n_channels self = 2%Z /\
  (exists item,
     __getitem__ ex_fs self 0 w = (Ok (item, [7]), w) /\ shape item = [3; 2; 2; 2]) /\
  ex_fs_line !! path_join (data_dir line) (file_name line "S_1" "FLAIR") = Some (arange [5]) /\
  (n_channels line < 1)%Z /\
  __getitem__ ex_fs_line line 0 (constructed_world ex_line_args 0%Z)
    = (Raise TypeError, constructed_world ex_line_args 0%Z).
Proof.
  intros a self w line.
  assert (H1 : index_values (labels self).*1 0 = Ok "P_001") by reflexivity.
  assert (H2 : modality self = ["FLAIR"]) by reflexivity.
  assert (H3 : to_sectionate self = false) by reflexivity.
  assert (H4 : transform self = None) by reflexivity.
  assert (H5 : target_transform self = None) by reflexivity.
  assert (H6 : routed self (last_segment (split_on "_"%char "P_001")) = false) by reflexivity.
  assert (H7 : ex_fs !! path_join (data_dir self) (file_name self "P_001" "FLAIR")
               = Some ex_volume) by (vm_compute; reflexivity).
  assert (H8 : wf ex_volume = true) by reflexivity.
  assert (H9 : shape ex_volume = [5; 2; 2; 2]) by reflexivity.
  assert (H10 : 5 <= 5) by lia.
  destruct (@item_channels Z nat ex_libs ex_fs self 0%Z "P_001" "FLAIR" ex_volume 5 [2; 2; 2]
              w H1 H2 H3 H4 H5 H6 H7 H8 H9 H10) as [_ Hret].
  destruct Hret as (item & Hget & Hsh); [left; vm_compute; discriminate|].
  assert (L7 : ex_fs_line !! path_join (data_dir line) (file_name line "S_1" "FLAIR")
               = Some (arange [5])) by (vm_compute; reflexivity).
  assert (L0 : (n_channels line < 1)%Z) by (vm_compute; reflexivity).
  destruct (@item_channels Z nat ex_libs ex_fs_line line 0%Z "S_1" "FLAIR" (arange [5]) 5 []
              (constructed_world ex_line_args 0%Z)) as [Hscalar _];
    [reflexivity | reflexivity | reflexivity | reflexivity | reflexivity | reflexivity
    | exact L7 | reflexivity | reflexivity | lia |].
  split_and!; [exact H1 | exact H7 | reflexivity | | exact L7 | exact L0
              | exact (Hscalar L0 eq_refl)].
  exists item. split; [exact Hget | exact Hsh].
Defined.

Lemma virtual_id_routing_witness :
  let self := constructed (ex_args "P_001" ["flip"; "a_b"] 1) in
  free_of "_"%char "flip" = true /\
  ("flip" ∈ augment_types self) /\
  routed self (last_segment (split_on "_"%char (virtual_id "P_001" "flip"))) = true /\
  (last_segment (split_on "_"%char "a_b") ∉ augment_types self) /\
  ("a_b" ∈ augment_types self) /\
  forall arr w,
    augment self (last_segment (split_on "_"%char (virtual_id "P_001" "a_b"))) arr w = (Ok arr, w).
Proof.
  intros self.
  assert (H1 : free_of "_"%char "flip" = true) by reflexivity.
  assert (H2 : "flip" ∈ augment_types self).
  { apply (bool_decide_unpack _). vm_compute. exact I. }
  assert (H3 : last_segment (split_on "_"%char "a_b") ∉ augment_types self).
  { apply (bool_decide_unpack _). vm_compute. exact I. }
  assert (H4 : "a_b" ∈ augment_types self).
  { apply (bool_decide_unpack _). vm_compute. exact I. }
  destruct (@virtual_id_routing Z nat ex_libs self "P_001" "flip") as (_ & Hin & _).
  destruct (@virtual_id_routing Z nat ex_libs self "P_001" "a_b") as (_ & _ & Hout).
  split_and!; [exact H1 | exact H2 | exact (Hin H1 H2) | exact H3 | exact H4 | exact (Hout H3)].
Defined.

Lemma rotation_short_stack_raises_witness :
  let self := constructed ex_pair_args in
  let w := constructed_world ex_pair_args 0%Z in
  let arr := arange [2; 2; 2; 2] in
  n_channels self <> 1%Z /\
  shape arr = [2; 2; 2; 2] /\
  2 < length (rotated_slabs self) /\
  (apply_rotation self arr w).1 = Raise IndexError /\
  rng_rotate (apply_rotation self arr w).2 <> rng_rotate w /\
  trace (apply_rotation self arr w).2 = [Angle (-138)].
Proof.
  intros self w arr.
  assert (H1 : n_channels self <> 1%Z) by (vm_compute; discriminate).
  assert (H2 : shape arr = [2; 2; 2; 2]) by reflexivity.
  assert (H3 : 2 < length (rotated_slabs self)) by (vm_compute; lia).
  destruct (@rotation_short_stack_raises Z nat ex_libs self arr w 2 [2; 2; 2] H1 H2 H3)
    as ([e He] & Hgen & Htr).
  split_and!; [exact H1 | exact H2 | exact H3 | | |].
  - rewrite He. f_equal. vm_compute in He. by injection He.
  - rewrite Hgen. vm_compute. discriminate.
  - rewrite Htr. reflexivity.
Defined.
